(* ===== verification/_CoqProject ===== *)
-Q . S2P
Prelude.v
Regex.v
Sanitizer.v
Replace.v
ReadmeClean.v
Rules.v
AIPath.v
Base64.v
Extractor.v
Gmail.v
Dedup.v
Notifier.v
Worker002.v
Interleave.v
Popup.v
