(* ===== verification/Prelude.v ===== *)
(** * Smart Gmail Notifier: a verification development

    The program (src/) is a Chrome extension.  Its parts and how they
    interact:

    - [src/gmail.js], class [GmailAPI]: fetches up to ten unread messages
      ([getUnreadEmails]), turns each Gmail payload into a record
      ([parseMessage]) and walks the MIME part tree for a body
      ([extractEmailBody]), decoding URL-safe base64 ([decodeBase64]) and
      stripping HTML ([stripHtml]).
    - [src/ai.js], class [AIProcessor]: cleans the body ([cleanEmail]),
      calls a chat-completion service ([callAI]) whose reply is validated
      ([validateTag]), rewrites the summary through a keyword cascade
      ([addContextHint]) and falls back to a keyword rule engine
      ([basicFallback]); [processEmail] composes them.
    - [src/unnamed/part_001] (the background service worker, class
      [GmailNotifier]): keeps [isRunning], [authToken], the set
      [processedMessages] and [settings]; [checkForNewEmails] runs the
      pipeline for every unread message not yet processed, then
      [markAsProcessed] persists the id set; [clearProcessed],
      [getStatus] and [togglePolling] are message handlers for the popup.
    - [src/unnamed/part_002]: an older variant of the same worker, with
      the same storage keys and the same [gmailAPI] and [aiProcessor];
      its [startPolling] awaits the first check before it registers the
      alarm listener, and its [processNewEmail] swallows every error.
    - [src/popup.js]: the settings and status page: it asks the worker
      for its status, toggles polling, clears the history and saves the
      API key into the stored settings.

    Control flow: alarm tick -> [checkForNewEmails] -> [getUnreadEmails]
    -> [parseMessage]/[extractEmailBody] -> [processEmail]
    ([cleanEmail], [callAI] or [basicFallback], [addContextHint]) ->
    notification -> [markAsProcessed].

    ** Files and what they model

    The files are listed in _CoqProject in dependency order.
    - [Prelude] (this file): the character model, the string scanners every
      regular expression of the code is translated into, their lemmas, the
      hint database [jsstr], the tactic [bool_cases] and, in [js_scope],
      the notation [a || b] for the string [||] of the code.
    - [Regex], Module [Regex]: a backtracking matcher in the style of the
      ECMAScript specification (continuations, greedy quantifiers that
      give back one unit at a time, captures), for the one regular
      expression whose backtracking matters (the [From] pattern), with
      the lemmas that reduce a greedy star to a downward search and show
      that the matcher only continues on suffixes of its input.
    - [Sanitizer], Module [Sanitizer]: [AIProcessor.cleanEmail] (ai.js,
      66-76), one definition per [.replace] stage ([strip_greeting],
      [strip_on_wrote], [strip_original_message], [strip_sent_from],
      [strip_urls], [collapse_ws], [trim], [take 900]), composed in the
      order of the code.
    - [Replace], Module [Replace]: [String.prototype.replace] with a
      global pattern ([replace_all], the [@@replace] loop of ECMA-262 on
      the matcher of [Regex], with fuel one more than the length), the
      patterns of stages 2, 3, 5 and 6 of [cleanEmail] as [Regex] nodes,
      and [cleanEmail_regex], the chain written with them.
    - [Rules], Module [Rules]: the tag strings, [basicFallback] (354-389)
      and the two cascades of [addContextHint] (115-349) as ordered tables
      of (keywords, summary) rules, [context_rules_ci] and
      [context_rules_plain].
    - [AIPath], Module [AIPath]: [validateTag], [callAI] over a parsed JSON
      reply, the settings cache ([loadSettings]) and [processEmail]
      (28-111, 391-394); the processor's state is the record
      [ai_processor] and every call returns the new processor.
    - [Base64], Module [Base64]: [GmailAPI.decodeBase64] (gmail.js,
      142-153): the alphabet mapping, [atob] (forgiving-base64) and
      [decodeURIComponent] as a UTF-8 decoder to UTF-16 code units, with
      the URL-safe encoder used as its specification.
    - [Extractor], Module [Extractor]: the MIME part tree, the walk
      [extractEmailBody] (101-140) in a Section over the decoder, and
      both branches of [stripHtml] (155-171): the [catch] branch
      [stripHtml], which runs in the service worker, and the [try] branch
      [stripHtml_dom], whose DOM parsing is the parameter [textContent].
    - [Gmail], Module [Gmail]: [getUnreadEmails] (the slice to ten and the
      filtering of failed fetches), [getMessageDetails] and
      [parseMessage] (gmail.js, 6-99) with [getHeader] and the [From]
      pattern run by [Regex]; the HTTP answers are inputs.
    - [Dedup], Module [JsSet]: the JavaScript [Set] of processed ids as a
      duplicate-free list in insertion order, refining a stdpp [gset].
    - [Notifier], Module [Notifier]: the service worker
      (src/unnamed/part_001) and the popup's two actions that change state
      (src/popup.js): a [world] record (worker fields, AI processor,
      [chrome.storage.local], the alarm, the notifications shown), one
      definition per method, [handle] for every listener, the relations
      [step] and [reachable], and [run] on a list of events.  Everything
      the environment decides (tokens, the Gmail API's answers, the
      storage read, the model's reply, the clock) is an input,
      [check_env]; a check runs them through [Gmail.getUnreadEmails].  Each event
      is handled to completion before the next; [Interleave] refines this.
    - [Worker002], Module [Worker002]: the older worker
      (src/unnamed/part_002) on the same storage and environment, with
      its own [world2] that also counts the registered [gmail-poll]
      listeners ([v_listeners]): one definition per method
      ([loadStoredData2], [authenticate2], [checkForNewEmails2],
      [processNewEmail2], [markMessageAsProcessed2], [startPolling2],
      [initialize2]), [handle2] for its listeners, [step2] and
      [reachable2].  A check returns its uncaught rejection, which
      decides whether [startPolling] reaches its [addListener].
    - [Interleave], Module [Interleave]: the checks of part_001 as
      threads suspended at an [await] ([pc]): [resume] runs a check from
      one await point to the next, [tstep] resumes any one of the running
      checks (every order in which the awaited promises settle) and
      [cstep] also lets an alarm tick start a new check, a popup message
      ([getStatus], [clearProcessed], save, stop) run between two awaits,
      and a worker restart end every running check.  An executable
      scheduler ([schedule]) is proved to follow [tstep].
    - [Popup], Module [Popup]: popup.js: the text of its elements
      ([view]), one function per handler ([loadStatus], [loadSettings],
      the toggle, clear and save buttons and the save button's timer),
      and [ui_handle], which runs a popup event together with the worker
      event it sends ([Notifier.handle]) and reads the worker's reply as
      the response object.

    ** What the theorems show

    - Sanitizer: the output has at most 900 code units and never more than
      the input; no [http://] or [https://] match is left; the whitespace
      is in normal form; and the spec examples where the code departs
      from spec.md (signatures kept, not idempotent, "Sent from my" kept
      when not last, phone numbers and upper-case URLs kept).
    - Replace: [cleanEmail] equals the chain of its [.replace] calls:
      each scanner of stages 2, 3, 5 and 6 is the ECMAScript [replace] of
      its regular expression on the backtracking matcher (equivalence
      with a reference definition); any fuel above the length gives the
      same result.
    - Rules: the rule classifier's tag is never "Urgent" and its summary
      has at least ten units; "hr" matches inside words; the two cascades
      of [addContextHint] equal one table of rules.
    - AIPath: every result has one of the four labels and a summary of at
      least ten units; the behaviour without a key and after a failed
      call; the settings are cached forever; the summary is unbounded.
    - Base64: [atob] after the alphabet mapping inverts the URL-safe
      encoding of every byte string; [decodeBase64] recovers every text of
      the model from the encoding of its UTF-8 bytes, padded or not.
    - Gmail: at most ten e-mails per check; the [From] pattern splits
      [name <local@domain>] back into its parts, gives up on a header
      without [@], and keeps a trailing comment in the address.
    - Extractor: the body comes from a text leaf; plain beats HTML; an
      undecodable plain part hides the HTML one; no tag survives
      [stripHtml], which leaves entities; its tag scanner is the
      [replace] of [/<[^>]*>/g]; in the DOM branch the replace of
      [/\n\s*\n/g] is dead code.
    - Dedup: [new Set(array)] refines [list_to_set]; storing and reloading
      is the identity.
    - Notifier: the invariant of the worker (no duplicates in the set,
      every processed id stored, interval at least 60 s) holds in every
      reachable world; no message is notified twice while the set is
      kept; no event creates more than ten notifications; the end-to-end
      example of spec.md, from the API's base64 body to the notification; a restart re-notifies and
      stops polling; a 401 only refreshes the token; the popup never shows
      a last-check time.
    - Worker002: the invariant of the older worker (set without
      duplicates and stored, at most one listener and only while running,
      the 30-second alarm exists while running) in every reachable world;
      no message is notified twice while the set is kept; a message whose
      processing fails is still marked processed, so it is never
      notified; once the first check of [startPolling] rejects, no event
      short of a restart makes the worker notify again, though it reports
      itself running.
    - Interleave: a check run alone reaches exactly the world of
      [Notifier.checkForNewEmails] (refinement of the event model); every
      interleaving of running checks terminates, within 33 resumptions
      per check; the invariant of [Notifier] holds along every
      interleaving, alarm ticks, popup messages and restarts included;
      two overlapping checks notify the same message twice (no in-flight
      guard); and a check running when the user stops polling still
      notifies.
    - Popup: after a toggle click the popup shows the worker's state;
      opening it shows the worker's state and count and always "Never"
      as the last check; two quick clicks on save leave "Saved!" for
      good; against part_002's worker the toggle button does nothing.

    ** Bounds and fuel

    Every definition but two is structurally recursive (on the string,
    the list, the part tree or the event list), so every function is
    total.  The only numeric bounds are the code's own: the
    900-unit cap of [cleanEmail], the 60-second floor of the polling
    interval, the 10-unit minimum of a summary and the ten messages of a
    check.  The fuel of [Gmail.digits_go] is the number itself plus one,
    more than the number of its decimal digits; the fuel of
    [Replace.replace_all] is the length of the string plus one, since
    each round consumes at least one unit, and [replace_go_fuel] shows
    any larger fuel gives the same string.  The
    interleaving relation is not a function: its termination is the
    well-foundedness of [tstep] by the measure [measure_pc] (three per
    e-mail still to process, plus the awaits around the loop), and the
    33 steps per check are [3 * 10 + 3] for a check that still has to
    request its token and then fetches ten e-mails.

    ** Not modelled

    - The HTTP requests themselves (URLs, headers, [fetch]): their
      answers are inputs of [check_env].
    - Concurrency beyond checks: [Interleave] interleaves checks with
      each other, with alarm ticks, with the popup's messages and with
      restarts; starting polling from the popup (which awaits the token
      before its first check) and [initialize] are not interleaved with
      a running check, and the token refresh of a [catch]
      ([removeCachedAuthToken] then [getAuthToken]) is one step.  Inside [Worker002] each event runs to
      completion, and the listeners' calls of one alarm run one after
      the other.
    - The HTML parser behind [innerHTML]/[textContent]: a parameter of
      [stripHtml_dom]; in the service worker [document] does not exist
      and the [catch] branch runs.
    - Stages 1 and 4 of [cleanEmail] against the matcher: their patterns
      use [^], [$], an alternation and a lazy quantifier, which [Regex]
      does not provide; their scanners are checked on the spec's
      examples.
    - The popup's styling ([saveBtn.style.background]) and the locale
      format of [toLocaleString] (a parameter); [confirm]'s answer is an
      input.
    - [stop] of part_002 (lines 166-170): never called.
    - part_000 (the privacy policy) and README.md: no code.
    - The prompt text [AI_PROMPT] and the request sent to the model: the
      model's reply is an input.
    - Code units of 256 and above: outside the character model.
*)

From Stdlib Require Import Ascii String List Bool Arith Lia.
Import ListNotations.

Declare Scope js_scope.
Delimit Scope js_scope with js.

(** ** Characters *)

Definition LF : ascii := "010"%char.
Definition CR : ascii := "013"%char.
Definition SP : ascii := " "%char.

(** [\s] of ECMAScript (WhiteSpace and LineTerminator) below U+0100. *)
Definition is_ws (c : ascii) : bool :=
  let n := nat_of_ascii c in
  ((9 <=? n) && (n <=? 13)) || (n =? 32) || (n =? 160).

(** The line terminators that [.] does not match, below U+0100. *)
Definition is_lt (c : ascii) : bool := Ascii.eqb c LF || Ascii.eqb c CR.

(** [String.prototype.toLowerCase] on one code unit below U+0100. *)
Definition lower_char (c : ascii) : ascii :=
  let n := nat_of_ascii c in
  if ((65 <=? n) && (n <=? 90)) || ((192 <=? n) && (n <=? 222) && negb (n =? 215))
  then ascii_of_nat (n + 32) else c.

Fixpoint lower (s : string) : string :=
  match s with
  | EmptyString => EmptyString
  | String c s' => String (lower_char c) (lower s')
  end.

(** ** Scanners *)

(** [p] occurs at the start of [s], comparing code units case-insensitively
    (the [i] flag with a lower-case ASCII pattern [p]). *)
Fixpoint prefix_ci (p s : string) : bool :=
  match p, s with
  | EmptyString, _ => true
  | String _ _, EmptyString => false
  | String a p', String b s' => Ascii.eqb a (lower_char b) && prefix_ci p' s'
  end.

(** [s.includes(p)]: [p] occurs somewhere in [s]. *)
Fixpoint includes (s p : string) : bool :=
  prefix p s ||
  match s with
  | EmptyString => false
  | String _ s' => includes s' p
  end.

(** [/k1|k2|.../.test(s)] for literal alternatives. *)
Definition test_any (ks : list string) (s : string) : bool :=
  existsb (includes s) ks.

(** [/k1|k2|.../i.test(s)]: with lower-case ASCII alternatives, the [i]
    flag is a search in the lower-cased text (see the character model). *)
Definition test_ci (ks : list string) (s : string) : bool :=
  test_any ks (lower s).

(** [s.replace(/R[\s\S]*/g, '')]: keep [s] up to the leftmost suffix on
    which [P] holds. *)
Fixpoint cut_at (P : string -> bool) (s : string) : string :=
  if P s then EmptyString
  else match s with
       | EmptyString => EmptyString
       | String c s' => String c (cut_at P s')
       end.

(** The suffix of [s] after [n] code units, and its first [n] units
    ([s.slice(0, n)]). *)
Fixpoint drop (n : nat) (s : string) : string :=
  match n, s with
  | 0, _ => s
  | S _, EmptyString => EmptyString
  | S n', String _ s' => drop n' s'
  end.

Fixpoint take (n : nat) (s : string) : string :=
  match n, s with
  | 0, _ => EmptyString
  | S _, EmptyString => EmptyString
  | S n', String c s' => String c (take n' s')
  end.

(** No line terminator in [s] ([.*] can cover it). *)
Fixpoint no_lt (s : string) : bool :=
  match s with
  | EmptyString => true
  | String c s' => negb (is_lt c) && no_lt s'
  end.

(** [P] holds on every suffix of [s] (the empty one included): no match
    of the regular expression that [P] decides starts anywhere in [s]. *)
Fixpoint all_suffixes (P : string -> bool) (s : string) : bool :=
  P s && match s with
         | EmptyString => true
         | String _ s' => all_suffixes P s'
         end.

(** Lines joined by LF, to write multi-line inputs in examples. *)
Fixpoint lines (ls : list string) : string :=
  match ls with
  | [] => EmptyString
  | [l] => l
  | l :: ls' => (l ++ String LF (lines ls'))%string
  end.

(** The number of whitespace-delimited words of [s], the measure spec.md
    uses for its bounds (35 words for a summary). *)
Fixpoint word_count_go (in_word : bool) (s : string) : nat :=
  match s with
  | EmptyString => 0
  | String c s' =>
      if is_ws c then word_count_go false s'
      else if in_word then word_count_go true s'
      else S (word_count_go true s')
  end.

Definition word_count (s : string) : nat := word_count_go false s.

(** [w] repeated [n] times, separated by spaces, to build long inputs. *)
Fixpoint repeat_words (n : nat) (w : string) : string :=
  match n with
  | 0 => EmptyString
  | S n' => (w ++ String SP (repeat_words n' w))%string
  end.

(** Every code unit of [s] satisfies [f]. *)
(** [a || b] on strings: the empty string is the only falsy one. *)
Definition str_or (a b : string) : string :=
  match a with EmptyString => b | _ => a end.

(** [a || b] as the code writes it, on strings. *)
Infix "||" := str_or : js_scope.

Fixpoint all_chars (f : ascii -> bool) (s : string) : bool :=
  match s with
  | EmptyString => true
  | String c s' => f c && all_chars f s'
  end.

(** ** Automation *)

Create HintDb jsstr discriminated.
Create Rewrite HintDb jsstr.

(** Split every boolean [&&], [||] and [negb] hypothesis or goal into its
    components, the common first step of the scanner proofs. *)
Ltac bool_cases :=
  repeat match goal with
  | H : (_ && _)%bool = true |- _ => apply andb_prop in H; destruct H
  | H : (_ || _)%bool = false |- _ => apply orb_false_elim in H; destruct H
  | H : negb _ = true |- _ => apply negb_true_iff in H
  | H : negb _ = false |- _ => apply negb_false_iff in H
  | |- (_ && _)%bool = true => apply andb_true_intro; split
  | |- (_ || _)%bool = false => apply orb_false_intro
  end.

(** ** Lemmas shared by the components *)

Lemma length_append (s t : string) : String.length (s ++ t) = String.length s + String.length t.
Proof. induction s as [|c s IH]; simpl; [reflexivity | now rewrite IH]. Qed.

Lemma append_nil_r (s : string) : (s ++ "")%string = s.
Proof. induction s as [|c s IH]; simpl; [reflexivity | now rewrite IH]. Qed.

Lemma append_assoc (s t u : string) : ((s ++ t) ++ u)%string = (s ++ (t ++ u))%string.
Proof. induction s as [|c s IH]; simpl; [reflexivity | now rewrite IH]. Qed.

Lemma lower_length (s : string) : String.length (lower s) = String.length s.
Proof. induction s as [|c s IH]; simpl; [reflexivity | now rewrite IH]. Qed.

Lemma lower_append (s t : string) : lower (s ++ t) = (lower s ++ lower t)%string.
Proof. induction s as [|c s IH]; simpl; [reflexivity | now rewrite IH]. Qed.

Lemma cut_at_length (P : string -> bool) (s : string) : String.length (cut_at P s) <= String.length s.
Proof.
  induction s as [|c s IH]; simpl; destruct (P _); simpl; lia.
Qed.

(** [cut_at] keeps a prefix of its input. *)
Lemma cut_at_prefix (P : string -> bool) (s : string) :
  exists r, s = (cut_at P s ++ r)%string.
Proof.
  induction s as [|c s [r IH]]; simpl; destruct (P _) eqn:E.
  - now exists EmptyString.
  - now exists EmptyString.
  - now exists (String c s).
  - exists r. simpl. now rewrite <- IH.
Qed.

(** Where [P] holds nowhere, [cut_at] keeps the whole string. *)
Lemma cut_at_none (P : string -> bool) (s : string) :
  (forall k, P (drop k s) = false) -> cut_at P s = s.
Proof.
  induction s as [|c s IH]; intros H; pose proof (H 0) as H0; simpl in *.
  - now rewrite H0.
  - rewrite H0. f_equal. apply IH. intros k. exact (H (S k)).
Qed.

Lemma take_length (n : nat) (s : string) : String.length (take n s) = Nat.min n (String.length s).
Proof.
  revert s; induction n as [|n IH]; intros [|c s]; simpl; auto.
Qed.

Lemma take_length_le (n : nat) (s : string) : String.length (take n s) <= String.length s.
Proof. rewrite take_length. lia. Qed.

Lemma take_all (n : nat) (s : string) : String.length s <= n -> take n s = s.
Proof.
  revert s; induction n as [|n IH]; intros [|c s] H; simpl in *; auto; try lia.
  f_equal. apply IH. lia.
Qed.

Lemma all_chars_append (f : ascii -> bool) (s t : string) :
  all_chars f (s ++ t) = all_chars f s && all_chars f t.
Proof.
  induction s as [|c s IH]; simpl; [reflexivity | now rewrite IH, andb_assoc].
Qed.

Lemma all_chars_impl (f g : ascii -> bool) (s : string) :
  (forall x, f x = true -> g x = true) -> all_chars f s = true -> all_chars g s = true.
Proof.
  intros Hfg. induction s as [|c s IH]; simpl; [reflexivity|].
  intros H. apply andb_prop in H as [Hc H]. now rewrite (Hfg c Hc), IH.
Qed.

Lemma all_chars_take (f : ascii -> bool) (n : nat) (s : string) :
  all_chars f s = true -> all_chars f (take n s) = true.
Proof.
  revert s; induction n as [|n IH]; intros [|c s] H; simpl in *; auto.
  bool_cases; auto.
Qed.


(** [prefix p t] (Stdlib) holds exactly when [t] extends [p]. *)
Lemma prefix_inv (p t : string) : prefix p t = true -> exists r, t = (p ++ r)%string.
Proof.
  revert t; induction p as [|a p IH]; intros [|b t] H; simpl in H.
  - now exists EmptyString.
  - now exists (String b t).
  - discriminate.
  - destruct (ascii_dec a b) as [->|]; [|discriminate].
    destruct (IH t H) as [r ->]. now exists r.
Qed.

Lemma prefix_app (p r : string) : prefix p (p ++ r) = true.
Proof.
  induction p as [|a p IH]; simpl; [now destruct r|].
  destruct (ascii_dec a a); [exact IH | congruence].
Qed.

Lemma prefix_ext (p t r : string) : prefix p t = true -> prefix p (t ++ r) = true.
Proof.
  intros H. destruct (prefix_inv p t H) as [u ->].
  rewrite append_assoc. apply prefix_app.
Qed.

Lemma prefix_cons (a : ascii) (p t : string) :
  prefix (String a p) (String a t) = prefix p t.
Proof. simpl. destruct (ascii_dec a a); congruence. Qed.

Lemma take_prefix (n : nat) (s : string) : exists r, s = (take n s ++ r)%string.
Proof.
  revert s; induction n as [|n IH]; intros [|c s]; simpl.
  - now exists EmptyString.
  - now exists (String c s).
  - now exists EmptyString.
  - destruct (IH s) as [r Hr]. exists r. now rewrite <- Hr.
Qed.

Lemma all_suffixes_drop (P : string -> bool) (s : string) (k : nat) :
  all_suffixes P s = true -> P (drop k s) = true.
Proof.
  revert k; induction s as [|c s IH]; intros [|k] H; simpl in *;
    bool_cases; auto.
Qed.

Lemma prefix_nil (t : string) : prefix "" t = true.
Proof. now destruct t. Qed.

Lemma prefix_cons_inv (a c : ascii) (w t : string) :
  prefix (String a w) (String c t) = true -> a = c /\ prefix w t = true.
Proof. simpl. destruct (ascii_dec a c); [auto | discriminate]. Qed.

Lemma drop_app (p r : string) : drop (String.length p) (p ++ r) = r.
Proof. induction p as [|a p IH]; simpl; [now destruct r | exact IH]. Qed.

Lemma take_app (p r : string) : take (String.length p) (p ++ r) = p.
Proof. induction p as [|a p IH]; simpl; [reflexivity | now rewrite IH]. Qed.

Lemma take_suffix_len (u v : string) :
  take (String.length (u ++ v) - String.length v) (u ++ v) = u.
Proof. rewrite length_append, Nat.add_sub. apply take_app. Qed.

Lemma drop_drop (i j : nat) (s : string) : drop j (drop i s) = drop (i + j) s.
Proof. revert s; induction i as [|i IH]; intros [|a s]; simpl; auto. now destruct j. Qed.

Lemma includes_cons (a : ascii) (s p : string) :
  includes (String a s) p = prefix p (String a s) || includes s p.
Proof. reflexivity. Qed.

Lemma includes_app_l (s t p : string) : includes s p = true -> includes (s ++ t) p = true.
Proof.
  induction s as [|a s IH]; intros H.
  - destruct p; [destruct t; reflexivity | discriminate].
  - rewrite includes_cons in H. change (String a s ++ t)%string with (String a (s ++ t)).
    rewrite includes_cons. apply orb_true_iff in H as [H|H]; apply orb_true_iff; [left | right; auto].
    change (String a (s ++ t)) with (String a s ++ t)%string. now apply prefix_ext.
Qed.

Lemma all_chars_drop (f : ascii -> bool) (n : nat) (s : string) :
  all_chars f s = true -> all_chars f (drop n s) = true.
Proof.
  revert s; induction n as [|n IH]; intros [|c s] H; simpl in *; auto.
  apply andb_prop in H as [_ H]. auto.
Qed.

Lemma prefix_ci_ext (p t r : string) : prefix_ci p t = true -> prefix_ci p (t ++ r) = true.
Proof.
  revert t; induction p as [|a p IH]; intros [|b t] H; simpl in *; auto; [discriminate|].
  apply andb_prop in H as [H1 H2]. now rewrite H1, (IH t H2).
Qed.

Lemma lower_char_idem (c : ascii) : lower_char (lower_char c) = lower_char c.
Proof. destruct c as [[] [] [] [] [] [] [] []]; vm_compute; reflexivity. Qed.

Lemma lower_idem (s : string) : lower (lower s) = lower s.
Proof. induction s as [|c s IH]; simpl; [reflexivity | now rewrite lower_char_idem, IH]. Qed.

(** On a lower-cased text the [i] flag changes nothing. *)
Lemma test_ci_lower (ks : list string) (s : string) : test_ci ks (lower s) = test_any ks (lower s).
Proof. unfold test_ci. now rewrite lower_idem. Qed.

#[export] Hint Rewrite length_append lower_length take_length : jsstr.
#[export] Hint Resolve cut_at_length take_length_le all_chars_take all_chars_drop : jsstr.
