(* ===== verification/Regex.v ===== *)
(** * Regex: a backtracking matcher for the regular expressions of the code

    The ECMAScript matcher (ECMA-262, section 22.2.2) is a backtracking
    matcher in continuation-passing style: each node is tried with a
    continuation that matches the rest of the pattern, a greedy quantifier
    tries the longest repetition first and gives back one unit at a time,
    and [?] tries its operand before skipping it.  [m] is that matcher for
    the fragment the code uses: character classes, [?], [*] and [+] on a
    class, capturing and non-capturing groups.  Captures are an
    association list, most recent first; a group that is skipped leaves
    its capture [undefined] ([None]).

    The one fragment of the ECMAScript matcher not reproduced is the
    empty-iteration check of a quantified group: every quantified node of
    the code's patterns consumes at least one unit, where the check never
    applies. *)

From Stdlib Require Import Ascii String List Bool Arith Lia.
From S2P Require Import Prelude.
Import ListNotations.
Local Open Scope string_scope.

Module Regex.

Local Unset Elimination Schemes.
Inductive node : Type :=
| Unit (p : ascii -> bool)            (** one unit of a class *)
| Opt (n : node)                      (** [n?], greedy *)
| Star (p : ascii -> bool)            (** [[...]*], greedy *)
| Plus (p : ascii -> bool)            (** [[...]+], greedy *)
| Group (i : nat) (ns : list node)    (** [(...)], capture number [i] *)
| Seq (ns : list node).               (** [(?:...)] *)
Local Set Elimination Schemes.

(** Induction on patterns, through the lists of groups. *)
Section node_ind.
Variable P : node -> Prop.
Hypothesis P_unit : forall p, P (Unit p).
Hypothesis P_opt : forall n, P n -> P (Opt n).
Hypothesis P_star : forall p, P (Star p).
Hypothesis P_plus : forall p, P (Plus p).
Hypothesis P_group : forall i ns, Forall P ns -> P (Group i ns).
Hypothesis P_seq : forall ns, Forall P ns -> P (Seq ns).

Fixpoint node_ind (n : node) : P n :=
  match n with
  | Unit p => P_unit p
  | Opt n' => P_opt n' (node_ind n')
  | Star p => P_star p
  | Plus p => P_plus p
  | Group i ns =>
      P_group i ns ((fix go (l : list node) : Forall P l :=
                       match l with
                       | [] => Forall_nil P
                       | x :: l' => Forall_cons x (node_ind x) (go l')
                       end) ns)
  | Seq ns =>
      P_seq ns ((fix go (l : list node) : Forall P l :=
                   match l with
                   | [] => Forall_nil P
                   | x :: l' => Forall_cons x (node_ind x) (go l')
                   end) ns)
  end.
End node_ind.

Definition caps := list (nat * string).

Fixpoint cap_get (i : nat) (c : caps) : option string :=
  match c with
  | [] => None
  | (j, v) :: c' => if Nat.eqb i j then Some v else cap_get i c'
  end.

Section Matcher.
Variable R : Type.

Definition cont := string -> caps -> option R.

(** [[...]*]: take one more unit if the class allows it, and give it back
    when the rest fails. *)
Fixpoint star (p : ascii -> bool) (s : string) (c : caps) (k : cont) : option R :=
  match s with
  | String a s' =>
      if p a then
        match star p s' c k with
        | Some r => Some r
        | None => k s c
        end
      else k s c
  | EmptyString => k s c
  end.

(** A sequence of nodes, given the matcher of one node. *)
Definition seq_with (m : node -> string -> caps -> cont -> option R) :=
  fix ms (ns : list node) (s : string) (c : caps) (k : cont) : option R :=
    match ns with
    | [] => k s c
    | n :: ns' => m n s c (fun s1 c1 => ms ns' s1 c1 k)
    end.

Fixpoint m (n : node) (s : string) (c : caps) (k : cont) {struct n} : option R :=
  match n with
  | Unit p =>
      match s with
      | String a s' => if p a then k s' c else None
      | EmptyString => None
      end
  | Opt n' =>
      match m n' s c k with
      | Some r => Some r
      | None => k s c
      end
  | Star p => star p s c k
  | Plus p =>
      match s with
      | String a s' => if p a then star p s' c k else None
      | EmptyString => None
      end
  | Group i ns =>
      seq_with m ns s c
        (fun s' c' => k s' ((i, take (String.length s - String.length s') s) :: c'))
  | Seq ns => seq_with m ns s c k
  end.

Definition mseq : list node -> string -> caps -> cont -> option R := seq_with m.

End Matcher.

Arguments star {R}.
Arguments m {R}.
Arguments mseq {R}.

(** [s.match(/^.../)]: the captures of the first match at the start. *)
Definition exec_anchored (ns : list node) (s : string) : option caps :=
  mseq ns s [] (fun _ c => Some c).

(** ** The greedy star as a downward search *)

(** [search f n]: the first of [f n], [f (n-1)], ..., [f 0] that succeeds. *)
Fixpoint search {A : Type} (f : nat -> option A) (n : nat) : option A :=
  match n with
  | 0 => f 0
  | S n' => match f (S n') with Some r => Some r | None => search f n' end
  end.

(** The number of units at the head of [s] in the class [p]. *)
Fixpoint span (p : ascii -> bool) (s : string) : nat :=
  match s with
  | String a s' => if p a then S (span p s') else 0
  | EmptyString => 0
  end.

Lemma search_shift {A : Type} (f : nat -> option A) (n : nat) :
  search f (S n) = match search (fun j => f (S j)) n with Some r => Some r | None => f 0 end.
Proof.
  induction n as [|n IH]; simpl; [reflexivity|].
  simpl in IH. destruct (f (S (S n))); [reflexivity|]. exact IH.
Qed.

Lemma star_search {R : Type} (p : ascii -> bool) (s : string) (c : caps) (k : cont R) :
  star p s c k = search (fun j => k (drop j s) c) (span p s).
Proof.
  induction s as [|a s IH]; simpl; [reflexivity|].
  destruct (p a); [|reflexivity]. rewrite search_shift, IH. reflexivity.
Qed.

Lemma search_at {A : Type} (f : nat -> option A) (n j0 : nat) (r : A) :
  j0 <= n -> f j0 = Some r -> (forall j, j0 < j <= n -> f j = None) -> search f n = Some r.
Proof.
  induction n as [|n IH]; intros Hj Hf Hn.
  - replace j0 with 0 in Hf by lia. exact Hf.
  - simpl. destruct (Nat.eq_dec j0 (S n)) as [<-|Hne]; [now rewrite Hf|].
    rewrite (Hn (S n)) by lia. apply IH; [lia | exact Hf | intros j Hj'; apply Hn; lia].
Qed.

Lemma span_le (p : ascii -> bool) (s : string) : span p s <= String.length s.
Proof. induction s as [|a s IH]; simpl; [lia | destruct (p a); simpl; lia]. Qed.

(** The run of a class over a string all in the class, followed by a unit
    outside it. *)
Lemma span_app (p : ascii -> bool) (u : string) (a : ascii) (v : string) :
  all_chars p u = true -> p a = false -> span p (u ++ String a v) = String.length u.
Proof.
  intros Hu Ha. induction u as [|b u IH]; simpl in *; [now rewrite Ha|].
  apply andb_prop in Hu as [Hb Hu]. rewrite Hb, IH by exact Hu. reflexivity.
Qed.

Lemma span_all (p : ascii -> bool) (u : string) :
  all_chars p u = true -> span p u = String.length u.
Proof.
  induction u as [|b u IH]; simpl; [reflexivity|]. intros H.
  apply andb_prop in H as [Hb Hu]. rewrite Hb, IH by exact Hu. reflexivity.
Qed.

(** A greedy star over a run that ends at a unit outside the class goes
    straight to the continuation after the whole run, when it succeeds. *)
Lemma star_longest {R : Type} (p : ascii -> bool) (u : string) (a : ascii) (v : string)
    (c : caps) (k : cont R) (r : R) :
  all_chars p u = true -> p a = false -> k (String a v) c = Some r ->
  star p (u ++ String a v) c k = Some r.
Proof.
  intros Hu Ha Hk. rewrite star_search, span_app by assumption.
  apply (search_at _ _ (String.length u)); [lia | now rewrite drop_app | intros; lia].
Qed.

Lemma mseq_cons {R : Type} (n : node) (ns : list node) (s : string) (c : caps) (k : cont R) :
  mseq (n :: ns) s c k = m n s c (fun s1 c1 => mseq ns s1 c1 k).
Proof. reflexivity. Qed.

Lemma mseq_nil {R : Type} (s : string) (c : caps) (k : cont R) : mseq [] s c k = k s c.
Proof. reflexivity. Qed.

Lemma m_group {R : Type} (i : nat) (ns : list node) (s : string) (c : caps) (k : cont R) :
  m (Group i ns) s c k =
  mseq ns s c (fun s' c' => k s' ((i, take (String.length s - String.length s') s) :: c')).
Proof. reflexivity. Qed.

Lemma m_seq {R : Type} (ns : list node) (s : string) (c : caps) (k : cont R) :
  m (Seq ns) s c k = mseq ns s c k.
Proof. reflexivity. Qed.

Lemma m_unit_hit {R : Type} (p : ascii -> bool) (a : ascii) (s : string) (c : caps) (k : cont R) :
  p a = true -> m (Unit p) (String a s) c k = k s c.
Proof. intros H. simpl. now rewrite H. Qed.

(** A unit that cannot match: the string is empty or its head is not in
    the class. *)
Definition head_not (p : ascii -> bool) (s : string) : Prop :=
  match s with String a _ => p a = false | EmptyString => True end.

Lemma m_unit_miss {R : Type} (p : ascii -> bool) (s : string) (c : caps) (k : cont R) :
  head_not p s -> m (Unit p) s c k = None.
Proof. destruct s as [|a s]; simpl; [reflexivity|]. intros H. now rewrite H. Qed.

Lemma m_opt_skip {R : Type} (p : ascii -> bool) (s : string) (c : caps) (k : cont R) :
  head_not p s -> m (Opt (Unit p)) s c k = k s c.
Proof. intros H. cbn [m]. fold (m (Unit p) s c k). now rewrite m_unit_miss. Qed.

Lemma m_opt_hit {R : Type} (n : node) (s : string) (c : caps) (k : cont R) (r : R) :
  m n s c k = Some r -> m (Opt n) s c k = Some r.
Proof. intros H. cbn [m]. fold (m n s c k). now rewrite H. Qed.

Lemma m_plus {R : Type} (p : ascii -> bool) (a : ascii) (s : string) (c : caps) (k : cont R) :
  p a = true -> m (Plus p) (String a s) c k = star p s c k.
Proof. intros H. simpl. now rewrite H. Qed.

Lemma m_star {R : Type} (p : ascii -> bool) (s : string) (c : caps) (k : cont R) :
  m (Star p) s c k = star p s c k.
Proof. reflexivity. Qed.

Lemma search_some {A : Type} (f : nat -> option A) (n : nat) (r : A) :
  search f n = Some r -> exists j, j <= n /\ f j = Some r.
Proof.
  induction n as [|n IH]; simpl; intros H; [now exists 0|].
  destruct (f (S n)) eqn:E; [injection H as <-; now exists (S n)|].
  destruct (IH H) as (j & Hj & Hf). exists j. split; [lia | exact Hf].
Qed.

Lemma search_none {A : Type} (f : nat -> option A) (n : nat) :
  (forall j, j <= n -> f j = None) -> search f n = None.
Proof.
  induction n as [|n IH]; simpl; intros H; [now apply H|].
  rewrite H by lia. apply IH. intros j Hj. apply H. lia.
Qed.

(** The matcher only ever continues on a suffix of its input. *)
Definition continues_on_suffix (n : node) : Prop :=
  forall (R : Type) s c (k : cont R) r,
    m n s c k = Some r -> exists j c', k (drop j s) c' = Some r.

Lemma mseq_suffix (ns : list node) :
  Forall continues_on_suffix ns ->
  forall (R : Type) s c (k : cont R) r,
    mseq ns s c k = Some r -> exists j c', k (drop j s) c' = Some r.
Proof.
  induction 1 as [|n ns Hn _ IH]; intros R s c k r H; [now exists 0, c|].
  rewrite mseq_cons in H. destruct (Hn _ _ _ _ _ H) as (j1 & c1 & H1).
  destruct (IH _ _ _ _ _ H1) as (j2 & c2 & H2). exists (j1 + j2), c2.
  now rewrite <- drop_drop.
Qed.

Lemma star_suffix {R : Type} (p : ascii -> bool) (s : string) (c : caps) (k : cont R) (r : R) :
  star p s c k = Some r -> exists j, k (drop j s) c = Some r.
Proof.
  rewrite star_search. intros H. destruct (search_some _ _ _ H) as (j & _ & Hj). now exists j.
Qed.

Lemma m_suffix (n : node) : continues_on_suffix n.
Proof.
  induction n as [p|n IH|p|p|i ns IH|ns IH] using node_ind; intros R s c k r H.
  - destruct s as [|a s]; [discriminate|]. simpl in H. destruct (p a); [|discriminate].
    now exists 1, c.
  - cbn [m] in H. destruct (m n s c k) eqn:E; [injection H as <-; now apply IH in E|].
    now exists 0, c.
  - apply star_suffix in H as [j Hj]. now exists j, c.
  - destruct s as [|a s]; [discriminate|]. simpl in H. destruct (p a); [|discriminate].
    apply star_suffix in H as [j Hj]. now exists (S j), c.
  - rewrite m_group in H. destruct (mseq_suffix ns IH _ _ _ _ _ H) as (j & c' & Hj).
    now exists j, ((i, take (String.length s - String.length (drop j s)) s) :: c').
  - rewrite m_seq in H. exact (mseq_suffix ns IH _ _ _ _ _ H).
Qed.

(** What a unit that matched consumed. *)
Lemma m_unit_inv {R : Type} (p : ascii -> bool) (s : string) (c : caps) (k : cont R) (r : R) :
  m (Unit p) s c k = Some r -> exists a t, s = String a t /\ p a = true /\ k t c = Some r.
Proof.
  destruct s as [|a t]; [discriminate|]. simpl. destruct (p a) eqn:P; [|discriminate].
  intros H. now exists a, t.
Qed.

(** An optional node whose body fails is skipped. *)
Lemma m_opt_fail {R : Type} (n : node) (s : string) (c : caps) (k : cont R) :
  m n s c k = None -> m (Opt n) s c k = k s c.
Proof. intros H. cbn [m]. fold (m n s c k). now rewrite H. Qed.

(** A star over a string all in its class tries the whole string first. *)
Lemma star_all {R : Type} (p : ascii -> bool) (u : string) (c : caps) (k : cont R) (r : R) :
  all_chars p u = true -> k EmptyString c = Some r -> star p u c k = Some r.
Proof.
  induction u as [|a u IH]; simpl; [auto|]. intros H Hk.
  apply andb_prop in H as [-> H]. now rewrite IH.
Qed.

Lemma head_not_all (p : ascii -> bool) (s : string) :
  all_chars (fun x => negb (p x)) s = true -> head_not p s.
Proof.
  destruct s as [|a s]; simpl; [trivial|]. intros H.
  apply andb_prop in H as [H _]. now apply negb_true_iff.
Qed.

Create Rewrite HintDb regex.
#[export] Hint Rewrite @mseq_cons @mseq_nil @m_group @m_seq : regex.

End Regex.
