(* ===== verification/Sanitizer.v ===== *)
(** * Sanitizer: [AIProcessor.cleanEmail] (src/ai.js, lines 66-76)

    [cleanEmail] is a chain of eight string operations.  Each stage is one
    definition below, named after what it removes, and [cleanEmail]
    composes them in the order of the code.  The theorems give the bound
    of the output (900 code units), that no stage lengthens the text, that
    no lower-case [http(s)://] URL survives, the whitespace normal form of
    the output, and the behaviour on the examples of spec.md, including
    where the code departs from it. *)

From Stdlib Require Import Ascii String List Bool Arith Lia.
From S2P Require Import Prelude.
Import ListNotations.
Local Open Scope string_scope.

Module Sanitizer.

(** ** Stage 1: [.replace(/^(hi|hello|dear).*?\n/gi, '')]

    Without the [m] flag, [^] only matches at index 0, so the global flag
    adds nothing.  [.*?] cannot cross LF or CR, so the match ends at the
    first line terminator of the text, and only if it is an LF. *)
Definition greeting_words : list string := ["hi"; "hello"; "dear"].

Fixpoint after_first_lf (s : string) : option string :=
  match s with
  | EmptyString => None
  | String c s' =>
      if Ascii.eqb c LF then Some s'
      else if Ascii.eqb c CR then None
      else after_first_lf s'
  end.

Definition strip_greeting (s : string) : string :=
  if existsb (fun w => prefix_ci w s) greeting_words then
    match after_first_lf s with
    | Some rest => rest
    | None => s
    end
  else s.

(** ** Stage 2: [.replace(/on .* wrote:[\s\S]*/gi, '')]

    A match starts at the leftmost ["on "] followed, on the same line, by
    [" wrote:"], space included (the greedy [.*] backtracks to any later
    occurrence). *)
Fixpoint wrote_on_line (s : string) : bool :=
  prefix_ci " wrote:" s ||
  match s with
  | EmptyString => false
  | String c s' => negb (is_lt c) && wrote_on_line s'
  end.

Definition on_wrote_at (s : string) : bool :=
  prefix_ci "on " s && wrote_on_line (drop 3 s).

Definition strip_on_wrote : string -> string := cut_at on_wrote_at.

(** ** Stage 3: [.replace(/-----original message-----[\s\S]*/gi, '')] *)
Definition original_message_at (s : string) : bool :=
  prefix_ci "-----original message-----" s.

Definition strip_original_message : string -> string := cut_at original_message_at.

(** ** Stage 4: [.replace(/sent from my.*$/gi, '')]

    Without the [m] flag, [$] is the end of the text: the match needs
    ["sent from my"] with no line terminator after it. *)
Definition sent_from_at (s : string) : bool :=
  prefix_ci "sent from my" s && no_lt (drop 12 s).

Definition strip_sent_from : string -> string := cut_at sent_from_at.

(** ** Stage 5: [.replace(/https?:\/\/\S+/g, '')] (case-sensitive)

    [url_at s] says that a match starts at the head of [s]: the scheme and
    at least one non-whitespace unit.  The greedy [\S+] then runs to the
    next whitespace unit; [strip_urls_go true] is "inside a match". *)
Definition nonws_head (s : string) : bool :=
  match s with
  | EmptyString => false
  | String c _ => negb (is_ws c)
  end.

Definition url_at (s : string) : bool :=
  (prefix "https://" s && nonws_head (drop 8 s)) ||
  (prefix "http://" s && nonws_head (drop 7 s)).

Fixpoint strip_urls_go (in_url : bool) (s : string) : string :=
  match s with
  | EmptyString => EmptyString
  | String c s' =>
      if in_url && negb (is_ws c) then strip_urls_go true s'
      else if url_at s then strip_urls_go true s'
      else String c (strip_urls_go false s')
  end.

Definition strip_urls (s : string) : string := strip_urls_go false s.

(** ** Stage 6: [.replace(/\s+/g, ' ')] *)
Fixpoint collapse_ws_go (in_ws : bool) (s : string) : string :=
  match s with
  | EmptyString => EmptyString
  | String c s' =>
      if is_ws c then
        if in_ws then collapse_ws_go true s' else String SP (collapse_ws_go true s')
      else String c (collapse_ws_go false s')
  end.

Definition collapse_ws (s : string) : string := collapse_ws_go false s.

(** ** Stage 7: [.trim()] (its set of units is that of [\s]) *)
Fixpoint trim_start (s : string) : string :=
  match s with
  | EmptyString => EmptyString
  | String c s' => if is_ws c then trim_start s' else s
  end.

Fixpoint trim_end (s : string) : string :=
  match s with
  | EmptyString => EmptyString
  | String c s' =>
      let r := trim_end s' in
      match r with
      | EmptyString => if is_ws c then EmptyString else String c EmptyString
      | _ => String c r
      end
  end.

Definition trim (s : string) : string := trim_end (trim_start s).

(** ** Stage 8: [.slice(0, 900)] *)
Definition max_clean_length : nat := 900.

(** ** The whole chain *)
Definition cleanEmail (text : string) : string :=
  take max_clean_length
    (trim (collapse_ws (strip_urls (strip_sent_from
       (strip_original_message (strip_on_wrote (strip_greeting text))))))).


(** ** Length: no stage lengthens the text *)

Lemma after_first_lf_length (s r : string) :
  after_first_lf s = Some r -> String.length r < String.length s.
Proof.
  revert r; induction s as [|c s IH]; intros r H; simpl in H; [discriminate|].
  destruct (Ascii.eqb c LF); [injection H as <-; simpl; lia|].
  destruct (Ascii.eqb c CR); [discriminate|]. simpl. specialize (IH r H). lia.
Qed.

Lemma strip_greeting_length (s : string) :
  String.length (strip_greeting s) <= String.length s.
Proof.
  unfold strip_greeting. destruct (existsb _ _); [|lia].
  destruct (after_first_lf s) eqn:E; [apply after_first_lf_length in E|]; lia.
Qed.

Lemma strip_urls_go_length (b : bool) (s : string) :
  String.length (strip_urls_go b s) <= String.length s.
Proof.
  revert b; induction s as [|c s IH]; intros b; simpl; [lia|].
  destruct (b && negb (is_ws c)); [specialize (IH true); lia|].
  destruct (url_at _); simpl; [specialize (IH true) | specialize (IH false)]; lia.
Qed.

Lemma collapse_ws_go_length (b : bool) (s : string) :
  String.length (collapse_ws_go b s) <= String.length s.
Proof.
  revert b; induction s as [|c s IH]; intros b; simpl; [lia|].
  destruct (is_ws c); [destruct b|]; simpl;
    [specialize (IH true) | specialize (IH true) | specialize (IH false)]; lia.
Qed.

Lemma trim_start_length (s : string) : String.length (trim_start s) <= String.length s.
Proof. induction s as [|c s IH]; simpl; [|destruct (is_ws c); simpl]; lia. Qed.

(** [trim_end] keeps a prefix of its input. *)
Lemma trim_end_prefix (s : string) : exists r, s = (trim_end s ++ r)%string.
Proof.
  induction s as [|c s [r IH]]; simpl; [now exists EmptyString|].
  destruct (trim_end s) eqn:E.
  - destruct (is_ws c); [exists (String c s) | exists s]; reflexivity.
  - exists r. rewrite IH at 1. reflexivity.
Qed.

Lemma prefix_length_le (p s : string) :
  (exists r, s = (p ++ r)%string) -> String.length p <= String.length s.
Proof. intros [r ->]. rewrite length_append. lia. Qed.

Lemma trim_length (s : string) : String.length (trim s) <= String.length s.
Proof.
  unfold trim. pose proof (trim_start_length s).
  pose proof (prefix_length_le _ _ (trim_end_prefix (trim_start s))). lia.
Qed.

#[local] Hint Resolve strip_greeting_length strip_urls_go_length collapse_ws_go_length
  trim_length : jsstr.

(** The chain before the final [slice] never lengthens the text. *)
Lemma clean_chain_length (text : string) :
  String.length (trim (collapse_ws (strip_urls (strip_sent_from
    (strip_original_message (strip_on_wrote (strip_greeting text)))))))
  <= String.length text.
Proof.
  unfold strip_sent_from, strip_original_message, strip_on_wrote, strip_urls, collapse_ws.
  eapply Nat.le_trans; [apply trim_length|].
  eapply Nat.le_trans; [apply collapse_ws_go_length|].
  eapply Nat.le_trans; [apply strip_urls_go_length|].
  do 3 (eapply Nat.le_trans; [apply cut_at_length|]).
  apply strip_greeting_length.
Qed.

(** The cleaned text is never longer than the input (the spec's
    invariant that sanitizing is length non-increasing). *)
Theorem cleanEmail_length_le (text : string) :
  String.length (cleanEmail text) <= String.length text.
Proof.
  unfold cleanEmail. eapply Nat.le_trans; [apply take_length_le|].
  apply clean_chain_length.
Qed.

(** The cleaned text has at most 900 code units ([slice(0, 900)]). *)
Theorem cleanEmail_bounded (text : string) :
  String.length (cleanEmail text) <= 900.
Proof. unfold cleanEmail. rewrite take_length. unfold max_clean_length. lia. Qed.

(** ** No URL survives *)

Definition nonws (c : ascii) : bool := negb (is_ws c).

(** No match of [/https?:\/\/\S+/] starts anywhere in [s]. *)
Definition no_url (s : string) : bool := all_suffixes (fun t => negb (url_at t)) s.

Lemma no_url_cons (c : ascii) (s : string) :
  no_url (String c s) = negb (url_at (String c s)) && no_url s.
Proof. reflexivity. Qed.

Lemma url_at_head (c : ascii) (t : string) : url_at (String c t) = true -> c = "h"%char.
Proof.
  intros H. unfold url_at in H. cbn [prefix] in H.
  destruct (ascii_dec "h" c) as [e|e]; [now subst c|]. simpl in H. discriminate.
Qed.

(** A scheme followed by a non-whitespace unit is decided by a
    whitespace-free prefix of the text. *)
Lemma scheme_window (p t : string) :
  prefix p t = true -> nonws_head (drop (String.length p) t) = true ->
  all_chars nonws p = true ->
  exists w, all_chars nonws w = true /\ prefix w t = true /\
    (forall t', prefix w t' = true ->
       prefix p t' = true /\ nonws_head (drop (String.length p) t') = true).
Proof.
  intros H1 H2 H3. destruct (prefix_inv p t H1) as [r ->].
  rewrite drop_app in H2. destruct r as [|x r]; [discriminate|].
  exists (p ++ String x "")%string. split; [|split].
  - rewrite all_chars_append, H3. simpl. unfold nonws. simpl in H2. now rewrite H2.
  - replace (p ++ String x r)%string with ((p ++ String x "") ++ r)%string
      by (rewrite append_assoc; reflexivity).
    apply prefix_app.
  - intros t' Ht'. destruct (prefix_inv _ _ Ht') as [u ->].
    rewrite append_assoc. split; [apply prefix_app|]. now rewrite drop_app.
Qed.

Lemma url_at_window (t : string) :
  url_at t = true ->
  exists w, all_chars nonws w = true /\ prefix w t = true /\
    (forall t', prefix w t' = true -> url_at t' = true).
Proof.
  unfold url_at. intros H. apply orb_true_iff in H as [H|H]; apply andb_prop in H as [H1 H2].
  - destruct (scheme_window "https://" t H1 H2 eq_refl) as (w & Hw1 & Hw2 & Hw3).
    exists w. repeat split; auto. intros t' Ht'. destruct (Hw3 t' Ht') as [A B].
    change (String.length "https://") with 8 in B. now rewrite A, B.
  - destruct (scheme_window "http://" t H1 H2 eq_refl) as (w & Hw1 & Hw2 & Hw3).
    exists w. repeat split; auto. intros t' Ht'. destruct (Hw3 t' Ht') as [A B].
    change (String.length "http://") with 7 in B. rewrite A, B. apply orb_true_r.
Qed.

Lemma url_at_ext (t r : string) : url_at t = true -> url_at (t ++ r) = true.
Proof.
  intros H. destruct (url_at_window t H) as (w & _ & Hw & Hall).
  apply Hall, prefix_ext, Hw.
Qed.

(** If every whitespace-free prefix of [o] is one of [s], a URL at
    [c :: o] is a URL at [c :: s]: the key step for the stages that only
    delete or rewrite around whitespace. *)
Lemma url_at_transfer (c : ascii) (o s : string) :
  (forall w, all_chars nonws w = true -> prefix w o = true -> prefix w s = true) ->
  url_at (String c o) = true -> url_at (String c s) = true.
Proof.
  intros Hpre H. destruct (url_at_window _ H) as (w & Hw & Hp & Hall).
  apply Hall. destruct w as [|a w]; [apply prefix_nil|].
  apply prefix_cons_inv in Hp as [-> Hp]. simpl in Hw. apply andb_prop in Hw as [_ Hw].
  rewrite prefix_cons. exact (Hpre w Hw Hp).
Qed.

Lemma strip_urls_true_head (s : string) :
  match strip_urls_go true s with
  | EmptyString => True
  | String c _ => is_ws c = true
  end.
Proof.
  induction s as [|c s IH]; simpl; [exact I|].
  destruct (is_ws c) eqn:E; simpl; [|exact IH].
  destruct (url_at (String c s)) eqn:U; [|exact E].
  apply url_at_head in U. subst c. discriminate.
Qed.

Lemma strip_urls_nonws_prefix (w : string) : forall s,
  all_chars nonws w = true -> prefix w (strip_urls_go false s) = true -> prefix w s = true.
Proof.
  induction w as [|a w IH]; intros s Hw Hp; [apply prefix_nil|].
  simpl in Hw. apply andb_prop in Hw as [Ha Hw].
  destruct s as [|c s]; simpl strip_urls_go in Hp; [discriminate|].
  destruct (url_at (String c s)).
  - pose proof (strip_urls_true_head s) as Hh.
    destruct (strip_urls_go true s) as [|d t]; [discriminate|].
    apply prefix_cons_inv in Hp as [-> _]. unfold nonws in Ha. now rewrite Hh in Ha.
  - apply prefix_cons_inv in Hp as [-> Hp]. rewrite prefix_cons. auto.
Qed.

Lemma strip_urls_no_url (s : string) : forall b, no_url (strip_urls_go b s) = true.
Proof.
  induction s as [|c s IH]; intros b; [reflexivity|]. simpl.
  destruct (b && negb (is_ws c)); [apply IH|].
  destruct (url_at (String c s)) eqn:U; [apply IH|].
  rewrite no_url_cons, (IH false), andb_true_r. apply negb_true_iff.
  destruct (url_at (String c (strip_urls_go false s))) eqn:U'; [|reflexivity].
  apply (url_at_transfer c (strip_urls_go false s) s) in U'; [congruence|].
  intros w. apply strip_urls_nonws_prefix.
Qed.

Lemma collapse_nonws_prefix (w : string) : forall s,
  all_chars nonws w = true -> prefix w (collapse_ws_go false s) = true -> prefix w s = true.
Proof.
  induction w as [|a w IH]; intros s Hw Hp; [apply prefix_nil|].
  simpl in Hw. apply andb_prop in Hw as [Ha Hw].
  destruct s as [|c s]; simpl in Hp; [discriminate|].
  destruct (is_ws c) eqn:E.
  - apply prefix_cons_inv in Hp as [-> _]. discriminate.
  - apply prefix_cons_inv in Hp as [-> Hp]. rewrite prefix_cons. auto.
Qed.

Lemma collapse_no_url (s : string) : forall b,
  no_url s = true -> no_url (collapse_ws_go b s) = true.
Proof.
  induction s as [|c s IH]; intros b H; [reflexivity|].
  rewrite no_url_cons in H. apply andb_prop in H as [Hc H]. simpl.
  destruct (is_ws c) eqn:E; [destruct b; [auto|]|]; rewrite no_url_cons, IH, andb_true_r; auto.
  apply negb_true_iff. destruct (url_at (String c (collapse_ws_go false s))) eqn:U; [|reflexivity].
  apply (url_at_transfer c _ s) in U; [|intros w; apply collapse_nonws_prefix].
  now rewrite U in Hc.
Qed.

Lemma trim_start_no_url (s : string) : no_url s = true -> no_url (trim_start s) = true.
Proof.
  induction s as [|c s IH]; intros H; [reflexivity|]. simpl.
  destruct (is_ws c); [|exact H]. apply IH. rewrite no_url_cons in H.
  now apply andb_prop in H as [_ H].
Qed.

(** A prefix of a URL-free text is URL-free. *)
Lemma no_url_app_l (p r : string) : no_url (p ++ r) = true -> no_url p = true.
Proof.
  induction p as [|c p IH]; intros H; [reflexivity|].
  simpl in H. rewrite no_url_cons in H |- *. apply andb_prop in H as [Hc H].
  rewrite IH by exact H. rewrite andb_true_r. apply negb_true_iff.
  destruct (url_at (String c p)) eqn:U; [|reflexivity].
  apply (url_at_ext _ r) in U. simpl in U. now rewrite U in Hc.
Qed.

(** C4: no lower-case [http://] or [https://] URL (the scheme and at least
    one non-whitespace unit) starts anywhere in the cleaned text. *)
Theorem cleanEmail_no_url (text : string) (k : nat) :
  url_at (drop k (cleanEmail text)) = false.
Proof.
  apply negb_true_iff. apply (all_suffixes_drop (fun t => negb (url_at t))).
  fold (no_url (cleanEmail text)). unfold cleanEmail, trim.
  match goal with |- context [take _ ?x] => destruct (take_prefix max_clean_length x) as [r Hr] end.
  apply (no_url_app_l _ r). rewrite <- Hr.
  match goal with |- context [trim_end ?x] => destruct (trim_end_prefix x) as [r' Hr'] end.
  apply (no_url_app_l _ r'). rewrite <- Hr'.
  apply trim_start_no_url, collapse_no_url, strip_urls_no_url.
Qed.

(** ** Whitespace normal form *)

(** The only whitespace unit is the space. *)
Definition sp_only (c : ascii) : bool := negb (is_ws c) || Ascii.eqb c SP.

(** No two whitespace units in a row at the head of [t]. *)
Definition ws_pair_ok (t : string) : bool :=
  match t with
  | String c (String d _) => negb (is_ws c && is_ws d)
  | _ => true
  end.

Definition head_nonws (t : string) : bool :=
  match t with
  | EmptyString => true
  | String c _ => negb (is_ws c)
  end.

Definition ws_normal (s : string) : bool :=
  all_chars sp_only s && all_suffixes ws_pair_ok s && head_nonws s.

Fixpoint last_nonws (s : string) : bool :=
  match s with
  | EmptyString => true
  | String c EmptyString => negb (is_ws c)
  | String _ s' => last_nonws s'
  end.

Lemma collapse_sp_only (s : string) : forall b, all_chars sp_only (collapse_ws_go b s) = true.
Proof.
  induction s as [|c s IH]; intros b; [reflexivity|]. simpl.
  destruct (is_ws c) eqn:E; [destruct b|]; simpl; rewrite ?IH; auto.
  unfold sp_only. now rewrite E.
Qed.

Lemma collapse_true_head (s : string) : head_nonws (collapse_ws_go true s) = true.
Proof.
  induction s as [|c s IH]; [reflexivity|]. simpl.
  destruct (is_ws c) eqn:E; [exact IH|]. simpl. now rewrite E.
Qed.

Lemma collapse_pairs (s : string) : forall b, all_suffixes ws_pair_ok (collapse_ws_go b s) = true.
Proof.
  induction s as [|c s IH]; intros b; [reflexivity|]. simpl.
  destruct (is_ws c) eqn:E; [destruct b; [apply IH|]|]; simpl; rewrite IH, andb_true_r.
  - pose proof (collapse_true_head s) as H.
    destruct (collapse_ws_go true s); [reflexivity|]. simpl in H |- *. exact H.
  - destruct (collapse_ws_go false s); [reflexivity|]. simpl. now rewrite E.
Qed.

Lemma trim_start_ws_normal (s : string) :
  all_chars sp_only s && all_suffixes ws_pair_ok s = true ->
  ws_normal (trim_start s) = true.
Proof.
  induction s as [|c s IH]; intros H; [reflexivity|]. cbn [trim_start].
  destruct (is_ws c) eqn:E.
  - apply IH. cbn [all_chars all_suffixes] in H. bool_cases; assumption.
  - unfold ws_normal, head_nonws. rewrite E, andb_true_r. exact H.
Qed.

Lemma ws_pair_ok_app_l (t r : string) : ws_pair_ok (t ++ r) = true -> ws_pair_ok t = true.
Proof. destruct t as [|c [|d t]]; auto. Qed.

(** A prefix of a text in normal form is in normal form. *)
Lemma ws_normal_app_l (p r : string) : ws_normal (p ++ r) = true -> ws_normal p = true.
Proof.
  unfold ws_normal. rewrite all_chars_append. intros H.
  apply andb_prop in H as [H Hh]. apply andb_prop in H as [Hc Hp].
  apply andb_prop in Hc as [Hc _]. rewrite Hc. simpl.
  apply andb_true_intro. split; [|destruct p; [reflexivity | exact Hh]].
  clear Hc Hh. induction p as [|c p IH]; [reflexivity|].
  cbn [all_suffixes append] in Hp |- *. apply andb_prop in Hp as [Hp1 Hp2]. rewrite (IH Hp2).
  rewrite (ws_pair_ok_app_l (String c p) r Hp1). reflexivity.
Qed.

Lemma trim_end_last (s : string) : last_nonws (trim_end s) = true.
Proof.
  induction s as [|c s IH]; [reflexivity|]. cbn [trim_end].
  destruct (trim_end s) as [|a r] eqn:E.
  - destruct (is_ws c) eqn:W; cbn; rewrite ?W; reflexivity.
  - exact IH.
Qed.

(** [.trim()] runs before [.slice(0, 900)]: a text shorter than the cut
    is the trimmed one. *)
Lemma cleanEmail_short (text : string) :
  String.length (cleanEmail text) < max_clean_length ->
  cleanEmail text = trim (collapse_ws (strip_urls (strip_sent_from
       (strip_original_message (strip_on_wrote (strip_greeting text)))))).
Proof.
  unfold cleanEmail. rewrite take_length. intros H. apply take_all. lia.
Qed.

(** C23: in the cleaned text the only whitespace is the single space, there
    are never two in a row, and the text does not start with one; it does
    not end with one either unless [.slice(0, 900)] cut it, since the slice
    comes after [.trim()]. *)
Theorem cleanEmail_ws_normal (text : string) :
  ws_normal (cleanEmail text) = true /\
  (String.length (cleanEmail text) < max_clean_length -> last_nonws (cleanEmail text) = true).
Proof.
  split; [|intros H; rewrite (cleanEmail_short text H); apply trim_end_last].
  unfold cleanEmail, trim.
  match goal with |- context [take _ ?x] => destruct (take_prefix max_clean_length x) as [r Hr] end.
  apply (ws_normal_app_l _ r). rewrite <- Hr.
  match goal with |- context [trim_end ?x] => destruct (trim_end_prefix x) as [r' Hr'] end.
  apply (ws_normal_app_l _ r'). rewrite <- Hr'.
  apply trim_start_ws_normal. unfold collapse_ws. now rewrite collapse_sp_only, collapse_pairs.
Qed.

(** The cut can end on a space: 899 letters followed by " b" keep the
    space and lose the "b". *)
Lemma cleanEmail_cut_trailing_space :
  cleanEmail (Nat.iter 899 (String "a") " b") = (Nat.iter 899 (String "a") " ")%string.
Proof. vm_compute. reflexivity. Qed.

(** The "on ... wrote:" stage needs the space before "wrote:". *)
Lemma cleanEmail_keeps_rewrote :
  cleanEmail "Please comment on the part Ann rewrote: it is below." =
  "Please comment on the part Ann rewrote: it is below.".
Proof. vm_compute. reflexivity. Qed.

(** ** The greeting stage and the examples of spec.md *)

Lemma after_first_lf_line (l rest : string) :
  no_lt l = true -> after_first_lf (l ++ String LF rest) = Some rest.
Proof.
  induction l as [|c l IH]; intros H; [reflexivity|]. simpl in H |- *.
  apply andb_prop in H as [Hc H]. unfold is_lt in Hc.
  apply negb_true_iff, orb_false_elim in Hc as [-> ->]. auto.
Qed.

(** C33: the greeting stage deletes the whole first line whenever it starts
    with "hi", "hello" or "dear" in any case, so a first line such as
    "History exam moved" or "High priority" is lost, not only a greeting. *)
Theorem strip_greeting_first_line (l rest : string) :
  existsb (fun w => prefix_ci w l) greeting_words = true -> no_lt l = true ->
  strip_greeting (l ++ String LF rest) = rest.
Proof.
  intros Hw Hl. unfold strip_greeting.
  replace (existsb _ _) with true.
  - now rewrite after_first_lf_line.
  - symmetry. apply existsb_exists in Hw as [w [Hin Hp]].
    apply existsb_exists. exists w. split; [exact Hin | now apply prefix_ci_ext].
Qed.

(** On the signature example of spec.md, section 8, the greeting line is
    removed but "Best regards," and the name are kept: the code has no
    signature stage. *)
Theorem cleanEmail_keeps_signature :
  cleanEmail (lines ["Hi John,"; "Please send the report by Friday."; "Best regards,"; "Jane"])
  = "Please send the report by Friday. Best regards, Jane".
Proof. vm_compute. reflexivity. Qed.

(** [cleanEmail] is not idempotent: the whitespace stage runs after the
    quote stage, so a tab in "on<TAB>Bob wrote:" only becomes a match on a
    second pass. *)
Theorem cleanEmail_not_idempotent :
  let x := ("x on" ++ String "009" "Bob wrote: hi")%string in
  cleanEmail x = "x on Bob wrote: hi" /\ cleanEmail (cleanEmail x) = "x".
Proof. vm_compute. split; reflexivity. Qed.

(** "Sent from my ..." is only removed on the last line: followed by a
    line break it survives; phone numbers and upper-case URLs are not
    redacted at all. *)
Theorem cleanEmail_leaks :
  cleanEmail (lines ["Thanks"; "Sent from my iPhone"; ""]) = "Thanks Sent from my iPhone" /\
  cleanEmail (lines ["Thanks"; "Sent from my iPhone"]) = "Thanks" /\
  cleanEmail "call 555-123-4567 or see HTTP://x.example/a" =
    "call 555-123-4567 or see HTTP://x.example/a".
Proof. vm_compute. repeat split; reflexivity. Qed.

Lemma strip_greeting_first_line_witness :
  existsb (fun w => prefix_ci w "History exam moved") greeting_words = true /\
  no_lt "History exam moved" = true /\
  strip_greeting ("History exam moved" ++ String LF "to Friday") = "to Friday".
Proof.
  split; [reflexivity|]. split; [reflexivity|].
  apply strip_greeting_first_line; reflexivity.
Defined.

Lemma cleanEmail_ws_normal_witness :
  String.length (cleanEmail (lines ["Hi Ann,"; "see  you "])) < max_clean_length /\
  last_nonws (cleanEmail (lines ["Hi Ann,"; "see  you "])) = true.
Proof.
  assert (H : String.length (cleanEmail (lines ["Hi Ann,"; "see  you "])) < max_clean_length)
    by (apply Nat.ltb_lt; reflexivity).
  split; [exact H | exact (proj2 (cleanEmail_ws_normal _) H)].
Defined.

End Sanitizer.
