(* ===== verification/Replace.v ===== *)
(** * Replace: [String.prototype.replace] with a global regular expression

    [cleanEmail] (src/ai.js, lines 66-76) is a chain of [.replace] calls
    with global regular expressions.  [Sanitizer] translates each stage
    into a single-pass scanner.  This file gives the reference semantics
    the scanners are checked against: [replace_all] is the
    [@@replace] algorithm of ECMA-262 (section 22.2.6.11) for a global
    pattern and a string replacement without [$]-patterns, run on the
    backtracking matcher of [Regex]: from [lastIndex] the first position
    where the pattern matches is found, the match is replaced, and
    [lastIndex] moves to the end of the match, or one unit further after
    an empty match.  The patterns of stages 2, 3, 5 and 6 are written as
    [Regex] nodes, and each scanner is proved equal to [replace_all] on
    its pattern.  Stages 1 and 4 use [^], [$], an alternation and a lazy
    quantifier, which the matcher does not provide; their scanners are
    checked against the examples of spec.md in [Sanitizer].

    [replace_all] recurses on the rest of the string after a match, which
    is not a structural argument: it carries fuel, one more than the
    length of the string, and [replace_go_fuel] shows any fuel above the
    length gives the same result. *)

From Stdlib Require Import Ascii String List Bool Arith Lia.
From S2P Require Import Prelude Regex Sanitizer.
Import ListNotations.
Local Open Scope string_scope.

Module Replace.
Import Regex Sanitizer.

(** ** The algorithm *)

(** The match of [ns] at the head of [s], as the number of units it
    spans ([RegExpBuiltinExec] at a fixed [lastIndex]). *)
Definition exec_at (ns : list node) (s : string) : option nat :=
  mseq ns s [] (fun s' _ => Some (String.length s - String.length s')).

(** The replacement loop, with fuel. *)
Fixpoint replace_go (fuel : nat) (ns : list node) (r : string) (s : string) : string :=
  match fuel with
  | O => s
  | S f =>
      match s with
      | EmptyString => match exec_at ns s with Some _ => r | None => EmptyString end
      | String c s' =>
          match exec_at ns s with
          | Some (S n) => r ++ replace_go f ns r (drop (S n) s)
          | Some O => r ++ String c (replace_go f ns r s')
          | None => String c (replace_go f ns r s')
          end
      end
  end.

(** [s.replace(/ns/g, r)]. *)
Definition replace_all (ns : list node) (r : string) (s : string) : string :=
  replace_go (S (String.length s)) ns r s.

(** ** Patterns *)

(** A literal, and a literal under the [i] flag (the text is compared
    through [lower_char], as [prefix_ci] does). *)
Fixpoint lit (w : string) : list node :=
  match w with
  | EmptyString => []
  | String a w' => Unit (Ascii.eqb a) :: lit w'
  end.

Fixpoint lit_ci (w : string) : list node :=
  match w with
  | EmptyString => []
  | String a w' => Unit (fun c => Ascii.eqb a (lower_char c)) :: lit_ci w'
  end.

Definition any_unit (_ : ascii) : bool := true.

(** [/https?:\/\/\S+/g] (line 72). *)
Definition url_re : list node :=
  lit "http" ++ Opt (Unit (Ascii.eqb "s"%char)) :: lit "://" ++ [Plus nonws].

(** [/\s+/g] (line 73). *)
Definition ws_re : list node := [Plus is_ws].

(** [/-----original message-----[\s\S]*/gi] (line 70). *)
Definition original_re : list node := lit_ci "-----original message-----" ++ [Star any_unit].

(** [/on .* wrote:[\s\S]*/gi] (line 69); [.] is any unit but a line
    terminator. *)
Definition on_wrote_re : list node :=
  lit_ci "on " ++ Star (fun c => negb (is_lt c)) :: lit_ci " wrote:" ++ [Star any_unit].

(** The stages 2, 3, 5 and 6 of [cleanEmail] as [replace] calls. *)
Definition cleanEmail_regex (text : string) : string :=
  take max_clean_length
    (trim (replace_all ws_re " " (replace_all url_re "" (strip_sent_from
       (replace_all original_re "" (replace_all on_wrote_re "" (strip_greeting text))))))).

(** ** The matcher on literals and quantifiers *)

(** The matcher only looks at what its continuation returns. *)
Lemma star_ext {R : Type} (p : ascii -> bool) (s : string) (c : caps) (k1 k2 : cont R) :
  (forall s' c', k1 s' c' = k2 s' c') -> star p s c k1 = star p s c k2.
Proof. intros H. induction s as [|a s IH]; simpl; [apply H|]. now rewrite IH, !H. Qed.

Lemma m_ext (n : node) :
  forall (R : Type) s c (k1 k2 : cont R),
    (forall s' c', k1 s' c' = k2 s' c') -> m n s c k1 = m n s c k2.
Proof.
  assert (Hseq : forall ns, Forall (fun n => forall (R : Type) s c (k1 k2 : cont R),
                                  (forall s' c', k1 s' c' = k2 s' c') -> m n s c k1 = m n s c k2) ns ->
            forall (R : Type) s c (k1 k2 : cont R),
              (forall s' c', k1 s' c' = k2 s' c') -> mseq ns s c k1 = mseq ns s c k2).
  { induction 1 as [|n0 ns0 Hn _ IH0]; intros R s c k1 k2 H; [apply H|].
    rewrite !mseq_cons. apply Hn. intros s' c'. now apply IH0. }
  induction n as [p|n IH|p|p|i ns IH|ns IH] using node_ind; intros R s c k1 k2 H.
  - destruct s as [|a s]; simpl; [reflexivity | destruct (p a); auto].
  - cbn [m]. rewrite (IH R s c k1 k2 H). now rewrite H.
  - apply star_ext, H.
  - destruct s as [|a s]; simpl; [reflexivity | destruct (p a); [apply star_ext, H | reflexivity]].
  - rewrite !m_group. apply Hseq; [exact IH|]. intros s' c'. apply H.
  - rewrite !m_seq. now apply Hseq.
Qed.

Lemma mseq_ext {R : Type} (ns : list node) (s : string) (c : caps) (k1 k2 : cont R) :
  (forall s' c', k1 s' c' = k2 s' c') -> mseq ns s c k1 = mseq ns s c k2.
Proof.
  revert s c. induction ns as [|n ns IH]; intros s c H; [apply H|].
  rewrite !mseq_cons. apply m_ext. intros s' c'. now apply IH.
Qed.

Lemma mseq_app {R : Type} (ns1 ns2 : list node) (s : string) (c : caps) (k : cont R) :
  mseq (ns1 ++ ns2) s c k = mseq ns1 s c (fun s' c' => mseq ns2 s' c' k).
Proof.
  revert s c. induction ns1 as [|n ns1 IH]; intros s c; [reflexivity|].
  simpl app. rewrite !mseq_cons. apply m_ext. intros s' c'. apply IH.
Qed.

Lemma prefix_length (w s : string) : prefix w s = true -> String.length w <= String.length s.
Proof. intros H. destruct (prefix_inv w s H) as [r ->]. rewrite length_append. lia. Qed.

Lemma mseq_lit {R : Type} (w : string) (ns : list node) (s : string) (c : caps) (k : cont R) :
  mseq (lit w ++ ns) s c k = if prefix w s then mseq ns (drop (String.length w) s) c k else None.
Proof.
  revert s. induction w as [|a w IH]; intros s; [destruct s; reflexivity|].
  destruct s as [|b s]; [reflexivity|]. simpl app. rewrite mseq_cons. cbn [m lit prefix].
  destruct (ascii_dec a b) as [<-|Hne]; [rewrite Ascii.eqb_refl; apply IH|].
  apply Ascii.eqb_neq in Hne. now rewrite Hne.
Qed.

Lemma mseq_lit_ci {R : Type} (w : string) (ns : list node) (s : string) (c : caps) (k : cont R) :
  mseq (lit_ci w ++ ns) s c k = if prefix_ci w s then mseq ns (drop (String.length w) s) c k else None.
Proof.
  revert s. induction w as [|a w IH]; intros s; [destruct s; reflexivity|].
  destruct s as [|b s]; [reflexivity|]. simpl app. rewrite mseq_cons. cbn [m lit_ci prefix_ci].
  destruct (Ascii.eqb a (lower_char b)); [apply IH | reflexivity].
Qed.

(** A greedy quantifier followed by a continuation that always succeeds
    takes the whole run. *)
Lemma search_top {A : Type} (f : nat -> option A) (n : nat) (r : A) :
  f n = Some r -> search f n = Some r.
Proof. destruct n; simpl; intros ->; reflexivity. Qed.

Lemma star_total {R : Type} (p : ascii -> bool) (s : string) (c : caps) (k : cont R) :
  (forall s' c', exists r, k s' c' = Some r) -> star p s c k = k (drop (span p s) s) c.
Proof.
  intros H. rewrite star_search. destruct (H (drop (span p s) s) c) as [r Hr].
  rewrite Hr. apply search_top, Hr.
Qed.

Lemma drop_length (n : nat) (s : string) : String.length (drop n s) = String.length s - n.
Proof. revert s; induction n as [|n IH]; intros [|a s]; simpl; auto. Qed.

Lemma span_prefix (p : ascii -> bool) (w s : string) :
  prefix w s = true -> all_chars p w = true ->
  span p s = String.length w + span p (drop (String.length w) s).
Proof.
  intros Hw Hp. destruct (prefix_inv w s Hw) as [r ->]. rewrite drop_app.
  clear Hw. induction w as [|a w IH]; [reflexivity|]. simpl in *.
  apply andb_prop in Hp as [Ha Hp]. rewrite Ha, IH by exact Hp. reflexivity.
Qed.

Lemma prefix_split (a b s : string) :
  prefix (a ++ b) s = prefix a s && prefix b (drop (String.length a) s).
Proof.
  revert s. induction a as [|x a IH]; intros s; [destruct s, b; reflexivity|].
  destruct s as [|y s]; [reflexivity|]. cbn [append prefix String.length drop].
  destruct (ascii_dec x y); [apply IH | reflexivity].
Qed.

Lemma m_plus_total {R : Type} (p : ascii -> bool) (u : string) (c : caps) (k : cont R) :
  (forall s' c', exists r, k s' c' = Some r) ->
  m (Plus p) u c k = match u with
                     | String a _ => if p a then k (drop (span p u) u) c else None
                     | EmptyString => None
                     end.
Proof.
  intros H. destruct u as [|a u]; [reflexivity|]. simpl. destruct (p a); [|reflexivity].
  now apply star_total.
Qed.

(** The continuation of [exec_at] always succeeds. *)
Lemma exec_cont_total (s : string) :
  forall s' (c' : caps), exists r, (fun s1 (_ : caps) => Some (String.length s - String.length s1)) s' c' = Some r.
Proof. intros s' c'. eexists. reflexivity. Qed.

Lemma mseq_plus_total (p : ascii -> bool) (s u : string) (c : caps) :
  mseq [Plus p] u c (fun s1 _ => Some (String.length s - String.length s1)) =
  match u with
  | String a _ => if p a then Some (String.length s - String.length (drop (span p u) u)) else None
  | EmptyString => None
  end.
Proof.
  rewrite mseq_cons. rewrite m_plus_total by (intros; eexists; reflexivity).
  destruct u; reflexivity.
Qed.

(** The match of [/https?:\/\/\S+/] at the head of a string is
    [url_at]'s, and runs to the next whitespace unit. *)
Lemma exec_url (s : string) : exec_at url_re s = if url_at s then Some (span nonws s) else None.
Proof.
  unfold exec_at, url_re, url_at. rewrite mseq_lit.
  change "https://" with ("http" ++ "s://"). change "http://" with ("http" ++ "://").
  rewrite !prefix_split. destruct (prefix "http" s) eqn:H4; [|reflexivity]. cbn [andb].
  rewrite (span_prefix nonws "http" s H4 eq_refl). cbn [String.length].
  assert (L : 4 <= String.length s) by (apply (prefix_length "http"), H4).
  replace (drop 8 s) with (drop 4 (drop 4 s)) by (rewrite drop_drop; reflexivity).
  replace (drop 7 s) with (drop 3 (drop 4 s)) by (rewrite drop_drop; reflexivity).
  assert (Lt : String.length (drop 4 s) = String.length s - 4) by apply drop_length.
  remember (drop 4 s) as t eqn:Et. clear Et H4.
  destruct t as [|a t]; [reflexivity|].
  rewrite mseq_cons. cbn [m]. destruct (Ascii.eqb_spec "s" a) as [<-|Hne].
  - rewrite !mseq_lit. rewrite prefix_cons. change (drop 4 (String "s" t)) with (drop 3 t).
    replace (prefix "://" (String "s" t)) with false by reflexivity. cbn [andb orb].
    destruct (prefix "://" t) eqn:P3; [|reflexivity]. rewrite mseq_plus_total. cbn [String.length].
    pose proof (prefix_length "://" t P3) as L3. cbn [String.length] in L3, Lt.
    remember (drop 3 t) as u eqn:Eu.
    assert (Lu : String.length u = String.length t - 3) by (subst u; apply drop_length).
    destruct u as [|b u]; [reflexivity|]. cbn [nonws_head]. change (negb (is_ws b)) with (nonws b).
    destruct (nonws b) eqn:B; [|reflexivity]. cbn [andb orb].
    change (span nonws (String "s" t)) with (S (span nonws t)).
    rewrite (span_prefix nonws "://" t P3 eq_refl). cbn [String.length]. rewrite <- Eu.
    pose proof (span_le nonws (String b u)). rewrite drop_length. f_equal. lia.
  - replace (prefix "s://" (String a t)) with false
      by (cbn [prefix]; destruct (ascii_dec "s" a); [congruence | reflexivity]).
    rewrite mseq_lit. cbn [andb orb]. destruct (prefix "://" (String a t)) eqn:P3; [|reflexivity].
    rewrite mseq_plus_total. cbn [String.length].
    pose proof (prefix_length "://" _ P3) as L3. cbn [String.length] in L3, Lt.
    remember (drop 3 (String a t)) as u eqn:Eu.
    assert (Lu : String.length u = S (String.length t) - 3) by (subst u; apply drop_length).
    destruct u as [|b u]; [reflexivity|]. cbn [nonws_head]. change (negb (is_ws b)) with (nonws b).
    destruct (nonws b) eqn:B; [|reflexivity].
    rewrite (span_prefix nonws "://" (String a t) P3 eq_refl). cbn [String.length]. rewrite <- Eu.
    pose proof (span_le nonws (String b u)). rewrite drop_length. cbn [andb orb]. f_equal. cbn [String.length] in *. lia.
Qed.

(** The match of [/\s+/]: the run of whitespace at the head. *)
Lemma exec_ws (s : string) :
  exec_at ws_re s = match s with
                    | String c _ => if is_ws c then Some (span is_ws s) else None
                    | EmptyString => None
                    end.
Proof.
  unfold exec_at, ws_re. rewrite mseq_plus_total. destruct s as [|c s]; [reflexivity|].
  destruct (is_ws c); [|reflexivity]. f_equal.
  pose proof (span_le is_ws (String c s)). rewrite drop_length. lia.
Qed.

Lemma span_any (t : string) : span any_unit t = String.length t.
Proof. induction t as [|a t IH]; simpl; [reflexivity | now rewrite IH]. Qed.

Lemma drop_all (t : string) : drop (String.length t) t = EmptyString.
Proof. induction t as [|a t IH]; [reflexivity | exact IH]. Qed.

(** [[\s\S]*] at the end of a pattern takes the rest of the string. *)
Lemma mseq_rest (s t : string) (c : caps) :
  mseq [Star any_unit] t c (fun s1 _ => Some (String.length s - String.length s1)) =
  Some (String.length s).
Proof.
  rewrite mseq_cons, m_star, star_total by (intros; eexists; reflexivity).
  rewrite span_any, drop_all, mseq_nil. f_equal. simpl. lia.
Qed.

Lemma exec_original (s : string) :
  exec_at original_re s = if original_message_at s then Some (String.length s) else None.
Proof.
  unfold exec_at, original_re, original_message_at. rewrite mseq_lit_ci.
  destruct (prefix_ci _ s); [apply mseq_rest | reflexivity].
Qed.

Lemma search_ext {A : Type} (f g : nat -> option A) (n : nat) :
  (forall j, f j = g j) -> search f n = search g n.
Proof. intros H. induction n as [|n IH]; simpl; rewrite ?H, ?IH; reflexivity. Qed.

(** The greedy [.*] gives back units until [" wrote:"] follows: a match
    exists exactly when [" wrote:"] occurs before the end of the line. *)
Lemma search_wrote {A : Type} (x : A) (t : string) :
  search (fun j => if prefix_ci " wrote:" (drop j t) then Some x else None)
         (span (fun c => negb (is_lt c)) t) =
  if wrote_on_line t then Some x else None.
Proof.
  induction t as [|c t IH]; [reflexivity|].
  cbn [span wrote_on_line]. destruct (negb (is_lt c)) eqn:L.
  - rewrite search_shift.
    rewrite (search_ext _ (fun j => if prefix_ci " wrote:" (drop j t) then Some x else None)) by reflexivity.
    rewrite IH. cbn [drop andb]. destruct (wrote_on_line t), (prefix_ci " wrote:" (String c t)); reflexivity.
  - cbn [search drop andb]. now rewrite orb_false_r.
Qed.

Lemma exec_on_wrote (s : string) :
  exec_at on_wrote_re s = if on_wrote_at s then Some (String.length s) else None.
Proof.
  unfold exec_at, on_wrote_re, on_wrote_at. rewrite mseq_lit_ci.
  destruct (prefix_ci "on " s); [|reflexivity]. cbn [andb String.length].
  rewrite mseq_cons, m_star, star_search. rewrite <- (search_wrote (String.length s)).
  apply search_ext. intros j. rewrite mseq_lit_ci.
  destruct (prefix_ci _ _); [apply mseq_rest | reflexivity].
Qed.

(** ** Fuel *)

Lemma replace_go_fuel (ns : list node) (r : string) (f1 f2 : nat) (s : string) :
  String.length s < f1 -> String.length s < f2 -> replace_go f1 ns r s = replace_go f2 ns r s.
Proof.
  revert f2 s. induction f1 as [|f1 IH]; intros [|f2] s H1 H2; try lia.
  destruct s as [|c s]; [reflexivity|]. cbn [replace_go].
  cbn [String.length] in H1, H2.
  destruct (exec_at ns (String c s)) as [[|n]|].
  - f_equal. f_equal. apply IH; lia.
  - f_equal. apply IH; rewrite drop_length; cbn [String.length]; lia.
  - f_equal. apply IH; lia.
Qed.

(** ** The scanners are the [replace] calls *)

(** A pattern that, when it matches, takes the rest of the string: the
    replacement by [''] cuts the string at the first match. *)
Lemma replace_cut (ns : list node) (P : string -> bool) :
  (forall t, exec_at ns t = if P t then Some (String.length t) else None) -> P EmptyString = false ->
  forall s, replace_all ns "" s = cut_at P s.
Proof.
  intros He Hn s. unfold replace_all. generalize (S (String.length s)) (Nat.lt_succ_diag_r (String.length s)).
  intros f. revert s. induction f as [|f IH]; intros s Hs; [lia|].
  destruct s as [|c s]; cbn [replace_go cut_at]; rewrite He, ?Hn; [reflexivity|].
  destruct (P (String c s)); [|cbn [append]; f_equal; apply IH; simpl in Hs; lia].
  cbn [String.length]. change (drop (S (String.length s)) (String c s)) with (drop (String.length s) s). rewrite drop_all. destruct f; cbn [replace_go]; [reflexivity|]. now rewrite He, Hn.
Qed.

Lemma strip_urls_true (s : string) : strip_urls_go true s = strip_urls_go false (drop (span nonws s) s).
Proof.
  induction s as [|c s IH]; [reflexivity|]. cbn [strip_urls_go span andb].
  change (negb (is_ws c)) with (nonws c). destruct (nonws c); [exact IH | reflexivity].
Qed.

Lemma url_at_nonws (c : ascii) (s : string) : url_at (String c s) = true -> nonws c = true.
Proof. intros H. now rewrite (url_at_head c s H). Qed.

(** The URL stage of [cleanEmail] is [s.replace(/https?:\/\/\S+/g, '')]:
    the scanner [strip_urls] gives what the ECMAScript replace algorithm
    gives on the backtracking matcher, for every string. *)
Theorem strip_urls_replace (s : string) : strip_urls s = replace_all url_re "" s.
Proof.
  unfold replace_all, strip_urls. generalize (S (String.length s)) (Nat.lt_succ_diag_r (String.length s)).
  intros f. revert s. induction f as [|f IH]; intros s Hs; [lia|].
  destruct s as [|c s]; [reflexivity|]. cbn [replace_go strip_urls_go andb]. rewrite exec_url.
  destruct (url_at (String c s)) eqn:U; [|f_equal; apply IH; simpl in Hs; lia].
  pose proof (url_at_nonws c s U) as N. cbn [span]. rewrite N. cbn [append drop].
  rewrite strip_urls_true. apply IH. rewrite drop_length. simpl in Hs. lia.
Qed.

Lemma collapse_true (s : string) : collapse_ws_go true s = collapse_ws_go false (drop (span is_ws s) s).
Proof.
  induction s as [|c s IH]; [reflexivity|]. cbn [collapse_ws_go span].
  destruct (is_ws c) eqn:W; [exact IH | cbn [drop collapse_ws_go]; now rewrite W].
Qed.

(** The whitespace stage is [s.replace(/\s+/g, ' ')]. *)
Lemma collapse_ws_replace (s : string) : collapse_ws s = replace_all ws_re " " s.
Proof.
  unfold replace_all, collapse_ws. generalize (S (String.length s)) (Nat.lt_succ_diag_r (String.length s)).
  intros f. revert s. induction f as [|f IH]; intros s Hs; [lia|].
  destruct s as [|c s]; [reflexivity|]. cbn [replace_go collapse_ws_go]. rewrite exec_ws.
  destruct (is_ws c) eqn:W; [|f_equal; apply IH; simpl in Hs; lia].
  cbn [span]. rewrite W. cbn [append drop]. f_equal.
  rewrite collapse_true. apply IH. rewrite drop_length. simpl in Hs. lia.
Qed.

(** C11: [cleanEmail] is the chain of [.replace] calls of the code: its
    stages 2, 3, 5 and 6, written as scanners, are the ECMAScript
    [replace] of their regular expressions on the backtracking matcher. *)
Theorem cleanEmail_replace (text : string) : cleanEmail text = cleanEmail_regex text.
Proof.
  unfold cleanEmail, cleanEmail_regex, strip_on_wrote, strip_original_message.
  rewrite <- strip_urls_replace, <- collapse_ws_replace.
  rewrite (replace_cut on_wrote_re on_wrote_at exec_on_wrote eq_refl).
  rewrite (replace_cut original_re original_message_at exec_original eq_refl).
  reflexivity.
Qed.

End Replace.
