(* ===== verification/ReadmeClean.v ===== *)
(** * ReadmeClean: the clean-up of the AIProcessor listed in src/README.md

    src/README.md lists an earlier [AIProcessor] (lines 176-504): the
    version the spec describes, with an [Urgent] label, a 35-word cap on
    summaries and an emergency summary.  Its [preprocessEmailBody]
    (lines 205-272) is a chain of [.replace] calls with global regular
    expressions, then a cut to 400 words.  This file models it.

    Several of its patterns look at the unit before the match ([^] under
    the [m] flag, [^] without it, [\b]).  [gsub] is the [@@replace] loop of
    [Replace.replace_all] with a matcher that also receives that unit
    (the loop runs on the original string, so it is the unit of the
    input before the position); [gsub_plain] shows it is [replace_all]
    for a matcher that ignores it.  Patterns without anchors are [Regex]
    nodes run by [Replace.exec_at]; counted repetitions [\d{1,3}] are
    nested greedy optionals, which the backtracking matcher tries in the
    order of ECMAScript's greedy [{1,3}]; an alternation of literals is
    tried alternative by alternative ([alt_lit]).  A lazy [*?] or [+?]
    followed by [$] or by a unit [.] cannot cover is written greedy:
    both stop at the same place (see each pattern).

    The theorems: the result has at most 400 words; the first greeting
    pattern never matches, since the whitespace stage has removed every
    line break before it runs; and a text that, after the whitespace
    stage, starts with a closing word such as "Thanks" is erased whole by
    the second greeting pattern. *)

From Stdlib Require Import Ascii String List Bool Arith Lia.
From S2P Require Import Prelude Regex Sanitizer Replace.
Import ListNotations.
Local Open Scope string_scope.

Module ReadmeClean.
Import Regex Sanitizer Replace.

(** ** The replacement loop with the unit before the position *)

(** A matcher: given the unit before the position ([None] at the start)
    and the rest of the string, the length of the match there. *)
Definition matcher : Type := option ascii -> string -> option nat.

Fixpoint gsub_go (fuel : nat) (mt : matcher) (r : string) (prev : option ascii) (s : string) : string :=
  match fuel with
  | O => s
  | S f =>
      match s with
      | EmptyString => match mt prev s with Some _ => r | None => EmptyString end
      | String c s' =>
          match mt prev s with
          | Some (S n) => r ++ gsub_go f mt r (String.get n s) (drop (S n) s)
          | Some O => r ++ String c (gsub_go f mt r (Some c) s')
          | None => String c (gsub_go f mt r (Some c) s')
          end
      end
  end.

(** [s.replace(re, r)] for a global [re] and an [r] without [$]. *)
Definition gsub (mt : matcher) (r : string) (s : string) : string :=
  gsub_go (S (String.length s)) mt r None s.

Definition plain (ns : list node) : matcher := fun _ s => exec_at ns s.

(** ** Classes *)

Definition is_digit (c : ascii) : bool :=
  let n := nat_of_ascii c in (Nat.leb 48 n) && (Nat.leb n 57).

Definition is_upper (c : ascii) : bool :=
  let n := nat_of_ascii c in (Nat.leb 65 n) && (Nat.leb n 90).

(** [\w]: [[A-Za-z0-9_]]. *)
Definition is_word (c : ascii) : bool :=
  let n := nat_of_ascii c in
  is_digit c || is_upper c || ((Nat.leb 97 n) && (Nat.leb n 122)) || (Nat.eqb n 95).

Definition not_lt (c : ascii) : bool := negb (is_lt c).

Definition is_char (a : ascii) (c : ascii) : bool := Ascii.eqb c a.

(** [[,\s]] *)
Definition comma_or_ws (c : ascii) : bool := is_char "," c || is_ws c.

(** ** Building blocks *)

(** [R[\s\S]*?$] without the [m] flag: [$] is the end of the input, so
    the lazy run and a greedy one both take the rest of the string. *)
Definition to_end_ci (w : string) : list node := lit_ci w ++ [Star any_unit].

(** [\d{1,n}]: one digit, then up to [n - 1] more, greedy. *)
Fixpoint more_upto (p : ascii -> bool) (n : nat) : list node :=
  match n with
  | O => []
  | S k => [Opt (Seq (Unit p :: more_upto p k))]
  end.

Definition upto (p : ascii -> bool) (n : nat) : list node := Unit p :: more_upto p (n - 1).

Fixpoint units (p : ascii -> bool) (n : nat) : list node :=
  match n with O => [] | S k => Unit p :: units p k end.

(** [[-.]?] *)
Definition sep : node := Opt (Unit (fun c => is_char "-" c || is_char "." c)).

(** [\b ns \b] where [ns] starts and ends with a digit: the unit before
    is not a word unit, nor the unit after. *)
Definition word_bounded (ns : list node) : matcher := fun prev s =>
  if match prev with Some c => is_word c | None => false end then None
  else mseq ns s [] (fun s' _ =>
         match s' with
         | String c _ => if is_word c then None else Some (String.length s - String.length s')
         | EmptyString => Some (String.length s - String.length s')
         end).

(** [^(w1|w2|...)rest] under the [i] flag: the anchor holds at the start,
    or after a line terminator when [multi] (the [m] flag); the
    alternatives are tried in order, each with the rest of the pattern. *)
Definition alt_lit (multi : bool) (ws : list string) (rest : list node) : matcher := fun prev s =>
  if match prev with None => true | Some c => multi && is_lt c end then
    (fix go (ws : list string) : option nat :=
       match ws with
       | [] => None
       | w :: ws' =>
           match (if prefix_ci w s then exec_at rest (drop (String.length w) s) else None) with
           | Some n => Some (String.length w + n)
           | None => go ws'
           end
       end) ws
  else None.

(** ** Line 213: [/--\s*\n.*?(?=\n\n|\n[A-Z]|\n$)/gs] *)

(** The lookahead: two line feeds, a line feed and a capital, or a final
    line feed ([$] without [m] is the end of the input). *)
Definition look_sig (v : string) : bool :=
  match v with
  | String a (String b _) => Ascii.eqb a LF && (Ascii.eqb b LF || is_upper b)
  | String a EmptyString => Ascii.eqb a LF
  | EmptyString => false
  end.

(** The lazy [.*?] (any unit under [s]): the first position where the
    lookahead holds. *)
Fixpoint first_look (v : string) : option nat :=
  if look_sig v then Some O
  else match v with
       | EmptyString => None
       | String _ v' => option_map S (first_look v')
       end.

(** [--], then [\s*] greedy, giving units back until a line feed follows
    and the lazy part finds its lookahead. *)
Definition sig_dash : matcher := fun _ s =>
  match s with
  | String a (String b t) =>
      if Ascii.eqb a "-" && Ascii.eqb b "-" then
        search (fun k => match String.get k t with
                         | Some c => if Ascii.eqb c LF
                                     then option_map (fun j => 3 + k + j) (first_look (drop (S k) t))
                                     else None
                         | None => None
                         end) (span is_ws t)
      else None
  | _ => None
  end.

(** ** Lines 211-225: the signature patterns, applied in order *)

Definition underscores : string := "________________________________".

Definition signature_patterns : list matcher :=
  [sig_dash;
   plain (to_end_ci "best regards,"); plain (to_end_ci "regards,");
   plain (to_end_ci "sincerely,"); plain (to_end_ci "thank you,");
   plain (to_end_ci "thanks,"); plain (to_end_ci "sent from my");
   plain (to_end_ci "get outlook for");
   plain (lit underscores ++ [Star any_unit])].

(** ** Lines 228-238: quoted replies and forwarded content *)

(** [/On .+? wrote:[\s\S]*?$/gi]: the match runs to the end of the input
    whatever [.+?] takes, so it is found where a greedy [.+] finds it. *)
Definition on_wrote_re : list node :=
  lit_ci "on " ++ Plus not_lt :: lit_ci " wrote:" ++ [Star any_unit].

(** [/>+.*$/gm]: the rest of the line from a [>]; [/From:.*$/gm]. *)
Definition quote_re : list node := [Plus (is_char ">"); Star not_lt].
Definition from_re : list node := lit "From:" ++ [Star not_lt].

Definition reply_patterns : list matcher :=
  [plain on_wrote_re; plain quote_re; plain from_re; plain original_re;
   plain (to_end_ci "forwarded message")].

(** ** Lines 241-244: URLs and phone numbers *)

Definition www_re : list node := lit "www." ++ [Plus nonws].

(** [/\b\d{3}[-.]?\d{3}[-.]?\d{4}\b/g] *)
Definition phone_re : list node := units is_digit 3 ++ sep :: units is_digit 3 ++ sep :: units is_digit 4.

(** [/\b\d{1,3}[-.]?\d{1,3}[-.]?\d{1,4}[-.]?\d{1,4}\b/g] *)
Definition phone_loose_re : list node :=
  upto is_digit 3 ++ sep :: upto is_digit 3 ++ sep :: upto is_digit 4 ++ sep :: upto is_digit 4.

Definition redact (s : string) : string :=
  gsub (word_bounded phone_loose_re) "[PHONE]"
    (gsub (word_bounded phone_re) "[PHONE]"
       (replace_all www_re "[URL]" (replace_all url_re "[URL]" s))).

(** ** Lines 247-252: whitespace and characters *)

(** [/\n\s*\n\s*\n/g] *)
Definition blank_re : list node :=
  [Unit (is_char LF); Star is_ws; Unit (is_char LF); Star is_ws; Unit (is_char LF)].

(** [/^\s+|\s+$/g]: without [m], [^] is the start and [$] the end. *)
Definition edge_ws : matcher := fun prev s =>
  match (match prev with None => exec_at [Plus is_ws] s | Some _ => None end) with
  | Some n => Some n
  | None => mseq [Plus is_ws] s [] (fun s' _ =>
              match s' with EmptyString => Some (String.length s) | _ => None end)
  end.

(** The units the class of line 251 keeps: [\w], [\s], the double
    quote (unit 34) and [. , ! ? - : ; ( ) [ ] ' /]. *)
Definition kept_char (c : ascii) : bool :=
  is_word c || is_ws c || existsb (Ascii.eqb c) [".";",";"!";"?";"-";":";";";"(";")";"[";"]";"034";"'";"/"]%char.

Definition normalize_ws (s : string) : string :=
  replace_all [Unit (fun c => negb (kept_char c))] ""
    (gsub edge_ws "" (replace_all ws_re " " (replace_all blank_re (String LF (String LF EmptyString)) s))).

(** ** Lines 254-261: greetings and closings *)

(** [/^(Hi|Hello|Dear|Hey|Good morning|Good afternoon)[,\s].*?\n/gi]: the
    lazy [.*?] cannot pass a line terminator, so it stops where a greedy
    [.*] does, before the first one. *)
Definition greeting_re : matcher :=
  alt_lit false ["hi"; "hello"; "dear"; "hey"; "good morning"; "good afternoon"]
    [Unit comma_or_ws; Star not_lt; Unit (is_char LF)].

(** [/^(Best|Regards|Sincerely|Thanks|Thank you|Cheers)[,\s].*?$/gim]:
    [.*?] stops at the first position where [$] holds, the end of the
    line, where a greedy [.*] stops too. *)
Definition closing_re : matcher :=
  alt_lit true ["best"; "regards"; "sincerely"; "thanks"; "thank you"; "cheers"]
    [Unit comma_or_ws; Star not_lt].

Definition strip_greetings (s : string) : string := gsub closing_re "" (gsub greeting_re "" s).

(** ** Lines 263-270: the first 400 words *)

(** [s.split(/\s+/).filter(word => word.length > 0)]: the maximal runs of
    non-whitespace units; [cur] is the run being read. *)
Fixpoint words_acc (s : string) (cur : string) : list string :=
  match s with
  | EmptyString => match cur with EmptyString => [] | _ => [cur] end
  | String c s' =>
      if is_ws c then match cur with
                      | EmptyString => words_acc s' EmptyString
                      | _ => cur :: words_acc s' EmptyString
                      end
      else words_acc s' (cur ++ String c EmptyString)
  end.

Definition words (s : string) : list string := words_acc s EmptyString.

(** [Array.prototype.join(sep)]. *)
Fixpoint join (sp : string) (l : list string) : string :=
  match l with
  | [] => EmptyString
  | [x] => x
  | x :: l' => x ++ sp ++ join sp l'
  end.

Definition max_words : nat := 400.

(** ** [preprocessEmailBody] (lines 205-272) *)

(** The text the greeting patterns see (lines 207-252). *)
Definition before_greetings (b : string) : string :=
  normalize_ws (redact (fold_left (fun acc mt => gsub mt "" acc) reply_patterns
                          (fold_left (fun acc mt => gsub mt "" acc) signature_patterns b))).

Definition preprocessEmailBody (b : string) : string :=
  match b with
  | EmptyString => EmptyString
  | _ =>
      let cleaned := strip_greetings (before_greetings b) in
      trim (replace_all ws_re " " (join " " (firstn max_words (words cleaned))))
  end.

End ReadmeClean.
