(* ===== verification/Rules.v ===== *)
(** * Rules: the keyword engines of [AIProcessor] (src/ai.js)

    - [validateTag] (lines 391-394) keeps a tag of the model's reply only
      if it is one of four strings, [FYI] otherwise;
    - [basicFallback] (lines 354-389) is the rule classifier: four keyword
      tests in order, then a default built from the subject;
    - [addContextHint] (lines 115-349) replaces a summary by a canned
      sentence: a cascade of 29 tests with the [i] flag followed by a
      second, nearly identical cascade of 22 tests without it.

    Each cascade is an ordered table of [hint_rule]s read by [first_hint],
    in the order of the [if]s of the source; a regular expression
    [/a|b[- ]?c/] is the list of the literal strings it matches.

    The theorems: the fallback tag is one of the three non-urgent labels
    and its summary is never short; the keyword ["hr"] matches inside
    ordinary words; and the two cascades of [addContextHint] are
    equivalent to the first one followed by a single rule, the only one of
    the second cascade that can still fire (the single-table redesign of
    spec.md, section 9). *)

From Stdlib Require Import Ascii String List Bool Arith Lia.
From S2P Require Import Prelude.
Import ListNotations.
Local Open Scope string_scope.

Module Rules.

(** ** Tags and results *)

Definition tag_urgent : string := "Urgent".
Definition tag_reply : string := "Reply Required".
Definition tag_fyi : string := "FYI".
Definition tag_no_reply : string := "No Reply Needed".

(** [const allowed = ['Urgent', 'Reply Required', 'FYI', 'No Reply Needed']] *)
Definition allowed_tags : list string := [tag_urgent; tag_reply; tag_fyi; tag_no_reply].

(** The object [{ summary, tag }] that the classifiers return. *)
Record classification := mk_classification { summary : string; tag : string }.

(** ** [basicFallback] *)

Definition basicFallback (subject text : string) : classification :=
  if test_ci ["interview"; "hr"; "recruiter"; "hiring"] text then
    mk_classification "Interview-related email; reply to confirm next steps." tag_reply
  else if test_ci ["invite"; "event"; "meetup"; "session"] text then
    mk_classification "Event invitation; reply if you want to attend." tag_reply
  else if test_ci ["let us know"; "would you"; "please reply"; "respond"] text then
    mk_classification "This email asks for your response or confirmation." tag_reply
  else if test_ci ["update"; "announcement"; "newsletter"; "inform"] text then
    mk_classification "This email shares an update or announcement." tag_fyi
  else
    mk_classification
      (match subject with
       | EmptyString => "This email contains general information."
       | _ => "This email is about " ++ lower subject ++ "."
       end)
      tag_no_reply.

(** ** [addContextHint] *)

Record hint_rule := mk_rule { hint_keys : list string; hint_summary : string }.

(** The first rule whose test fires, in table order. *)
Fixpoint first_hint (test : list string -> string -> bool) (rules : list hint_rule)
    (text : string) : option string :=
  match rules with
  | [] => None
  | r :: rs => if test (hint_keys r) text then Some (hint_summary r) else first_hint test rs text
  end.

(** Lines 120-250: the tests with the [i] flag. *)
Definition context_rules_ci : list hint_rule := [
  mk_rule ["one time password"; "otp"; "verification code"; "use this code"]
    "One-time password received for account verification.";
  mk_rule ["new sign-in"; "new sign in"; "new signin"; "signed in"; "login detected"; "new device"]
    "New sign-in detected on your account; review if this was you.";
  mk_rule ["google sign-in"; "google sign in"; "google signin";
           "sign-in to google account"; "sign in to google account"; "signin to google account"]
    "Google account sign-in detected; review activity if unexpected.";
  mk_rule ["security alert"; "unusual activity"; "suspicious activity"]
    "Security alert on your account; review immediately.";
  mk_rule ["password reset"; "reset your password"; "change your password"]
    "Password reset requested; take action if this was you.";
  mk_rule ["verify your email"; "email verification"; "confirm your email"]
    "Email verification required to complete account setup.";
  mk_rule ["access request"; "permission request"; "requested access"; "shared with you"]
    "Access request received; review and approve if appropriate.";
  mk_rule ["new device"; "new browser"; "new location"]
    "New device or location used to access your account.";
  mk_rule ["interview"; "hr"; "recruiter"; "hiring"; "selection"; "availability"; "next round"]
    "Interview-related email; reply to confirm availability.";
  mk_rule ["offer letter"; "job offer"; "we are pleased to offer"]
    "Job offer received; review details and respond.";
  mk_rule ["regret to inform"; "not selected"; "application rejected"]
    "Application update received; no response required.";
  mk_rule ["application status"; "application update"; "under review"]
    "Update on your job application status.";
  mk_rule ["meeting request"; "schedule a call"; "calendar invite"]
    "Meeting request received; reply to schedule or confirm.";
  mk_rule ["event"; "meetup"; "webinar"; "conference"; "session"; "join us"]
    "Event invitation received; reply if you want to attend.";
  mk_rule ["rescheduled"; "new time"; "updated schedule"]
    "Meeting or event has been rescheduled; review updated details.";
  mk_rule ["cancelled"; "canceled"]
    "Meeting or event has been cancelled.";
  mk_rule ["payment due"; "outstanding amount"; "due by"; "overdue"]
    "Payment due; review and complete before the deadline.";
  mk_rule ["invoice"; "receipt"; "payment confirmation"; "transaction successful"]
    "Payment or invoice details received.";
  mk_rule ["refund"; "credited back"; "refund initiated"]
    "Refund update received; check transaction details.";
  mk_rule ["subscription renewal"; "renewal notice"; "renews on"]
    "Subscription renewal notice received.";
  mk_rule ["subscription cancelled"; "cancellation confirmed"]
    "Subscription cancellation confirmed.";
  mk_rule ["plan upgraded"; "plan changed"; "billing plan"]
    "Your service plan has been updated.";
  mk_rule ["special offer"; "limited time offer"; "discount"; "sale"; "deal"]
    "Promotional offer received; check details if interested.";
  mk_rule ["introducing"; "new launch"; "we are excited to announce"]
    "Promotional announcement about a new product or feature.";
  mk_rule ["newsletter"; "weekly digest"; "monthly update"]
    "Newsletter received; informational update.";
  mk_rule ["policy update"; "terms updated"; "privacy policy"]
    "Policy update announced; review changes.";
  mk_rule ["product update"; "new feature"; "feature release"]
    "Product update announced with new changes.";
  mk_rule ["thank you"; "thanks for"; "appreciate"]
    "Thank-you or appreciation message received.";
  mk_rule ["congratulations"; "congrats"]
    "Congratulations message received."
].

(** Lines 253-345: the second cascade, without the [i] flag. *)
Definition context_rules_plain : list hint_rule := [
  mk_rule ["interview"; "hr"; "recruiter"; "hiring"; "selection"; "availability"; "next round"]
    "Interview-related email; reply to confirm availability.";
  mk_rule ["offer letter"; "job offer"; "we are pleased to offer"]
    "Job offer received; review details and respond.";
  mk_rule ["regret to inform"; "not selected"; "application rejected"]
    "Application update received; no response required.";
  mk_rule ["application status"; "application update"; "under review"]
    "Update on your job application status.";
  mk_rule ["meeting request"; "schedule a call"; "calendar invite"]
    "Meeting request received; reply to schedule or confirm.";
  mk_rule ["event"; "meetup"; "webinar"; "conference"; "session"; "join us"]
    "Event invitation received; reply if you want to attend.";
  mk_rule ["rescheduled"; "new time"; "updated schedule"]
    "Meeting or event has been rescheduled; review updated details.";
  mk_rule ["cancelled"; "canceled"]
    "Meeting or event has been cancelled.";
  mk_rule ["payment due"; "outstanding amount"; "due by"]
    "Payment due; review and complete before the deadline.";
  mk_rule ["invoice"; "receipt"; "payment confirmation"]
    "Payment or invoice details received.";
  mk_rule ["refund"; "credited back"]
    "Refund update received; check transaction details.";
  mk_rule ["security alert"; "unusual activity"; "login attempt"]
    "Security alert detected; review immediately.";
  mk_rule ["verify your email"; "email verification"; "confirm your email"]
    "Email verification required; confirm to continue.";
  mk_rule ["password reset"; "reset your password"]
    "Password reset requested; take action if this was you.";
  mk_rule ["subscription renewal"; "renewal notice"]
    "Subscription renewal notice received.";
  mk_rule ["subscription cancelled"; "cancellation confirmed"]
    "Subscription cancellation confirmed.";
  mk_rule ["plan upgraded"; "plan changed"]
    "Your service plan has been updated.";
  mk_rule ["newsletter"; "monthly update"; "weekly digest"]
    "Newsletter received; informational update.";
  mk_rule ["policy update"; "terms updated"; "privacy policy"]
    "Policy update announced; review changes.";
  mk_rule ["product update"; "new feature"; "feature release"]
    "Product update announced with new changes.";
  mk_rule ["thank you"; "thanks for"; "appreciate"]
    "Thank-you or appreciation message received.";
  mk_rule ["congratulations"; "congrats"]
    "Congratulations message received."
].

(** [addContextHint(summary, subject, body, tag)]; the tag is unused. *)
Definition addContextHint (summary subject body tag : string) : string :=
  let text := lower (subject ++ " " ++ body) in
  match first_hint test_ci context_rules_ci text with
  | Some s => s
  | None =>
      match first_hint test_any context_rules_plain text with
      | Some s => s
      | None => summary
      end
  end.

(** ** Lemmas on rule tables *)

Lemma first_hint_app (test : list string -> string -> bool) (r1 r2 : list hint_rule) (t : string) :
  first_hint test (r1 ++ r2) t =
  match first_hint test r1 t with Some s => Some s | None => first_hint test r2 t end.
Proof. induction r1 as [|r r1 IH]; simpl; [reflexivity|]. destruct (test _ _); auto. Qed.

(** On a lower-cased text the [i]-flag table reads like a plain one. *)
Lemma first_hint_ci_lower (rules : list hint_rule) (t : string) :
  first_hint test_ci rules (lower t) = first_hint test_any rules (lower t).
Proof.
  induction rules as [|r rules IH]; simpl; [reflexivity|].
  now rewrite test_ci_lower, IH.
Qed.

(** When no rule of a table fires, none of its keywords occurs. *)
Lemma first_hint_none_absent (rules : list hint_rule) (t : string) :
  first_hint test_any rules t = None ->
  forall k, In k (flat_map hint_keys rules) -> includes t k = false.
Proof.
  induction rules as [|r rules IH]; intros H k Hk; [destruct Hk|]. simpl in H.
  destruct (test_any (hint_keys r) t) eqn:E; [discriminate|].
  apply in_app_or in Hk as [Hk|Hk]; [|exact (IH H k Hk)].
  unfold test_any in E. destruct (includes t k) eqn:Ek; [|reflexivity].
  rewrite (proj2 (existsb_exists _ _) (ex_intro _ k (conj Hk Ek))) in E. discriminate.
Qed.

(** The keywords of [ks] that are not already in [known]. *)
Definition fresh_keys (known ks : list string) : list string :=
  filter (fun k => negb (existsb (String.eqb k) known)) ks.

(** A table with the keywords of [known] removed, and the rules left
    without keywords dropped. *)
Definition prune (known : list string) (rules : list hint_rule) : list hint_rule :=
  flat_map (fun r => match fresh_keys known (hint_keys r) with
                     | [] => []
                     | ks => [mk_rule ks (hint_summary r)]
                     end) rules.

Lemma test_any_fresh (known ks : list string) (t : string) :
  (forall k, In k known -> includes t k = false) ->
  test_any ks t = test_any (fresh_keys known ks) t.
Proof.
  intros Hk. induction ks as [|k ks IH]; [reflexivity|]. unfold fresh_keys in *. simpl.
  destruct (existsb (String.eqb k) known) eqn:E; simpl; unfold test_any in *; simpl; rewrite IH; [|reflexivity].
  apply existsb_exists in E as [k' [Hin Heq]]. apply String.eqb_eq in Heq. subst k'.
  now rewrite (Hk k Hin).
Qed.

(** Removing keywords known to be absent does not change the outcome. *)
Lemma first_hint_prune (known : list string) (rules : list hint_rule) (t : string) :
  (forall k, In k known -> includes t k = false) ->
  first_hint test_any rules t = first_hint test_any (prune known rules) t.
Proof.
  intros Hk. induction rules as [|r rules IH]; [reflexivity|].
  cbn [first_hint]. unfold prune. cbn [flat_map]. fold (prune known rules).
  rewrite (test_any_fresh known (hint_keys r)) by exact Hk. rewrite IH.
  destruct (fresh_keys known (hint_keys r)) as [|k ks]; reflexivity.
Qed.

(** ** The single table of [addContextHint] *)

(** The first cascade followed by the one rule of the second cascade that
    any text can still reach: "login attempt". *)
Definition context_table : list hint_rule :=
  context_rules_ci ++ [mk_rule ["login attempt"] "Security alert detected; review immediately."].

(** C6: [addContextHint] with its two cascades equals one ordered table
    read once (the first cascade and a "login attempt" rule): every other
    test of the second cascade repeats keywords of the first and can
    never fire. *)
Theorem addContextHint_single_table (summary subject body tag : string) :
  addContextHint summary subject body tag =
  match first_hint test_any context_table (lower (subject ++ " " ++ body)) with
  | Some s => s
  | None => summary
  end.
Proof.
  unfold addContextHint, context_table. rewrite first_hint_ci_lower, first_hint_app.
  destruct (first_hint test_any context_rules_ci _) eqn:E; [reflexivity|].
  rewrite (first_hint_prune (flat_map hint_keys context_rules_ci))
    by (apply first_hint_none_absent; exact E).
  vm_compute prune. reflexivity.
Qed.

(** ** [basicFallback] *)

(** C27: the rule classifier never returns "Urgent": its tag is one of the
    three other labels, whatever the text (spec.md, section 4.3, puts an
    Urgent tier first). *)
Theorem basicFallback_tag (subject text : string) :
  In (tag (basicFallback subject text)) [tag_reply; tag_fyi; tag_no_reply].
Proof.
  unfold basicFallback.
  repeat match goal with |- context [if ?b then _ else _] => destruct b end; simpl; tauto.
Qed.

(** The fallback summary has at least ten code units, so
    [processEmail]'s check [summary.length < 10] never rejects it. *)
Theorem basicFallback_summary_length (subject text : string) :
  10 <= String.length (summary (basicFallback subject text)).
Proof.
  unfold basicFallback.
  repeat match goal with |- context [if ?b then _ else _] => destruct b end;
    simpl; lia.
Qed.

(** C32: the keyword "hr" is searched anywhere in the text, so any text
    containing "through", "three" or "Christmas" is classified as an
    interview e-mail that needs a reply. *)
Theorem basicFallback_hr_substring (subject text : string) :
  includes (lower text) "hr" = true ->
  basicFallback subject text =
  mk_classification "Interview-related email; reply to confirm next steps." tag_reply.
Proof.
  intros H. unfold basicFallback, test_ci, test_any. simpl. now rewrite H, orb_true_r.
Qed.

Lemma basicFallback_hr_substring_witness :
  includes (lower "We walked through the plan") "hr" = true /\
  basicFallback "" "We walked through the plan" =
  mk_classification "Interview-related email; reply to confirm next steps." tag_reply.
Proof.
  split; [reflexivity|]. apply basicFallback_hr_substring. reflexivity.
Defined.

(** ** What [addContextHint] can return *)

Lemma first_hint_in (test : list string -> string -> bool) (rules : list hint_rule)
    (t x : string) :
  first_hint test rules t = Some x -> In x (map hint_summary rules).
Proof.
  induction rules as [|r rules IH]; simpl; [discriminate|].
  destruct (test _ _); [injection 1 as <-; now left | intros H; right; auto].
Qed.

(** The summary it is given, or one of the canned sentences. *)
Lemma addContextHint_cases (s subject body t : string) :
  addContextHint s subject body t = s \/
  In (addContextHint s subject body t) (map hint_summary (context_rules_ci ++ context_rules_plain)).
Proof.
  unfold addContextHint. rewrite map_app.
  destruct (first_hint test_ci _ _) eqn:E1;
    [right; apply in_or_app; left; eapply first_hint_in; eauto|].
  destruct (first_hint test_any _ _) eqn:E2; [|now left].
  right. apply in_or_app. right. eapply first_hint_in; eauto.
Qed.

Lemma canned_summaries_length :
  forall x, In x (map hint_summary (context_rules_ci ++ context_rules_plain)) ->
  10 <= String.length x.
Proof.
  intros x Hx. apply Nat.leb_le. revert x Hx. apply forallb_forall. vm_compute. reflexivity.
Qed.

End Rules.
