(* ===== verification/AIPath.v ===== *)
(** * AIPath: [AIProcessor.processEmail] and its helpers (src/ai.js)

    [processEmail] (lines 36-62) loads the settings once and caches them
    ([loadSettings], lines 28-34), cleans the body, and either classifies
    with the rules ([basicFallback]) or calls the model ([callAI], lines
    80-111), checks the summary's length, and passes it through
    [addContextHint].

    The network call is the only effect that is not modelled: its outcome
    is an input, [ai_reply], which is either a failure (the fetch rejects,
    the body is not JSON, [data.choices[0].message.content] is missing, or
    [JSON.parse] throws; all of them land in the same [catch]) or the
    parsed JSON value of the message content.  The model then follows the
    code: [parsed.summary.trim()] throws unless [summary] is a string, and
    [validateTag] keeps a tag only if it is one of the four labels.

    The theorems: the tag of every result is one of the four labels and its
    summary has at least ten code units; without a key the result is the
    rule classifier's; a failed call uses the rules without the subject; a
    reply's summary is not bounded in words; and the cached settings make
    a key saved later invisible. *)

From Stdlib Require Import Ascii String List Bool Arith Lia.
From S2P Require Import Prelude Sanitizer Rules.
Import ListNotations.
Local Open Scope string_scope.

Module AIPath.
Import Sanitizer Rules.

(** ** JSON values as [JSON.parse] returns them *)

Local Unset Elimination Schemes.
Inductive json : Type :=
| JNull
| JBool (b : bool)
| JNum (n : nat)
| JStr (s : string)
| JArr (items : list json)
| JObj (fields : list (string * json)).
Local Set Elimination Schemes.

(** [v.k] on a parsed value: an own property of an object (the last of
    duplicated keys, as [JSON.parse] overwrites them), [None] for
    [undefined] (and for [null], where the code's [catch] makes the two
    cases alike). *)
Fixpoint get_field (k : string) (fields : list (string * json)) : option json :=
  match fields with
  | [] => None
  | (k', v) :: fs =>
      match get_field k fs with
      | Some v' => Some v'
      | None => if String.eqb k k' then Some v else None
      end
  end.

Definition get_prop (v : json) (k : string) : option json :=
  match v with
  | JObj fs => get_field k fs
  | _ => None
  end.

(** ** [validateTag] and [callAI] *)

Definition validateTag (v : option json) : string :=
  match v with
  | Some (JStr t) => if existsb (String.eqb t) allowed_tags then t else tag_fyi
  | _ => tag_fyi
  end.

Inductive ai_reply : Type :=
| ReplyFailed
| ReplyParsed (parsed : json).

Definition callAI (text : string) (reply : ai_reply) : classification :=
  match reply with
  | ReplyFailed => basicFallback "" text
  | ReplyParsed parsed =>
      match get_prop parsed "summary" with
      | Some (JStr s) => mk_classification (trim s) (validateTag (get_prop parsed "tag"))
      | _ => basicFallback "" text
      end
  end.

(** ** Settings and [processEmail] *)

(** The stored [settings] object; [aiApiKey] is [None] for [null] or a
    missing key. *)
Record ai_settings := mk_settings { aiApiKey : option string }.

(** A JavaScript string is truthy when it is not empty. *)
Definition truthy_str (s : string) : bool :=
  match s with EmptyString => false | _ => true end.

Definition key_present (st : ai_settings) : bool :=
  match aiApiKey st with Some k => truthy_str k | None => false end.

(** The processor's only field, [this.settings], initially [null]. *)
Record ai_processor := mk_processor { cached_settings : option ai_settings }.

Definition initial_processor : ai_processor := mk_processor None.

(** [loadSettings]: read the store on the first call only. *)
Definition loadSettings (p : ai_processor) (stored : option ai_settings) :
    ai_processor * ai_settings :=
  match cached_settings p with
  | Some s => (p, s)
  | None =>
      let s := match stored with Some s => s | None => mk_settings None end in
      (mk_processor (Some s), s)
  end.

Definition processEmail (p : ai_processor) (stored : option ai_settings)
    (subject body : string) (reply : ai_reply) : ai_processor * classification :=
  let (p', settings) := loadSettings p stored in
  let cleaned := cleanEmail body in
  if negb (key_present settings) || negb (truthy_str cleaned) then
    (p', basicFallback subject cleaned)
  else
    let aiResult := callAI cleaned reply in
    if negb (truthy_str (summary aiResult)) || Nat.ltb (String.length (summary aiResult)) 10 then
      (p', basicFallback subject cleaned)
    else
      (p', mk_classification (addContextHint (summary aiResult) subject cleaned (tag aiResult))
                             (tag aiResult)).

(** ** Theorems *)

Lemma validateTag_allowed (v : option json) : In (validateTag v) allowed_tags.
Proof.
  destruct v as [[]|]; cbn [validateTag]; try (right; right; left; reflexivity).
  destruct (existsb (String.eqb s) allowed_tags) eqn:E; [|right; right; left; reflexivity].
  apply existsb_exists in E as [t [Hin Heq]]. apply String.eqb_eq in Heq. now subst.
Qed.

Lemma basicFallback_tag_allowed (subject text : string) :
  In (tag (basicFallback subject text)) allowed_tags.
Proof.
  unfold basicFallback.
  repeat match goal with |- context [if ?b then _ else _] => destruct b end; simpl; tauto.
Qed.

Lemma callAI_tag_allowed (text : string) (reply : ai_reply) :
  In (tag (callAI text reply)) allowed_tags.
Proof.
  destruct reply as [|parsed]; simpl; [apply basicFallback_tag_allowed|].
  destruct (get_prop parsed "summary") as [[]|];
    first [apply validateTag_allowed | apply basicFallback_tag_allowed].
Qed.

(** C3: every result of [processEmail] is a well-formed classification: its
    tag is one of the four labels and its summary has at least ten code
    units, whatever the settings, the e-mail and the model's reply. *)
Theorem processEmail_result_ok (p : ai_processor) (stored : option ai_settings)
    (subject body : string) (reply : ai_reply) :
  let r := snd (processEmail p stored subject body reply) in
  In (tag r) allowed_tags /\ 10 <= String.length (summary r).
Proof.
  unfold processEmail. destruct (loadSettings p stored) as [p' st].
  destruct (_ || _); [simpl; split; [apply basicFallback_tag_allowed | apply basicFallback_summary_length]|].
  destruct (_ || _) eqn:E; simpl;
    [split; [apply basicFallback_tag_allowed | apply basicFallback_summary_length]|].
  split; [apply callAI_tag_allowed|].
  apply orb_false_iff in E as [_ E]. apply Nat.ltb_ge in E.
  destruct (addContextHint_cases (summary (callAI (cleanEmail body) reply)) subject
              (cleanEmail body) (tag (callAI (cleanEmail body) reply))) as [-> | H];
    [exact E | now apply canned_summaries_length].
Qed.

(** C25: without an API key (or when the cleaned body is empty) the result is
    exactly the rule classifier's on the cleaned body, whatever the reply. *)
Theorem processEmail_without_key (p : ai_processor) (stored : option ai_settings)
    (subject body : string) (reply : ai_reply) :
  key_present (snd (loadSettings p stored)) = false ->
  snd (processEmail p stored subject body reply) = basicFallback subject (cleanEmail body).
Proof.
  intros H. unfold processEmail. destruct (loadSettings p stored) as [p' st]. simpl in H.
  now rewrite H.
Qed.

(** C26: when the call fails, the rules run on the cleaned body with an
    empty subject (the [catch] of [callAI] calls [basicFallback('', text)])
    and the result still goes through [addContextHint]: it differs from
    the rule classifier that spec.md, section 4.4, falls back to. *)
Theorem processEmail_call_failed (p : ai_processor) (stored : option ai_settings)
    (subject body : string) :
  key_present (snd (loadSettings p stored)) = true ->
  truthy_str (cleanEmail body) = true ->
  snd (processEmail p stored subject body ReplyFailed) =
  let b := basicFallback "" (cleanEmail body) in
  mk_classification (addContextHint (summary b) subject (cleanEmail body) (tag b)) (tag b).
Proof.
  intros Hk Hc. unfold processEmail. destruct (loadSettings p stored) as [p' st].
  simpl in Hk. rewrite Hk, Hc. cbn [negb orb callAI].
  set (b := basicFallback "" (cleanEmail body)).
  assert (Hl : 10 <= String.length (summary b)) by apply basicFallback_summary_length.
  replace (truthy_str (summary b)) with true by (destruct (summary b); simpl in *; [lia | reflexivity]).
  replace (Nat.ltb (String.length (summary b)) 10) with false by (symmetry; apply Nat.ltb_ge; lia).
  reflexivity.
Qed.

Lemma processEmail_fst (p : ai_processor) (stored : option ai_settings)
    (subject body : string) (reply : ai_reply) :
  fst (processEmail p stored subject body reply) = fst (loadSettings p stored).
Proof.
  unfold processEmail. destruct (loadSettings p stored) as [p' st].
  destruct (_ || _); [|destruct (_ || _)]; reflexivity.
Qed.

Lemma loadSettings_caches (p : ai_processor) (stored stored' : option ai_settings) :
  loadSettings (fst (loadSettings p stored)) stored' = loadSettings p stored.
Proof. unfold loadSettings. destruct (cached_settings p) eqn:E; simpl; [now rewrite E | reflexivity]. Qed.

(** [processEmail] reads the store only through [loadSettings]. *)
Lemma processEmail_load_eq (p : ai_processor) (st1 st2 : option ai_settings)
    (subject body : string) (reply : ai_reply) :
  loadSettings p st1 = loadSettings p st2 ->
  processEmail p st1 subject body reply = processEmail p st2 subject body reply.
Proof. intros H. unfold processEmail. now rewrite H. Qed.

(** C31: the settings are read from the store once, by the first call; the
    store passed to any later call is ignored, so a key saved from the
    popup after the first e-mail is never used until the worker restarts. *)
Theorem processEmail_settings_cached (stored1 stored2 : option ai_settings)
    (s1 b1 s2 b2 : string) (r1 r2 : ai_reply) :
  let p1 := fst (processEmail initial_processor stored1 s1 b1 r1) in
  processEmail p1 stored2 s2 b2 r2 = processEmail p1 stored1 s2 b2 r2.
Proof.
  cbv zeta. apply processEmail_load_eq. rewrite processEmail_fst.
  now rewrite !loadSettings_caches.
Qed.

Lemma processEmail_without_key_witness :
  key_present (snd (loadSettings initial_processor None)) = false /\
  snd (processEmail initial_processor None "Lunch" "See you at noon" ReplyFailed) =
  basicFallback "Lunch" (cleanEmail "See you at noon").
Proof. split; [reflexivity|]. apply processEmail_without_key. reflexivity. Defined.

Lemma processEmail_call_failed_witness :
  key_present (snd (loadSettings initial_processor (Some (mk_settings (Some "sk-1"))))) = true /\
  truthy_str (cleanEmail "Numbers attached") = true /\
  snd (processEmail initial_processor (Some (mk_settings (Some "sk-1"))) "Quarterly results"
         "Numbers attached" ReplyFailed) =
  mk_classification "This email contains general information." tag_no_reply.
Proof.
  split; [reflexivity|]. split; [reflexivity|].
  rewrite processEmail_call_failed by reflexivity. vm_compute. reflexivity.
Defined.

(** The model's summary is not bounded in words: a reply of sixty words
    with a valid tag is returned as it is (spec.md, section 4.4, replaces
    any summary over 35 words by an emergency summary). *)
Theorem processEmail_summary_unbounded :
  let reply := ReplyParsed (JObj [("summary", JStr (repeat_words 60 "data")); ("tag", JStr "FYI")]) in
  let r := snd (processEmail initial_processor (Some (mk_settings (Some "sk-1")))
                  "Q3" "Figures attached" reply) in
  word_count (summary r) = 60 /\ tag r = tag_fyi.
Proof. vm_compute. split; reflexivity. Qed.

End AIPath.
