(* ===== verification/Base64.v ===== *)
(** * Base64: [GmailAPI.decodeBase64] (src/gmail.js, lines 142-153)

    [decodeBase64] maps the URL-safe alphabet to the standard one
    ([-] to [+], [_] to [/]), decodes with [atob], writes each byte as a
    [%XX] escape and decodes the escapes with [decodeURIComponent], which
    reads them as UTF-8.  Any exception ([atob]'s InvalidCharacterError,
    [decodeURIComponent]'s URIError) yields the empty string.

    - [atob] follows the "forgiving-base64 decode" of the HTML standard:
      remove ASCII whitespace, drop one or two trailing [=] when the
      length is a multiple of 4, fail on a length of 1 modulo 4 or on a
      unit outside [A-Za-z0-9+/], then read 6 bits per unit, dropping the
      4 or 2 bits left over at the end;
    - [utf8_decode] is the [Decode] operation of ECMAScript on escapes
      that are all [%XX]: a lead byte with 1 or more than 4 leading ones,
      a missing or wrong continuation byte, an overlong form, a surrogate
      or a code point above U+10FFFF throws; the result is a list of UTF-16
      code units (a pair of surrogates above U+FFFF).

    Bytes and code units are [Z].  The rest of the development works on
    strings of units below 256 (see [Prelude]): [decode_text] is the
    decoder the extractor is instantiated with, and a decoded body with a
    unit of 256 or more is outside that character model (it is mapped to
    the empty string there, which the code does not do). *)

From Stdlib Require Import Ascii String List Bool ZArith Lia.
From S2P Require Import Prelude.
Import ListNotations.
Local Open Scope string_scope.

Module Base64.

(** ** [base64String.replace(/-/g, '+').replace(/_/g, '/')] *)

Fixpoint replace_char (a b : ascii) (s : string) : string :=
  match s with
  | EmptyString => EmptyString
  | String c s' => String (if Ascii.eqb c a then b else c) (replace_char a b s')
  end.

Definition normalize (s : string) : string := replace_char "_" "/" (replace_char "-" "+" s).

(** ** [atob] *)

(** ASCII whitespace of the Infra standard: TAB, LF, FF, CR, SPACE. *)
Definition is_ascii_ws (c : ascii) : bool :=
  let n := nat_of_ascii c in
  (n =? 9)%nat || (n =? 10)%nat || (n =? 12)%nat || (n =? 13)%nat || (n =? 32)%nat.

Fixpoint remove_ascii_ws (s : string) : string :=
  match s with
  | EmptyString => EmptyString
  | String c s' => if is_ascii_ws c then remove_ascii_ws s' else String c (remove_ascii_ws s')
  end.

Definition strip_padding (s : string) : string :=
  let n := String.length s in
  if (n mod 4 =? 0)%nat then
    if prefix "==" (drop (n - 2) s) then take (n - 2) s
    else if prefix "=" (drop (n - 1) s) then take (n - 1) s
    else s
  else s.

Local Open Scope Z_scope.

(** The value of a unit of the standard alphabet. *)
Definition b64_value (c : ascii) : option Z :=
  let n := Z.of_nat (nat_of_ascii c) in
  if (65 <=? n) && (n <=? 90) then Some (n - 65)
  else if (97 <=? n) && (n <=? 122) then Some (n - 71)
  else if (48 <=? n) && (n <=? 57) then Some (n + 4)
  else if n =? 43 then Some 62
  else if n =? 47 then Some 63
  else None.

Fixpoint sextets (s : string) : option (list Z) :=
  match s with
  | EmptyString => Some []
  | String c s' =>
      match b64_value c, sextets s' with
      | Some v, Some vs => Some (v :: vs)
      | _, _ => None
      end
  end.

(** 24 bits give three bytes; 18 bits two bytes (2 bits dropped); 12
    bits one byte (4 bits dropped). *)
Fixpoint decode_groups (xs : list Z) : list Z :=
  match xs with
  | a :: b :: c :: d :: rest =>
      let n := a * 262144 + b * 4096 + c * 64 + d in
      n / 65536 :: (n / 256) mod 256 :: n mod 256 :: decode_groups rest
  | [a; b; c] => let n := (a * 4096 + b * 64 + c) / 4 in [n / 256; n mod 256]
  | [a; b] => [(a * 64 + b) / 16]
  | _ => []
  end.

Definition atob (s : string) : option (list Z) :=
  let d := strip_padding (remove_ascii_ws s) in
  if (String.length d mod 4 =? 1)%nat then None
  else match sextets d with
       | Some xs => Some (decode_groups xs)
       | None => None
       end.

(** ** [decodeURIComponent] on [%XX] escapes *)

Definition is_cont (b : Z) : bool := (128 <=? b) && (b <? 192).

Definition utf16_units (cp : Z) : list Z :=
  if cp <? 65536 then [cp]
  else [55296 + (cp - 65536) / 1024; 56320 + (cp - 65536) mod 1024].

Definition emit (cp : Z) (rest : option (list Z)) : option (list Z) :=
  match rest with Some u => Some (utf16_units cp ++ u)%list | None => None end.

Fixpoint utf8_decode (bs : list Z) : option (list Z) :=
  match bs with
  | [] => Some []
  | b :: rest =>
      if b <? 128 then emit b (utf8_decode rest)
      else if (192 <=? b) && (b <? 224) then
        match rest with
        | b1 :: rest' =>
            let cp := (b mod 32) * 64 + b1 mod 64 in
            if is_cont b1 && (128 <=? cp) then emit cp (utf8_decode rest') else None
        | _ => None
        end
      else if (224 <=? b) && (b <? 240) then
        match rest with
        | b1 :: b2 :: rest' =>
            let cp := (b mod 16) * 4096 + (b1 mod 64) * 64 + b2 mod 64 in
            if is_cont b1 && is_cont b2 && (2048 <=? cp) && negb ((55296 <=? cp) && (cp <=? 57343))
            then emit cp (utf8_decode rest') else None
        | _ => None
        end
      else if (240 <=? b) && (b <? 248) then
        match rest with
        | b1 :: b2 :: b3 :: rest' =>
            let cp := (b mod 8) * 262144 + (b1 mod 64) * 4096 + (b2 mod 64) * 64 + b3 mod 64 in
            if is_cont b1 && is_cont b2 && is_cont b3 && (65536 <=? cp) && (cp <=? 1114111)
            then emit cp (utf8_decode rest') else None
        | _ => None
        end
      else None
  end.

(** ** [decodeBase64] *)

Definition decodeBase64 (s : string) : list Z :=
  match atob (normalize s) with
  | Some bytes => match utf8_decode bytes with Some u => u | None => [] end
  | None => []
  end.

(** The decoded units as a string of the character model. *)
Fixpoint latin1_of_units (u : list Z) : option string :=
  match u with
  | [] => Some EmptyString
  | x :: xs =>
      if (0 <=? x) && (x <? 256) then
        match latin1_of_units xs with
        | Some t => Some (String (ascii_of_nat (Z.to_nat x)) t)
        | None => None
        end
      else None
  end.

Definition decode_text (data : string) : string :=
  match latin1_of_units (decodeBase64 data) with Some t => t | None => EmptyString end.

(** ** The encoder of the message bodies (RFC 4648, section 5)

    The Gmail API sends [body.data] in the URL-safe alphabet.  [encode]
    is that encoding, with or without the [=] padding; it is the
    specification the decoder is checked against, not code of the
    repository. *)

Definition b64_char (v : Z) : ascii :=
  if v <? 26 then ascii_of_nat (Z.to_nat (v + 65))
  else if v <? 52 then ascii_of_nat (Z.to_nat (v + 71))
  else if v <? 62 then ascii_of_nat (Z.to_nat (v - 4))
  else if v =? 62 then "+"%char else "/"%char.

Definition b64url_char (v : Z) : ascii :=
  if v =? 62 then "-"%char else if v =? 63 then "_"%char else b64_char v.

Fixpoint to_sextets (bs : list Z) : list Z :=
  match bs with
  | b0 :: b1 :: b2 :: rest =>
      let n := b0 * 65536 + b1 * 256 + b2 in
      n / 262144 :: (n / 4096) mod 64 :: (n / 64) mod 64 :: n mod 64 :: to_sextets rest
  | [b0; b1] => let n := b0 * 65536 + b1 * 256 in [n / 262144; (n / 4096) mod 64; (n / 64) mod 64]
  | [b0] => let n := b0 * 65536 in [n / 262144; (n / 4096) mod 64]
  | [] => []
  end.

Fixpoint padding (bs : list Z) : string :=
  match bs with
  | _ :: _ :: _ :: rest => padding rest
  | [_; _] => "="
  | [_] => "=="
  | [] => ""
  end.

Fixpoint chars (f : Z -> ascii) (xs : list Z) : string :=
  match xs with
  | [] => EmptyString
  | x :: xs' => String (f x) (chars f xs')
  end.

Definition encode (pad : bool) (bs : list Z) : string :=
  chars b64url_char (to_sextets bs) ++ (if pad then padding bs else "").

(** The UTF-8 bytes of a string of ASCII characters are its codes. *)
Definition bytes_of (s : string) : list Z :=
  map (fun c => Z.of_nat (nat_of_ascii c)) (list_ascii_of_string s).

Definition is_ascii (c : ascii) : bool := Nat.ltb (nat_of_ascii c) 128.

(** The UTF-8 bytes of a text (RFC 3629): a unit below 128 is one byte,
    a unit from 128 to 255 the two bytes [110xxxxx 10xxxxxx]. *)
Definition utf8_unit (n : Z) : list Z :=
  if n <? 128 then [n] else [192 + n / 64; 128 + n mod 64].

Definition utf8_of (s : string) : list Z := flat_map utf8_unit (bytes_of s).

(** ** The decoder inverts the encoder *)

(** A property of sextets checked on the 64 values. *)
Lemma sextet_check (P : Z -> bool) :
  forallb P (map Z.of_nat (seq 0 64)) = true -> forall v, 0 <= v < 64 -> P v = true.
Proof.
  intros H v Hv. rewrite forallb_forall in H. apply H, in_map_iff.
  exists (Z.to_nat v). split; [lia|]. apply in_seq. lia.
Qed.

Definition norm_char (c : ascii) : ascii :=
  let c1 := if Ascii.eqb c "-" then "+"%char else c in
  if Ascii.eqb c1 "_" then "/"%char else c1.

Lemma normalize_cons (c : ascii) (s : string) :
  normalize (String c s) = String (norm_char c) (normalize s).
Proof. reflexivity. Qed.

Lemma normalize_app (s t : string) : normalize (s ++ t) = normalize s ++ normalize t.
Proof. induction s as [|c s IH]; [reflexivity|]. simpl append. now rewrite !normalize_cons, IH. Qed.

Definition in_sextet_range (xs : list Z) : Prop := Forall (fun v => 0 <= v < 64) xs.

Lemma normalize_chars (xs : list Z) :
  in_sextet_range xs -> normalize (chars b64url_char xs) = chars b64_char xs.
Proof.
  induction 1 as [|v xs Hv _ IH]; [reflexivity|]. simpl chars. rewrite normalize_cons, IH.
  f_equal. apply Ascii.eqb_eq.
  exact (sextet_check (fun v => Ascii.eqb (norm_char (b64url_char v)) (b64_char v)) eq_refl v Hv).
Qed.

Definition not_pad (c : ascii) : bool := negb (Ascii.eqb c "=") && negb (is_ascii_ws c).

Lemma chars_not_pad (xs : list Z) : in_sextet_range xs -> all_chars not_pad (chars b64_char xs) = true.
Proof.
  induction 1 as [|v xs Hv _ IH]; [reflexivity|]. simpl. rewrite IH, andb_true_r.
  exact (sextet_check (fun v => not_pad (b64_char v)) eq_refl v Hv).
Qed.

Lemma sextets_chars (xs : list Z) : in_sextet_range xs -> sextets (chars b64_char xs) = Some xs.
Proof.
  induction 1 as [|v xs Hv _ IH]; [reflexivity|]. simpl. rewrite IH.
  pose proof (sextet_check (fun v => match b64_value (b64_char v) with
                                     | Some w => w =? v | None => false end) eq_refl v Hv) as H.
  simpl in H. destruct (b64_value (b64_char v)); [|discriminate]. apply Z.eqb_eq in H. now subst.
Qed.

Lemma chars_length (f : Z -> ascii) (xs : list Z) : String.length (chars f xs) = length xs.
Proof. induction xs; simpl; auto. Qed.

Lemma remove_ascii_ws_id (s : string) :
  all_chars (fun c => negb (is_ascii_ws c)) s = true -> remove_ascii_ws s = s.
Proof.
  induction s as [|c s IH]; simpl; [reflexivity|]. intros H.
  apply andb_prop in H as [Hc H]. apply negb_true_iff in Hc. now rewrite Hc, IH.
Qed.

Lemma not_pad_ws (s : string) :
  all_chars not_pad s = true -> all_chars (fun c => negb (is_ascii_ws c)) s = true.
Proof.
  induction s as [|c s IH]; simpl; [reflexivity|]. unfold not_pad.
  intros H. apply andb_prop in H as [Hc H]. apply andb_prop in Hc as [_ Hw].
  rewrite Hw. simpl. now apply IH.
Qed.

(** Past a unit that is not [=], no padding is found. *)
Lemma drop_no_pad (A B p : string) (k : nat) :
  all_chars not_pad A = true -> (k < String.length A)%nat ->
  prefix (String "=" p) (drop k (A ++ B)) = false.
Proof.
  revert k. induction A as [|c A IH]; intros k HA Hk; simpl in Hk; [lia|].
  simpl in HA. apply andb_prop in HA as [Hc HA]. destruct k as [|k].
  - cbn [drop append prefix]. destruct (ascii_dec "=" c) as [<-|]; [discriminate | reflexivity].
  - cbn [drop append]. apply IH; [exact HA | lia].
Qed.

(** Induction three bytes at a time, as the encoder reads them. *)
Lemma list3_ind {A : Type} (P : list A -> Prop) :
  P [] -> (forall a, P [a]) -> (forall a b, P [a; b]) ->
  (forall a b c l, P l -> P (a :: b :: c :: l)) -> forall l, P l.
Proof.
  intros H0 H1 H2 H3. fix IH 1. intros [|a [|b [|c l]]]; [exact H0 | apply H1 | apply H2 | apply H3, IH].
Qed.

Lemma padding_cases (bs : list Z) : padding bs = "" \/ padding bs = "=" \/ padding bs = "==".
Proof. induction bs using list3_ind; simpl; auto. Qed.

Lemma drop_no_pad_nil (A p : string) (k : nat) :
  all_chars not_pad A = true -> (k < String.length A)%nat ->
  prefix (String "=" p) (drop k A) = false.
Proof. intros HA Hk. rewrite <- (append_nil_r A) at 1. now apply drop_no_pad. Qed.

Lemma strip_padding_app (A P : string) :
  all_chars not_pad A = true ->
  (P = "" \/ ((String.length A + String.length P) mod 4 = 0)%nat /\ (P = "=" \/ P = "==")) ->
  strip_padding (A ++ P) = A.
Proof.
  intros HA [-> | [Hm [-> | ->]]]; rewrite ?append_nil_r; unfold strip_padding.
  - destruct A as [|c A']; [reflexivity|]. destruct (_ =? 0)%nat; [|reflexivity].
    rewrite !drop_no_pad_nil by (auto; simpl; lia). reflexivity.
  - rewrite length_append in *. simpl String.length in *. rewrite Hm. simpl Nat.eqb. cbv match.
    assert (1 <= String.length A)%nat by (destruct A; [discriminate Hm | simpl; lia]).
    rewrite drop_no_pad by (auto; lia).
    replace (String.length A + 1 - 1)%nat with (String.length A) by lia.
    now rewrite drop_app, take_app.
  - rewrite length_append in *. simpl String.length in *. rewrite Hm. simpl Nat.eqb. cbv match.
    replace (String.length A + 2 - 2)%nat with (String.length A) by lia.
    now rewrite drop_app, take_app.
Qed.

(** ** Bytes and groups *)

Definition is_byte (b : Z) : Prop := 0 <= b < 256.

Ltac inv_bytes := repeat match goal with H : Forall _ (_ :: _) |- _ => inversion_clear H end.

Lemma group3 b0 b1 b2 : is_byte b0 -> is_byte b1 -> is_byte b2 ->
  let n := b0 * 65536 + b1 * 256 + b2 in
  let m := n / 262144 * 262144 + (n / 4096) mod 64 * 4096 + (n / 64) mod 64 * 64 + n mod 64 in
  m / 65536 = b0 /\ (m / 256) mod 256 = b1 /\ m mod 256 = b2.
Proof. unfold is_byte. cbv zeta. intros. Z.div_mod_to_equations. lia. Qed.

Lemma group2 b0 b1 : is_byte b0 -> is_byte b1 ->
  let n := b0 * 65536 + b1 * 256 in
  let m := (n / 262144 * 4096 + (n / 4096) mod 64 * 64 + (n / 64) mod 64) / 4 in
  m / 256 = b0 /\ m mod 256 = b1.
Proof. unfold is_byte. cbv zeta. intros. Z.div_mod_to_equations. lia. Qed.

Lemma group1 b0 : is_byte b0 ->
  let n := b0 * 65536 in (n / 262144 * 64 + (n / 4096) mod 64) / 16 = b0.
Proof. unfold is_byte. cbv zeta. intros. Z.div_mod_to_equations. lia. Qed.

Lemma sextet_div (n : Z) : 0 <= n < 16777216 -> 0 <= n / 262144 < 64.
Proof. intros. Z.div_mod_to_equations. lia. Qed.

Lemma sextet_mod (n : Z) : 0 <= n mod 64 < 64.
Proof. apply Z.mod_pos_bound. lia. Qed.

Lemma to_sextets_range (bs : list Z) : Forall is_byte bs -> in_sextet_range (to_sextets bs).
Proof.
  unfold is_byte, in_sextet_range.
  induction bs as [|a|a b|a b c l IH] using list3_ind; intros H; inv_bytes;
    simpl; repeat constructor; try apply sextet_mod; try (apply sextet_div; lia); auto.
Qed.

Lemma decode_to_sextets (bs : list Z) : Forall is_byte bs -> decode_groups (to_sextets bs) = bs.
Proof.
  induction bs as [|a|a b|a b c l IH] using list3_ind; intros H; inv_bytes; [reflexivity|..].
  - simpl. f_equal. now apply group1.
  - simpl. destruct (group2 a b) as [-> ->]; auto.
  - simpl to_sextets. cbn [decode_groups]. destruct (group3 a b c) as (-> & -> & ->); auto.
    now rewrite IH.
Qed.

Lemma to_sextets_length (bs : list Z) :
  (length (to_sextets bs) mod 4 <> 1 /\
   (length (to_sextets bs) + String.length (padding bs)) mod 4 = 0)%nat.
Proof.
  induction bs as [|a|a b|a b c l IH] using list3_ind; try (split; [discriminate | reflexivity]).
  cbn [to_sextets padding length]. destruct IH as [IH1 IH2].
  replace (S (S (S (S (length (to_sextets l)))))) with (length (to_sextets l) + 1 * 4)%nat by lia.
  rewrite <- Nat.add_assoc, (Nat.add_comm (1 * 4)), Nat.add_assoc, !Nat.Div0.mod_add. auto.
Qed.

(** ** The unit stream after [normalize], whitespace removal and padding *)

Definition tail_of (pad : bool) (bs : list Z) : string := if pad then padding bs else "".

Lemma tail_of_shape (pad : bool) (bs : list Z) :
  normalize (tail_of pad bs) = tail_of pad bs /\
  all_chars (fun c => negb (is_ascii_ws c)) (tail_of pad bs) = true /\
  (tail_of pad bs = "" \/
   ((length (to_sextets bs) + String.length (tail_of pad bs)) mod 4 = 0)%nat /\
   (tail_of pad bs = "=" \/ tail_of pad bs = "==")).
Proof.
  destruct pad; simpl; [|intuition]. pose proof (proj2 (to_sextets_length bs)).
  destruct (padding_cases bs) as [E|[E|E]]; rewrite E in *; intuition.
Qed.

(** [atob] after the alphabet mapping of [decodeBase64] inverts the
    URL-safe encoding, padded or not: every byte string sent by the API is
    recovered exactly. *)
Lemma atob_normalize_encode (pad : bool) (bs : list Z) :
  Forall is_byte bs -> atob (normalize (encode pad bs)) = Some bs.
Proof.
  intros Hb. pose proof (to_sextets_range bs Hb) as Hr.
  destruct (tail_of_shape pad bs) as (Hn & Hw & Hp).
  unfold encode, atob. fold (tail_of pad bs).
  rewrite normalize_app, normalize_chars, Hn by exact Hr.
  rewrite remove_ascii_ws_id
    by (rewrite all_chars_append, Hw, not_pad_ws, andb_true_r; auto using chars_not_pad).
  rewrite strip_padding_app by (auto using chars_not_pad; now rewrite chars_length).
  rewrite chars_length, sextets_chars by exact Hr.
  destruct (Nat.eqb_spec (length (to_sextets bs) mod 4) 1) as [E|_];
    [exfalso; now apply (proj1 (to_sextets_length bs)) | now rewrite decode_to_sextets].
Qed.

Lemma utf8_decode_ascii (bs : list Z) :
  Forall (fun b => 0 <= b < 128) bs -> utf8_decode bs = Some bs.
Proof.
  induction 1 as [|b bs Hb _ IH]; [reflexivity|]. simpl.
  replace (b <? 128) with true by lia. rewrite IH. unfold emit, utf16_units.
  now replace (b <? 65536) with true by lia.
Qed.

Lemma latin1_of_bytes_of (s : string) : latin1_of_units (bytes_of s) = Some s.
Proof.
  induction s as [|c s IH]; [reflexivity|]. unfold bytes_of in *. simpl.
  pose proof (Ascii.nat_ascii_bounded c).
  replace ((0 <=? Z.of_nat (nat_of_ascii c)) && (Z.of_nat (nat_of_ascii c) <? 256)) with true by lia.
  now rewrite IH, Nat2Z.id, ascii_nat_embedding.
Qed.

Lemma bytes_of_ascii (s : string) :
  all_chars is_ascii s = true -> Forall (fun b => 0 <= b < 128) (bytes_of s).
Proof.
  unfold bytes_of. induction s as [|c s IH]; simpl; intros H; constructor.
  - apply andb_prop in H as [H _]. unfold is_ascii in H. apply Nat.ltb_lt in H. lia.
  - apply IH. now apply andb_prop in H as [_ H].
Qed.

(** For a body of ASCII text, [decodeBase64] of the API's encoding of
    its bytes gives the text back, with or without padding. *)
Lemma decode_text_encode (pad : bool) (s : string) :
  all_chars is_ascii s = true -> decode_text (encode pad (bytes_of s)) = s.
Proof.
  intros H. pose proof (bytes_of_ascii s H) as Ha.
  unfold decode_text, decodeBase64. rewrite atob_normalize_encode.
  - now rewrite utf8_decode_ascii, latin1_of_bytes_of.
  - eapply Forall_impl; [|exact Ha]. unfold is_byte. simpl. lia.
Qed.

Lemma utf8_unit_byte (n : Z) : 0 <= n < 256 -> Forall is_byte (utf8_unit n).
Proof.
  intros H. unfold utf8_unit, is_byte.
  assert (0 <= n / 64 < 4) by (split; [apply Z.div_pos | apply Z.div_lt_upper_bound]; lia).
  pose proof (Z.mod_pos_bound n 64 ltac:(lia)). destruct (n <? 128); repeat constructor; lia.
Qed.

Lemma bytes_of_range (s : string) : Forall (fun b => 0 <= b < 256) (bytes_of s).
Proof.
  unfold bytes_of. induction s as [|c s IH]; simpl; constructor; [|exact IH].
  pose proof (Ascii.nat_ascii_bounded c). lia.
Qed.

Lemma utf8_of_bytes (s : string) : Forall is_byte (utf8_of s).
Proof.
  unfold utf8_of. induction (bytes_of_range s) as [|b bs Hb _ IH]; simpl; [constructor|].
  apply Forall_app. split; [apply utf8_unit_byte, Hb | exact IH].
Qed.

(** One unit: its one or two bytes decode back to it. *)
Lemma utf8_decode_unit (n : Z) (rest : list Z) : 0 <= n < 256 ->
  utf8_decode (utf8_unit n ++ rest) = emit n (utf8_decode rest).
Proof.
  intros H. unfold utf8_unit. destruct (n <? 128) eqn:E; [simpl; now rewrite E|].
  assert (Q : 2 <= n / 64 < 4)
    by (split; [apply Z.div_le_lower_bound | apply Z.div_lt_upper_bound]; lia).
  pose proof (Z.mod_pos_bound n 64 ltac:(lia)) as M.
  cbn [app utf8_decode].
  replace (192 + n / 64 <? 128) with false by lia.
  replace ((192 <=? 192 + n / 64) && (192 + n / 64 <? 224)) with true by lia.
  assert (Cp : ((192 + n / 64) mod 32) * 64 + (128 + n mod 64) mod 64 = n).
  { replace (192 + n / 64) with (n / 64 + 6 * 32) by lia. rewrite Z.mod_add, Z.mod_small by lia.
    replace (128 + n mod 64) with (n mod 64 + 2 * 64) by lia. rewrite Z.mod_add, Z.mod_mod by lia.
    pose proof (Z.div_mod n 64 ltac:(lia)). lia. }
  rewrite Cp. unfold is_cont. replace ((128 <=? 128 + n mod 64) && (128 + n mod 64 <? 192)) with true by lia.
  replace (128 <=? n) with true by lia. reflexivity.
Qed.

Lemma utf8_decode_of (s : string) : utf8_decode (utf8_of s) = Some (bytes_of s).
Proof.
  unfold utf8_of. induction (bytes_of_range s) as [|b bs Hb _ IH]; [reflexivity|].
  cbn [flat_map]. rewrite utf8_decode_unit by exact Hb. rewrite IH. unfold emit, utf16_units.
  now replace (b <? 65536) with true by lia.
Qed.

(** C5: [decodeBase64] inverts the API's encoding of a text's UTF-8
    bytes, with or without padding, for every text of the model: the
    two-byte sequences of the units from 128 to 255 are decoded as well
    as ASCII. *)
Theorem decode_text_utf8 (pad : bool) (s : string) : decode_text (encode pad (utf8_of s)) = s.
Proof.
  unfold decode_text, decodeBase64. rewrite atob_normalize_encode by apply utf8_of_bytes.
  now rewrite utf8_decode_of, latin1_of_bytes_of.
Qed.

Lemma atob_normalize_encode_witness :
  Forall is_byte [72; 105; 33] /\ atob (normalize (encode true [72; 105; 33])) = Some [72; 105; 33].
Proof.
  assert (H : Forall is_byte [72; 105; 33]) by (repeat constructor; unfold is_byte; lia).
  split; [exact H | apply atob_normalize_encode; exact H].
Defined.

Lemma decode_text_encode_witness :
  all_chars is_ascii "Hello world" = true /\ decode_text (encode false (bytes_of "Hello world")) = "Hello world".
Proof. split; [reflexivity | apply decode_text_encode; reflexivity]. Defined.

End Base64.
