(* ===== verification/Extractor.v ===== *)
(** * Extractor: [GmailAPI.extractEmailBody] and [stripHtml] (src/gmail.js)

    A Gmail payload is a tree of MIME parts: each part may carry a
    [mimeType], inline data ([body.data], base64url text) and a list of
    child [parts].  [extractEmailBody] (lines 101-140) looks at the part
    itself, then at its children for the first [text/plain] leaf with
    data, then the first [text/html] leaf, then recurses into each child
    in order and returns the first non-empty body.

    The walk is written in a Section over the decoder [decode], the model
    of [decodeBase64] (lines 142-153, see [Base64]): every theorem of the
    walk holds for any decoder, and [Base64] supplies the concrete one.

    [stripHtml] (lines 155-171) builds a DOM element in its [try] branch.
    The module is loaded by the background service worker
    (src/unnamed/part_001, line 1), where [document] is not defined: the
    [try] branch throws a ReferenceError and the [catch] branch is the one
    that runs.  The model [stripHtml] is that branch: [/<[^>]*>/g]
    removed, then [/\s+/g] to a space, then [trim]; its tag scanner is
    proved to be the ECMAScript [replace] of the pattern (see [Replace]).
    The [try] branch, [stripHtml_dom], runs where a DOM exists: the text
    of the parsed element is a parameter ([textContent]), then the code's
    two [replace] calls and [trim]; [stripHtml_in] chooses the branch. *)

From Stdlib Require Import Ascii String List Bool Arith Lia.
From S2P Require Import Prelude Regex Sanitizer Replace Base64.
Import ListNotations.
Local Open Scope string_scope.

Module Extractor.
Import Regex Sanitizer Replace.

(** ** MIME parts *)

Local Unset Elimination Schemes.
(** A part: its [mimeType], its [body.data] ([None] when [body] or [data]
    is missing) and its [parts] ([None] when absent). *)
Inductive part : Type :=
| Part (mimeType : option string) (data : option string) (parts : option (list part)).
Local Set Elimination Schemes.

(** An induction principle that goes through the list of children. *)
Section part_ind.
Variable P : part -> Prop.
Hypothesis P_part : forall mt d ps,
  (forall ps', ps = Some ps' -> Forall P ps') -> P (Part mt d ps).

Fixpoint part_ind (p : part) : P p :=
  match p with
  | Part mt d ps =>
      P_part mt d ps
        (fun ps' (e : ps = Some ps') =>
           match e in _ = o return (match o with Some l => Forall P l | None => True end) with
           | eq_refl =>
               match ps with
               | Some l =>
                   (fix go (l : list part) : Forall P l :=
                      match l with
                      | [] => Forall_nil P
                      | q :: qs => Forall_cons q (part_ind q) (go qs)
                      end) l
               | None => I
               end
           end)
  end.
End part_ind.

(** A string value is truthy when it is present and not empty. *)
Definition truthy (o : option string) : bool :=
  match o with Some (String _ _) => true | _ => false end.

Definition has_mime (m : string) (o : option string) : bool :=
  match o with Some m' => String.eqb m' m | None => false end.

(** ** [stripHtml] (the [catch] branch) *)

(** Whether a ['>'] occurs in [s]. *)
Fixpoint has_gt (s : string) : bool :=
  match s with
  | EmptyString => false
  | String c s' => Ascii.eqb c ">" || has_gt s'
  end.

(** [.replace(/<[^>]*>/g, '')]: a ['<'] starts a match when a ['>']
    follows; the match ends at the first ['>'] ([in_tag] is "inside"). *)
Fixpoint strip_tags_go (in_tag : bool) (s : string) : string :=
  match s with
  | EmptyString => EmptyString
  | String c s' =>
      if in_tag then
        if Ascii.eqb c ">" then strip_tags_go false s' else strip_tags_go true s'
      else if Ascii.eqb c "<" && has_gt s' then strip_tags_go true s'
      else String c (strip_tags_go false s')
  end.

Definition stripHtml (html : string) : string :=
  trim (collapse_ws (strip_tags_go false html)).

(** [/<[^>]*>/g] (line 168) as a pattern of [Regex]. *)
Definition not_gt (c : ascii) : bool := negb (Ascii.eqb c ">").

Definition tag_re : list node :=
  [Unit (fun c => Ascii.eqb c "<"); Star not_gt; Unit (fun c => Ascii.eqb c ">")].

(** ** [stripHtml] (the [try] branch, lines 156-165) *)

(** [/\n\s*\n/g] (line 164). *)
Definition blank_lines_re : list node :=
  [Unit (fun c => Ascii.eqb c LF); Star is_ws; Unit (fun c => Ascii.eqb c LF)].

(** [textContent] is the text of the element whose [innerHTML] is [html];
    for a detached element [innerText] is the same text, so the [||]
    chain of line 160 gives it. *)
Definition stripHtml_dom (textContent : string -> string) (html : string) : string :=
  trim (replace_all blank_lines_re (String LF EmptyString) (replace_all ws_re " " (textContent html))).

(** [None]: no [document] (the service worker), the [catch] runs. *)
Definition stripHtml_in (dom : option (string -> string)) (html : string) : string :=
  match dom with
  | Some textContent => stripHtml_dom textContent html
  | None => stripHtml html
  end.

(** ** The walk *)

Section Walk.
Variable decode : string -> string.

(** [for (const part of parts) if (part.mimeType === m && part.body?.data)]:
    the data of the first such child. *)
Fixpoint find_leaf (m : string) (ps : list part) : option string :=
  match ps with
  | [] => None
  | Part mt d _ :: ps' =>
      if has_mime m mt && truthy d then d else find_leaf m ps'
  end.

(** Lines 105-112: the part's own data, when it is a text type. *)
Definition single_part_body (mt d : option string) : option string :=
  match mt, d with
  | Some m, Some data =>
      if truthy mt && truthy d then
        if String.eqb m "text/plain" then Some (decode data)
        else if String.eqb m "text/html" then Some (stripHtml (decode data))
        else None
      else None
  | _, _ => None
  end.

Fixpoint extractEmailBody (p : part) : string :=
  match p with
  | Part mt d ps =>
      match single_part_body mt d with
      | Some body => body
      | None =>
          match ps with
          | None => EmptyString
          | Some children =>
              match find_leaf "text/plain" children with
              | Some data => decode data
              | None =>
                  match find_leaf "text/html" children with
                  | Some data => stripHtml (decode data)
                  | None =>
                      (fix first_nested (l : list part) : string :=
                         match l with
                         | [] => EmptyString
                         | q :: qs =>
                             let nested := extractEmailBody q in
                             match nested with
                             | EmptyString => first_nested qs
                             | _ => nested
                             end
                         end) children
                  end
              end
          end
      end
  end.

(** [if (!payload) return '']: the top-level payload may be missing. *)
Definition extractPayload (payload : option part) : string :=
  match payload with
  | Some p => extractEmailBody p
  | None => EmptyString
  end.
End Walk.

(** ** Theorems on the walk *)

(** The text nodes of the tree, each with its data and whether it is
    HTML: a [text/plain] or [text/html] [mimeType] with truthy data,
    anywhere in the tree. *)
Definition text_node (mt d : option string) : list (bool * string) :=
  match d with
  | Some x =>
      if has_mime "text/plain" mt && truthy d then [(false, x)]
      else if has_mime "text/html" mt && truthy d then [(true, x)]
      else []
  | None => []
  end.

Fixpoint text_leaves (p : part) : list (bool * string) :=
  match p with
  | Part mt d ps =>
      app (text_node mt d)
          (match ps with
           | None => []
           | Some l => (fix go (l : list part) : list (bool * string) :=
                          match l with [] => [] | q :: qs => app (text_leaves q) (go qs) end) l
           end)
  end.

Lemma text_leaves_children (mt d : option string) (l : list part) (x : bool * string) :
  forall q, In q l -> In x (text_leaves q) -> In x (text_leaves (Part mt d (Some l))).
Proof.
  intros q Hq Hx. simpl. apply in_or_app. right.
  induction l as [|q' l IH]; [destruct Hq|].
  apply in_or_app. destruct Hq as [<-|Hq]; [now left | right; auto].
Qed.

(** [find_leaf] of a text type finds a text node of that type. *)
Lemma find_leaf_in (h : bool) (l : list part) (x : string) :
  find_leaf (if h then "text/html" else "text/plain") l = Some x ->
  exists q, In q l /\ In (h, x) (text_leaves q).
Proof.
  induction l as [|[mt d ps] l IH]; simpl; [discriminate|].
  destruct (has_mime _ mt && truthy d) eqn:E; [intros ->|intros H; destruct (IH H) as (q & ? & ?); eauto].
  exists (Part mt (Some x) ps). split; [now left|]. cbn [text_leaves]. apply in_or_app. left.
  apply andb_prop in E as [E1 E2]. unfold text_node. rewrite E2.
  destruct h; rewrite E1; [|now left].
  destruct (has_mime "text/plain" mt) eqn:E3; [|now left].
  destruct mt as [m|]; [|discriminate]. cbn in E1, E3. apply String.eqb_eq in E1, E3. congruence.
Qed.

Fixpoint first_nonempty (l : list string) : string :=
  match l with
  | [] => EmptyString
  | x :: xs => match x with EmptyString => first_nonempty xs | _ => x end
  end.

Lemma first_nonempty_in (l : list string) :
  first_nonempty l = EmptyString \/ In (first_nonempty l) l.
Proof.
  induction l as [|x l IH]; simpl; [now left|].
  destruct x; [destruct IH; auto | right; now left].
Qed.

Section WalkTheorems.
Variable decode : string -> string.

(** The walk with its inner loop written as [first_nonempty]. *)
Lemma extractEmailBody_eq (mt d : option string) (ps : option (list part)) :
  extractEmailBody decode (Part mt d ps) =
  match single_part_body decode mt d with
  | Some body => body
  | None =>
      match ps with
      | None => EmptyString
      | Some l =>
          match find_leaf "text/plain" l with
          | Some x => decode x
          | None =>
              match find_leaf "text/html" l with
              | Some x => stripHtml (decode x)
              | None => first_nonempty (map (extractEmailBody decode) l)
              end
          end
      end
  end.
Proof.
  cbn [extractEmailBody]. destruct (single_part_body decode mt d); [reflexivity|].
  destruct ps as [l|]; [|reflexivity].
  destruct (find_leaf "text/plain" l); [reflexivity|].
  destruct (find_leaf "text/html" l); [reflexivity|].
  induction l as [|q l IH]; [reflexivity|]. simpl. rewrite <- IH. reflexivity.
Qed.

(** The body a text node gives: its decoded data, stripped of markup
    when it is HTML. *)
Definition leaf_body (n : bool * string) : string :=
  let '(h, x) := n in if h then stripHtml (decode x) else decode x.

(** What the walk may return: the empty string or the body of a text
    node of the tree. *)
Definition from_leaf (p : part) (body : string) : Prop :=
  body = EmptyString \/ In body (map leaf_body (text_leaves p)).

Lemma from_leaf_node (p : part) (h : bool) (x : string) :
  In (h, x) (text_leaves p) -> from_leaf p (leaf_body (h, x)).
Proof. intros H. right. now apply in_map. Qed.

Lemma from_leaf_child (mt d : option string) (l : list part) (q : part) (body : string) :
  In q l -> from_leaf q body -> from_leaf (Part mt d (Some l)) body.
Proof.
  intros Hq [H | Hb]; [now left|]. right.
  apply in_map_iff in Hb as (n & <- & Hn). apply in_map. eapply text_leaves_children; eauto.
Qed.

Lemma single_part_body_from_leaf (mt d : option string) (ps : option (list part)) (b : string) :
  single_part_body decode mt d = Some b -> from_leaf (Part mt d ps) b.
Proof.
  unfold single_part_body. destruct mt as [m|], d as [x|]; try discriminate.
  destruct (truthy (Some m) && truthy (Some x)) eqn:T; [|discriminate].
  intros H. right. apply andb_prop in T as [_ T]. cbn [text_leaves]. apply in_map_iff.
  destruct (String.eqb m "text/plain") eqn:P; [|destruct (String.eqb m "text/html") eqn:Q; [|discriminate]];
    injection H as <-; [exists (false, x) | exists (true, x)]; (split; [reflexivity|]);
    apply in_or_app; left; unfold text_node, has_mime; rewrite T, ?P, ?Q; simpl; now left.
Qed.

(** C7: the extracted body is empty or the body of a text node of the
    tree: the decoded data of a [text/plain] node, or the decoded data of
    a [text/html] node with its markup stripped. *)
Theorem extractEmailBody_from_leaf (p : part) : from_leaf p (extractEmailBody decode p).
Proof.
  induction p as [mt d ps IH] using part_ind. rewrite extractEmailBody_eq.
  destruct (single_part_body decode mt d) as [b|] eqn:S; [now apply single_part_body_from_leaf|].
  destruct ps as [l|]; [|now left]. specialize (IH l eq_refl).
  destruct (find_leaf "text/plain" l) as [x|] eqn:F1.
  { destruct (find_leaf_in false _ _ F1) as (q & Hq & Hx).
    apply (from_leaf_child mt d l q (leaf_body (false, x)) Hq), from_leaf_node, Hx. }
  destruct (find_leaf "text/html" l) as [x|] eqn:F2.
  { destruct (find_leaf_in true _ _ F2) as (q & Hq & Hx).
    apply (from_leaf_child mt d l q (leaf_body (true, x)) Hq), from_leaf_node, Hx. }
  destruct (first_nonempty_in (map (extractEmailBody decode) l)) as [-> | Hin]; [now left|].
  apply in_map_iff in Hin as (q & Hq & Hin). rewrite <- Hq.
  apply (from_leaf_child mt d l q); [exact Hin|].
  rewrite Forall_forall in IH. now apply IH.
Qed.

(** C9: among the children of a multipart node, the first [text/plain]
    part with data wins over every [text/html] part, wherever the
    [text/html] parts stand in the list. *)
Theorem extractEmailBody_plain_first (mt : option string) (l : list part) (x : string) :
  find_leaf "text/plain" l = Some x ->
  extractEmailBody decode (Part mt None (Some l)) = decode x.
Proof.
  intros H. cbn [extractEmailBody]. unfold single_part_body.
  destruct mt; rewrite H; reflexivity.
Qed.
End WalkTheorems.

(** ** No markup survives [stripHtml] *)

(** A match of [/<[^>]*>/] starts at the head of [t]. *)
Definition tag_at (t : string) : bool :=
  match t with
  | String c r => Ascii.eqb c "<" && has_gt r
  | EmptyString => false
  end.

(** No ['>'] after a ['<'] ([seen_lt]: a ['<'] was read). *)
Fixpoint no_tag_go (seen_lt : bool) (s : string) : bool :=
  match s with
  | EmptyString => true
  | String c s' =>
      if seen_lt && Ascii.eqb c ">" then false
      else no_tag_go (seen_lt || Ascii.eqb c "<") s'
  end.

Lemma no_tag_true_has_gt (s : string) : no_tag_go true s = true -> has_gt s = false.
Proof.
  induction s as [|c s IH]; simpl; [reflexivity|].
  destruct (Ascii.eqb c ">"); [discriminate | exact IH].
Qed.

Lemma no_gt_no_tag (s : string) : forall b, has_gt s = false -> no_tag_go b s = true.
Proof.
  induction s as [|c s IH]; intros b H; simpl in *; [reflexivity|].
  apply orb_false_iff in H as [H1 H2]. rewrite H1, andb_false_r. auto.
Qed.

Lemma no_tag_suffixes (s : string) : forall b,
  no_tag_go b s = true -> all_suffixes (fun t => negb (tag_at t)) s = true.
Proof.
  induction s as [|c s IH]; intros b H; [reflexivity|].
  cbn [no_tag_go] in H. destruct (b && Ascii.eqb c ">"); [discriminate|].
  cbn [all_suffixes tag_at]. rewrite (IH _ H), andb_true_r.
  destruct (Ascii.eqb c "<"); [|reflexivity]. rewrite orb_true_r in H.
  now rewrite (no_tag_true_has_gt _ H).
Qed.

Lemma strip_tags_no_gt (s : string) : forall b, has_gt s = false -> has_gt (strip_tags_go b s) = false.
Proof.
  induction s as [|c s IH]; intros b H; [reflexivity|]. simpl in H.
  apply orb_false_iff in H as [H1 H2]. simpl.
  destruct b; [rewrite H1; auto|]. rewrite H2, andb_false_r. simpl. rewrite H1. simpl. auto.
Qed.

Lemma strip_tags_no_tag (s : string) : forall b, no_tag_go false (strip_tags_go b s) = true.
Proof.
  induction s as [|c s IH]; intros b; [reflexivity|]. simpl.
  destruct b; [destruct (Ascii.eqb c ">"); apply IH|].
  destruct (Ascii.eqb c "<" && has_gt s) eqn:E; [apply IH|]. simpl.
  destruct (Ascii.eqb c "<") eqn:L; [|apply IH].
  simpl in E. apply no_gt_no_tag, strip_tags_no_gt, E.
Qed.

(** Whitespace units are neither ['<'] nor ['>']. *)
Lemma ws_not_angle (c : ascii) :
  is_ws c = true -> Ascii.eqb c "<" = false /\ Ascii.eqb c ">" = false.
Proof.
  intros H. split; apply Ascii.eqb_neq; intros ->; discriminate H.
Qed.

Lemma collapse_no_tag (s : string) : forall b w,
  no_tag_go b s = true -> no_tag_go b (collapse_ws_go w s) = true.
Proof.
  induction s as [|c s IH]; intros b w H; [reflexivity|]. cbn [no_tag_go collapse_ws_go] in *.
  destruct (is_ws c) eqn:E.
  - destruct (ws_not_angle c E) as [L G]. rewrite G, L, andb_false_r, orb_false_r in H.
    destruct w; [auto|]. cbn [no_tag_go]. rewrite andb_false_r, orb_false_r. auto.
  - cbn [no_tag_go]. destruct (b && Ascii.eqb c ">"); [discriminate | auto].
Qed.

Lemma trim_start_no_tag (s : string) : forall b,
  no_tag_go b s = true -> no_tag_go b (trim_start s) = true.
Proof.
  induction s as [|c s IH]; intros b H; [reflexivity|]. cbn [trim_start].
  destruct (is_ws c) eqn:E; [|exact H].
  destruct (ws_not_angle c E) as [L G]. cbn [no_tag_go] in H.
  rewrite G, L, andb_false_r, orb_false_r in H. auto.
Qed.

Lemma no_tag_app_l (p r : string) : forall b,
  no_tag_go b (p ++ r) = true -> no_tag_go b p = true.
Proof.
  induction p as [|c p IH]; intros b H; [reflexivity|]. cbn [no_tag_go append] in *.
  destruct (b && Ascii.eqb c ">"); [discriminate | eauto].
Qed.

(** C8: no HTML tag survives [stripHtml]: no ['<'] of its output is followed
    by a ['>'], so no match of [/<[^>]*>/] starts anywhere in it. *)
Theorem stripHtml_no_tag (html : string) (k : nat) : tag_at (drop k (stripHtml html)) = false.
Proof.
  apply negb_true_iff. apply (all_suffixes_drop (fun t => negb (tag_at t))).
  apply (no_tag_suffixes _ false). unfold stripHtml, trim.
  match goal with |- context [trim_end ?x] => destruct (trim_end_prefix x) as [r Hr] end.
  apply (no_tag_app_l _ r). rewrite <- Hr.
  apply trim_start_no_tag, collapse_no_tag, strip_tags_no_tag.
Qed.

(** ** The scanners of [stripHtml] are the code's [replace] calls *)

Lemma search_gt (L : nat) (t : string) (c : caps) :
  search (fun j => mseq [Unit (fun x => Ascii.eqb x ">")] (drop j t) c
                        (fun s1 _ => Some (L - String.length s1)))
         (span not_gt t) =
  if has_gt t then Some (L - String.length (drop (S (span not_gt t)) t)) else None.
Proof.
  induction t as [|a t IH]; [reflexivity|]. cbn [span has_gt]. replace (not_gt a) with (negb (Ascii.eqb a ">")) by reflexivity.
  destruct (Ascii.eqb a ">") eqn:A; cbn [negb orb].
  - cbn [search drop]. rewrite mseq_cons. cbn [m]. cbv beta. now rewrite A.
  - rewrite search_shift. rewrite (search_ext _ (fun j => mseq [Unit (fun x => Ascii.eqb x ">")] (drop j t) c
                                          (fun s1 _ => Some (L - String.length s1)))) by reflexivity.
    rewrite IH. destruct (has_gt t); [reflexivity|]. cbn [search drop]. rewrite mseq_cons. cbn [m]. cbv beta. now rewrite A.
Qed.

Lemma span_not_gt_lt (t : string) : has_gt t = true -> span not_gt t < String.length t.
Proof.
  induction t as [|a t IH]; [discriminate|]. cbn [has_gt span String.length]. replace (not_gt a) with (negb (Ascii.eqb a ">")) by reflexivity.
  destruct (Ascii.eqb a ">"); cbn [negb orb]; intros H; [lia | specialize (IH H); lia].
Qed.

(** The match of [/<[^>]*>/] at the head of a string. *)
Lemma exec_tag (s : string) :
  exec_at tag_re s = match s with
                     | String c t => if Ascii.eqb c "<" && has_gt t then Some (S (S (span not_gt t))) else None
                     | EmptyString => None
                     end.
Proof.
  destruct s as [|c t]; [reflexivity|]. unfold exec_at, tag_re. rewrite mseq_cons. cbn [m].
  destruct (Ascii.eqb c "<"); [|reflexivity]. cbn [andb]. rewrite mseq_cons, m_star, star_search, search_gt.
  destruct (has_gt t) eqn:G; [|reflexivity]. f_equal. pose proof (span_not_gt_lt t G).
  rewrite drop_length. cbn [String.length]. lia.
Qed.

Lemma strip_tags_true (t : string) :
  has_gt t = true -> strip_tags_go true t = strip_tags_go false (drop (S (span not_gt t)) t).
Proof.
  induction t as [|a t IH]; [discriminate|]. cbn [has_gt span strip_tags_go]. replace (not_gt a) with (negb (Ascii.eqb a ">")) by reflexivity.
  destruct (Ascii.eqb a ">"); cbn [negb orb]; intros H; [reflexivity | exact (IH H)].
Qed.

(** The tag stage of [stripHtml] is [html.replace(/<[^>]*>/g, '')]. *)
Lemma strip_tags_replace (s : string) : strip_tags_go false s = replace_all tag_re "" s.
Proof.
  unfold replace_all. generalize (S (String.length s)) (Nat.lt_succ_diag_r (String.length s)).
  intros f. revert s. induction f as [|f IH]; intros s Hs; [lia|].
  destruct s as [|c s]; [reflexivity|]. cbn [replace_go strip_tags_go]. rewrite exec_tag.
  destruct (Ascii.eqb c "<" && has_gt s) eqn:T; [|f_equal; apply IH; simpl in Hs; lia].
  apply andb_prop in T as [_ G]. cbn [append]. change (drop (S (S (span not_gt s))) (String c s))
    with (drop (S (span not_gt s)) s).
  rewrite strip_tags_true by exact G. apply IH. rewrite drop_length. simpl in Hs. lia.
Qed.

(** The [catch] branch of [stripHtml] is its chain of [replace] calls. *)
Lemma stripHtml_replace (html : string) :
  stripHtml html = trim (replace_all ws_re " " (replace_all tag_re "" html)).
Proof. unfold stripHtml. now rewrite strip_tags_replace, collapse_ws_replace. Qed.

Definition not_lf (c : ascii) : bool := negb (Ascii.eqb c LF).

Lemma collapse_no_lf (s : string) : forall b, all_chars not_lf (collapse_ws_go b s) = true.
Proof.
  induction s as [|c s IH]; intros b; [reflexivity|]. cbn [collapse_ws_go].
  destruct (is_ws c) eqn:W; [destruct b; [apply IH|]; cbn [all_chars]; apply IH|].
  cbn [all_chars]. rewrite IH, andb_true_r. unfold not_lf.
  destruct (Ascii.eqb_spec c LF) as [->|]; [discriminate W | reflexivity].
Qed.

(** A text without LF has no match of [/\n\s*\n/]: the [replace] leaves
    it as it is. *)
Lemma replace_blank_no_lf (r s : string) : all_chars not_lf s = true -> replace_all blank_lines_re r s = s.
Proof.
  unfold replace_all. generalize (S (String.length s)) (Nat.lt_succ_diag_r (String.length s)).
  intros f. revert s. induction f as [|f IH]; intros s Hs H; [lia|].
  destruct s as [|c s]; [reflexivity|]. cbn [all_chars] in H. apply andb_prop in H as [Hc H].
  cbn [replace_go]. unfold exec_at, blank_lines_re. rewrite mseq_cons. cbn [m].
  unfold not_lf in Hc. apply negb_true_iff in Hc. rewrite Hc. f_equal. apply IH; [simpl in Hs; lia | exact H].
Qed.

(** C12: the second [replace] of the DOM branch of [stripHtml],
    [/\n\s*\n/g] to a line feed, is dead code: it runs after every
    whitespace run, line feeds included, became one space, so it never
    matches, and the branch is [trim] after [/\s+/g]. *)
Theorem stripHtml_dom_dead_replace (textContent : string -> string) (html : string) :
  stripHtml_dom textContent html = trim (collapse_ws (textContent html)).
Proof.
  unfold stripHtml_dom. rewrite <- collapse_ws_replace. f_equal. apply replace_blank_no_lf, collapse_no_lf.
Qed.

(** Entities are not decoded: in the service worker the DOM branch of
    [stripHtml] cannot run, and the fallback only removes tags and
    whitespace (spec.md, section 4.1, decodes entities). *)
Theorem stripHtml_keeps_entities :
  stripHtml "<p>Tom &amp; Jerry</p>  <br>" = "Tom &amp; Jerry".
Proof. vm_compute. reflexivity. Qed.

(** ** The walk with the decoder of [Base64] *)

Definition attachment_only : part :=
  Part (Some "multipart/mixed") None (Some [Part (Some "application/pdf") (Some "JVBERi0xLjQ") None]).

(** The example of spec.md, section 4.1: an HTML part before a plain one. *)
Definition html_then_plain (plain_data : string) : part :=
  Part (Some "multipart/alternative") None
    (Some [Part (Some "text/html") (Some "PGI-aGk8L2I-") None;
           Part (Some "text/plain") (Some plain_data) None]).

Lemma extractEmailBody_plain_first_witness :
  find_leaf "text/plain" [Part (Some "text/html") (Some "PGI-aGk8L2I-") None;
                          Part (Some "text/plain") (Some "SGVsbG8gd29ybGQ") None] = Some "SGVsbG8gd29ybGQ" /\
  extractEmailBody Base64.decode_text (html_then_plain "SGVsbG8gd29ybGQ") = "Hello world".
Proof.
  split; [reflexivity|]. unfold html_then_plain.
  rewrite (extractEmailBody_plain_first Base64.decode_text _ _ "SGVsbG8gd29ybGQ") by reflexivity.
  vm_compute. reflexivity.
Defined.



End Extractor.
