(* ===== verification/Gmail.v ===== *)
(** * Gmail: [GmailAPI.getUnreadEmails], [getMessageDetails] and [parseMessage]
    (src/gmail.js, lines 6-99)

    [getUnreadEmails] lists the unread messages, fetches the details of
    the first ten ([messages.slice(0, 10)]) and keeps those whose fetch
    succeeded; [getMessageDetails] returns [null] on any failure; and
    [parseMessage] reads the [Subject], [From] and [Date] headers
    (case-insensitively, first match), splits [From] with the regular
    expression of line 76 and extracts the body with [extractEmailBody]
    and the decoder of [Base64].

    The HTTP exchanges are inputs: the list response is [ListOk] (with
    [listData.messages], [None] when absent), a status that is not ok, or
    an exception; each message id has its own details response.  The From
    pattern is run by the matcher of [Regex]. *)

From Stdlib Require Import Ascii String List Bool Arith Lia.
From S2P Require Import Prelude Base64 Extractor Regex.
Import ListNotations.
Local Open Scope string_scope.

Module Gmail.
Import Regex Extractor.

(** ** The message resource as the code reads it *)

Record header := mk_header { h_name : string; h_value : string }.

(** [messageData.payload]: its [headers] and the MIME tree of [Extractor]. *)
Record payload := mk_payload { p_headers : option (list header); p_part : part }.

Record message_data := mk_message_data {
  md_id : string; md_threadId : string; md_payload : option payload;
  md_snippet : option string; md_internalDate : string }.

(** The object [parseMessage] returns (lines 86-98). *)
Record email := mk_email {
  em_id : string; em_threadId : string; em_subject : string; em_snippet : string;
  em_body : string; em_from_name : string; em_from_email : string; em_date : string;
  em_internalDate : string }.

(** ** [parseMessage] *)

(** [getHeader] (lines 66-69): the first header whose name matches
    case-insensitively, or the empty string. *)
Definition getHeader (headers : list header) (name : string) : string :=
  match find (fun h => String.eqb (lower (h_name h)) (lower name)) headers with
  | Some h => h_value h
  | None => ""
  end.

Definition DQ : ascii := "034"%char.

Definition is_char (a : ascii) (c : ascii) : bool := Ascii.eqb c a.

(** The classes [[^Q]] and [[^<>@]], where Q is the double quote [DQ]. *)
Definition not_quote (c : ascii) : bool := negb (Ascii.eqb c DQ).
Definition addr_unit (c : ascii) : bool :=
  negb (Ascii.eqb c "<" || Ascii.eqb c ">" || Ascii.eqb c "@").

(** The pattern of line 76, node by node: an optional non-capturing group
    of an optional double quote, capture 1 (a greedy run of units other
    than the double quote), an optional double quote and one [\s] unit;
    then an optional [<], capture 2 ([[^<>@]+@[^<>@]+]) and an optional
    [>]; anchored at the start ([^]). *)
Definition from_pattern : list node :=
  [Opt (Seq [Opt (Unit (is_char DQ)); Group 1 [Star not_quote]; Opt (Unit (is_char DQ)); Unit is_ws]);
   Seq [Opt (Unit (is_char "<")); Group 2 [Plus addr_unit; Unit (is_char "@"); Plus addr_unit];
        Opt (Unit (is_char ">"))]].

(** Lines 76-78: [fromMatch?.[1] || ''] and [fromMatch?.[2] || from]. *)
Definition parse_from (from : string) : string * string :=
  match exec_anchored from_pattern from with
  | Some c =>
      (match cap_get 1 c with Some v => v | None => "" end,
       match cap_get 2 c with Some v => (v || from)%js | None => from end)
  | None => ("", from)
  end.

Definition payload_headers (md : message_data) : list header :=
  match md_payload md with
  | Some p => match p_headers p with Some hs => hs | None => [] end
  | None => []
  end.

Definition parseMessage (md : message_data) : email :=
  let headers := payload_headers md in
  let subject := (getHeader headers "Subject" || "(No Subject)")%js in
  let from := getHeader headers "From" in
  let date := getHeader headers "Date" in
  let (fromName, fromEmail) := parse_from from in
  let snippet := match md_snippet md with Some s => s | None => "" end in
  let body := extractPayload Base64.decode_text (option_map p_part (md_payload md)) in
  mk_email (md_id md) (md_threadId md) subject snippet body fromName fromEmail date
           (md_internalDate md).

(** ** [getMessageDetails] and [getUnreadEmails] *)

Inductive list_response :=
| ListOk (messages : option (list string))         (** the ids of [listData.messages] *)
| ListStatus (status : nat) (statusText : string)  (** [!listResponse.ok] *)
| ListThrow (message : string).                    (** [fetch] or [json()] rejects *)

Inductive detail_response :=
| DetailOk (md : message_data)
| DetailStatus (status : nat)
| DetailThrow.

Definition getMessageDetails (details : string -> detail_response) (id : string) : option email :=
  match details id with
  | DetailOk md => Some (parseMessage md)
  | _ => None
  end.

(** The decimal digits of a status code. *)
Fixpoint digits_go (fuel n : nat) (acc : string) : string :=
  match fuel with
  | 0 => acc
  | S f =>
      let acc' := String (ascii_of_nat (48 + n mod 10)) acc in
      if Nat.ltb n 10 then acc' else digits_go f (n / 10) acc'
  end.

Definition digits (n : nat) : string := digits_go (S n) n "".

Fixpoint filter_some {A : Type} (l : list (option A)) : list A :=
  match l with
  | [] => []
  | Some x :: l' => x :: filter_some l'
  | None :: l' => filter_some l'
  end.

(** [inl message] when it throws, [inr emails] otherwise. *)
Definition getUnreadEmails (lr : list_response) (details : string -> detail_response) :
    string + list email :=
  match lr with
  | ListStatus st txt => inl ("Gmail API error: " ++ digits st ++ " " ++ txt)
  | ListThrow msg => inl msg
  | ListOk ms =>
      let messages := match ms with Some l => l | None => [] end in
      inr (filter_some (map (getMessageDetails details) (firstn 10 messages)))
  end.

(** ** Theorems *)

(** Units allowed in the local part and domain of the round trip: no
    [<], [>], [@], double quote or whitespace. *)
Definition addr_plain (c : ascii) : bool := addr_unit c && not_quote c && negb (is_ws c).
Definition tail_safe (c : ascii) : bool := not_quote c && negb (is_ws c).

(** The [<local@domain>] part of a header. *)
Definition angle_addr (l d : string) : string :=
  String "<" (l ++ String "@" (d ++ String ">" EmptyString)).

Definition no_at (s : string) : bool := all_chars (fun x => negb (is_char "@" x)) s.

Lemma filter_some_length {A : Type} (l : list (option A)) : length (filter_some l) <= length l.
Proof. induction l as [|[x|] l IH]; simpl; lia. Qed.


Lemma addr_plain_unit (s : string) : all_chars addr_plain s = true -> all_chars addr_unit s = true.
Proof. apply all_chars_impl. unfold addr_plain. intros x H. now bool_cases. Qed.

Lemma addr_plain_safe (s : string) : all_chars addr_plain s = true -> all_chars tail_safe s = true.
Proof. apply all_chars_impl. unfold addr_plain, tail_safe. intros x H. bool_cases; [exact H1 | now rewrite H0]. Qed.

Lemma addr_plain_nows (s : string) :
  all_chars addr_plain s = true -> all_chars (fun x => negb (is_ws x)) s = true.
Proof. apply all_chars_impl. unfold addr_plain. intros x H. bool_cases. now rewrite H0. Qed.

(** After the captured name, the rest of the optional group needs a
    whitespace unit: none is found in a string of safe units. *)
Lemma name_tail_fails {R : Type} (t : string) (c : caps) (k : cont R) :
  all_chars tail_safe t = true ->
  mseq [Opt (Unit (is_char DQ)); Unit is_ws] t c k = None.
Proof.
  intros H. rewrite mseq_cons, m_opt_skip.
  - rewrite mseq_cons. apply m_unit_miss. destruct t as [|a t]; simpl in *; [exact I|].
    unfold tail_safe in H. apply andb_prop in H as [H _]. apply andb_prop in H as [_ H]. now apply negb_true_iff.
  - destruct t as [|a t]; simpl in *; [exact I|].
    unfold tail_safe, not_quote in H. apply andb_prop in H as [H _]. apply andb_prop in H as [H _].
    apply negb_true_iff in H. unfold is_char. now rewrite Ascii.eqb_sym.
Qed.

Lemma drop_past (p t : string) (a : ascii) (i : nat) :
  drop (String.length p + S i) (p ++ String a t) = drop i t.
Proof. induction p as [|b p IH]; simpl; [reflexivity | exact IH]. Qed.

Lemma all_chars_app_inv (f : ascii -> bool) (s t : string) :
  all_chars f (s ++ t) = true -> all_chars f s = true /\ all_chars f t = true.
Proof. rewrite all_chars_append. apply andb_prop. Qed.

Lemma addr_part {R : Type} (l d : string) (c : caps) (k : cont R) (r : R) :
  l <> "" -> d <> "" -> all_chars addr_plain l = true -> all_chars addr_plain d = true ->
  k EmptyString ((2, l ++ String "@" d) :: c) = Some r ->
  m (Seq [Opt (Unit (is_char "<")); Group 2 [Plus addr_unit; Unit (is_char "@"); Plus addr_unit];
          Opt (Unit (is_char ">"))]) (angle_addr l d) c k = Some r.
Proof.
  intros Hl Hd Hl' Hd' Hk. destruct l as [|a l]; [congruence|]. destruct d as [|b d]; [congruence|].
  pose proof (addr_plain_unit _ Hl') as Ul. pose proof (addr_plain_unit _ Hd') as Ud.
  simpl in Ul, Ud. apply andb_prop in Ul as [Ua Ul]. apply andb_prop in Ud as [Ub Ud].
  rewrite m_seq, mseq_cons. apply m_opt_hit. unfold angle_addr. rewrite m_unit_hit by reflexivity.
  rewrite mseq_cons, m_group, mseq_cons. cbn [append]. rewrite m_plus by exact Ua.
  apply star_longest; [exact Ul | reflexivity|].
  rewrite mseq_cons, m_unit_hit by reflexivity. rewrite mseq_cons, m_plus by exact Ub.
  apply star_longest; [exact Ud | reflexivity|]. rewrite !mseq_nil, mseq_cons.
  apply m_opt_hit. rewrite m_unit_hit by reflexivity. rewrite mseq_nil.
  replace (String a (l ++ String "@" (String b (d ++ ">"))))
    with ((String a l ++ String "@" (String b d)) ++ ">")%string
    by (simpl; rewrite append_assoc; reflexivity).
  rewrite take_suffix_len. exact Hk.
Qed.

Lemma angle_addr_safe (l d : string) :
  all_chars addr_plain l = true -> all_chars addr_plain d = true ->
  all_chars tail_safe (angle_addr l d) = true.
Proof.
  intros Hl Hd. unfold angle_addr. cbn [all_chars].
  rewrite all_chars_append, (addr_plain_safe _ Hl). cbn [all_chars].
  rewrite all_chars_append, (addr_plain_safe _ Hd). reflexivity.
Qed.

Lemma tail_safe_quote (s : string) : all_chars tail_safe s = true -> all_chars not_quote s = true.
Proof. apply all_chars_impl. unfold tail_safe. intros x H. now bool_cases. Qed.

(** C22: a [From] header [name <local@domain>] is split back into the name
    and the address, whatever spaces the name contains, when the name has
    no double quote and the address parts are plain. *)
Theorem parse_from_angle (name l d : string) :
  all_chars not_quote name = true -> l <> "" -> d <> "" ->
  all_chars addr_plain l = true -> all_chars addr_plain d = true ->
  parse_from (name ++ String " " (angle_addr l d)) = (name, l ++ String "@" d).
Proof.
  intros Hn Hl Hd Hl' Hd'. set (T := angle_addr l d).
  assert (HT : all_chars tail_safe T = true) by (apply angle_addr_safe; assumption).
  set (S0 := (name ++ String " " T)%string).
  assert (HS : all_chars not_quote S0 = true).
  { unfold S0. rewrite all_chars_append, Hn. simpl. now apply tail_safe_quote. }
  assert (E : exec_anchored from_pattern S0 = Some [(2, l ++ String "@" d); (1, name)]%string).
  { unfold exec_anchored, from_pattern. rewrite mseq_cons. apply m_opt_hit.
    rewrite m_seq, mseq_cons, m_opt_skip.
    2: { unfold S0. destruct name as [|a n]; [reflexivity|]. simpl in Hn |- *.
         apply andb_prop in Hn as [Ha _]. unfold not_quote in Ha. apply negb_true_iff in Ha.
         unfold is_char. now rewrite Ascii.eqb_sym. }
    rewrite mseq_cons, m_group, mseq_cons, m_star, star_search, span_all by exact HS.
    apply (search_at _ _ (String.length name)).
    - unfold S0. rewrite length_append. simpl. lia.
    - cbv beta. unfold S0. rewrite drop_app, mseq_nil, mseq_cons, m_opt_skip by reflexivity.
      rewrite mseq_cons, m_unit_hit by reflexivity. rewrite mseq_nil, mseq_cons.
      apply addr_part; try assumption. unfold S0. rewrite take_suffix_len. reflexivity.
    - intros j Hj. cbv beta. unfold S0 in *.
      replace j with (String.length name + S (j - S (String.length name))) by lia.
      rewrite drop_past, mseq_nil. apply name_tail_fails. now apply all_chars_drop. }
  unfold parse_from. rewrite E. simpl. destruct l as [|a l]; [congruence | reflexivity].
Qed.

Lemma group2_fails {R : Type} (t : string) (c : caps) (k : cont R) :
  no_at t = true ->
  mseq [Group 2 [Plus addr_unit; Unit (is_char "@"); Plus addr_unit]; Opt (Unit (is_char ">"))] t c k = None.
Proof.
  intros H. rewrite mseq_cons, m_group, mseq_cons. destruct t as [|a t]; [reflexivity|].
  destruct (addr_unit a) eqn:Ea; [|cbn [m]; now rewrite Ea].
  rewrite m_plus by exact Ea. rewrite star_search. apply search_none. intros j _.
  rewrite mseq_cons. apply m_unit_miss, head_not_all, all_chars_drop.
  simpl in H. now apply andb_prop in H as [_ H].
Qed.

(** A [From] header without [@] does not match: the name is empty and
    the address is the whole header ([fromMatch] is [null]). *)
Theorem parse_from_no_at (from : string) : no_at from = true -> parse_from from = (""%string, from).
Proof.
  intros H. unfold parse_from, exec_anchored, from_pattern.
  destruct (mseq _ from [] _) as [r|] eqn:E; [exfalso|reflexivity].
  rewrite mseq_cons in E. apply m_suffix in E as (j1 & c1 & E).
  rewrite mseq_cons, m_seq, mseq_cons in E. apply m_suffix in E as (j2 & c2 & E).
  rewrite group2_fails in E; [discriminate|]. unfold no_at in *. now apply all_chars_drop, all_chars_drop.
Qed.

(** One check fetches the details of at most ten messages: the list of
    e-mails [getUnreadEmails] returns has at most ten elements. *)
Theorem getUnreadEmails_at_most_10 (lr : list_response) (details : string -> detail_response)
    (es : list email) :
  getUnreadEmails lr details = inr es -> length es <= 10.
Proof.
  unfold getUnreadEmails. destruct lr as [ms|st txt|msg]; intros H; try discriminate.
  set (ids := match ms with Some l => l | None => [] end) in H.
  assert (E : es = filter_some (map (getMessageDetails details) (firstn 10 ids))) by congruence.
  subst es. pose proof (filter_some_length (map (getMessageDetails details) (firstn 10 ids))) as L.
  rewrite length_map in L. pose proof (firstn_le_length 10 ids). lia.
Qed.

Lemma getUnreadEmails_401 (txt : string) (details : string -> detail_response) :
  exists m, getUnreadEmails (ListStatus 401 txt) details = inl m /\ includes m "401" = true.
Proof.
  eexists. split; [reflexivity|]. apply (includes_app_l "Gmail API error: 401"). reflexivity.
Qed.

Lemma drop_S_tail (r t : string) (a : ascii) (j : nat) :
  drop j r = String a t -> drop (S j) r = t.
Proof.
  revert r. induction j as [|j IH]; intros [|b r] E; simpl in *; try discriminate.
  - now injection E.
  - apply IH, E.
Qed.

(** A whitespace unit of [l@r], when [l] has none, lies in [r]: what
    follows it is a suffix of [r]. *)
Lemma ws_in_domain (l r t : string) (a : ascii) (j : nat) :
  all_chars (fun x => negb (is_ws x)) l = true -> drop j (l ++ String "@" r) = String a t ->
  is_ws a = true -> exists i, t = drop i r.
Proof.
  revert j. induction l as [|b l IH]; intros j Hl E W.
  - destruct j as [|j]; simpl in E; [injection E as <- _; discriminate W|].
    exists (S j). now apply drop_S_tail in E.
  - simpl in Hl. apply andb_prop in Hl as [Hb Hl].
    destruct j as [|j]; simpl in E; [injection E as <- _; now rewrite W in Hb | eapply IH; eauto].
Qed.

Lemma addr_seq_fails {R : Type} (t : string) (c : caps) (k : cont R) :
  no_at t = true ->
  m (Seq [Opt (Unit (is_char "<")); Group 2 [Plus addr_unit; Unit (is_char "@"); Plus addr_unit];
          Opt (Unit (is_char ">"))]) t c k = None.
Proof.
  intros H. destruct (m _ t c k) as [r|] eqn:E; [exfalso|reflexivity].
  rewrite m_seq, mseq_cons in E. apply m_suffix in E as (j & c' & E).
  rewrite group2_fails in E; [discriminate | now apply all_chars_drop].
Qed.

(** The optional name group of the pattern cannot match in [l@r]: its
    [\s] would lie in [r], after which no [@] is left for the address. *)
Lemma name_group_fails {R : Type} (l r : string) (c : caps) (k : cont R) :
  all_chars addr_plain l = true -> no_at r = true ->
  m (Seq [Opt (Unit (is_char DQ)); Group 1 [Star not_quote]; Opt (Unit (is_char DQ)); Unit is_ws])
    (l ++ String "@" r) c
    (fun s1 c1 => mseq [Seq [Opt (Unit (is_char "<"));
                              Group 2 [Plus addr_unit; Unit (is_char "@"); Plus addr_unit];
                              Opt (Unit (is_char ">"))]] s1 c1 k) = None.
Proof.
  intros Hl Hr. destruct (m _ _ c _) as [x|] eqn:E; [exfalso|reflexivity].
  rewrite m_seq, mseq_cons in E. apply m_suffix in E as (j1 & c1 & E).
  rewrite mseq_cons in E. apply m_suffix in E as (j2 & c2 & E).
  rewrite mseq_cons in E. apply m_suffix in E as (j3 & c3 & E).
  rewrite mseq_cons in E. apply m_unit_inv in E as (a & t & Ht & W & E).
  rewrite !drop_drop in Ht.
  destruct (ws_in_domain l r t a _ (addr_plain_nows _ Hl) Ht W) as [i ->].
  rewrite mseq_nil, mseq_cons, addr_seq_fails in E; [discriminate | now apply all_chars_drop].
Qed.

(** C35: a [From] header that is a bare address followed by more text
    without [<], [>] or [@], such as the RFC 5322 comment of
    [ann@x.org (Ann)], is not split: the name is empty and the address
    is the whole header, comment included. *)
Theorem parse_from_bare_address (l r : string) :
  l <> "" -> r <> "" -> all_chars addr_plain l = true -> all_chars addr_unit r = true ->
  parse_from (l ++ String "@" r) = (""%string, (l ++ String "@" r)%string).
Proof.
  intros Hl Hr Hl' Hr'.
  assert (Hna : no_at r = true).
  { unfold no_at. revert Hr'. apply all_chars_impl. unfold addr_unit. intros x H. bool_cases. unfold is_char. now rewrite H0. }
  assert (E : exec_anchored from_pattern (l ++ String "@" r) = Some [(2, l ++ String "@" r)]%string).
  { unfold exec_anchored, from_pattern. rewrite mseq_cons, m_opt_fail by (apply name_group_fails; assumption).
    destruct l as [|a l]; [congruence|]. destruct r as [|b r]; [congruence|].
    pose proof (addr_plain_unit _ Hl') as Ul. simpl in Ul, Hr', Hl'.
    apply andb_prop in Ul as [Ua Ul]. apply andb_prop in Hr' as [Ub Ur].
    rewrite mseq_cons, m_seq, mseq_cons, m_opt_skip.
    2: { simpl. unfold addr_plain, addr_unit in Hl'. bool_cases. unfold is_char. now rewrite Ascii.eqb_sym. }
    rewrite mseq_cons, m_group, mseq_cons. cbn [append]. rewrite m_plus by exact Ua.
    apply star_longest; [exact Ul | reflexivity|].
    rewrite mseq_cons, m_unit_hit by reflexivity. rewrite mseq_cons, m_plus by exact Ub.
    apply star_all; [exact Ur|]. rewrite !mseq_nil, mseq_cons, m_opt_skip by exact I.
    rewrite !mseq_nil. change (String.length "") with 0. rewrite Nat.sub_0_r, take_all by lia. reflexivity. }
  unfold parse_from. rewrite E. simpl. destruct l as [|a l]; [congruence | reflexivity].
Qed.

Lemma parse_from_angle_witness :
  all_chars not_quote "Ann Lee" = true /\ all_chars addr_plain "ann" = true /\
  all_chars addr_plain "example.org" = true /\
  parse_from ("Ann Lee" ++ String " " (angle_addr "ann" "example.org")) =
  ("Ann Lee", "ann@example.org").
Proof.
  split; [reflexivity|]. split; [reflexivity|]. split; [reflexivity|].
  apply parse_from_angle; first [reflexivity | discriminate].
Defined.

Lemma parse_from_bare_address_witness :
  all_chars addr_plain "ann" = true /\ all_chars addr_unit "x.org (Ann)" = true /\
  parse_from "ann@x.org (Ann)" = (""%string, "ann@x.org (Ann)").
Proof.
  split; [reflexivity|]. split; [reflexivity|].
  exact (parse_from_bare_address "ann" "x.org (Ann)" ltac:(discriminate) ltac:(discriminate) eq_refl eq_refl).
Defined.

Lemma parse_from_no_at_witness :
  no_at "Newsletter" = true /\ parse_from "Newsletter" = (""%string, "Newsletter").
Proof. split; [reflexivity | apply parse_from_no_at; reflexivity]. Defined.

Definition twelve_ids : list string :=
  ["a"; "b"; "c"; "d"; "e"; "f"; "g"; "h"; "i"; "j"; "k"; "l"].

Definition bare_details (id : string) : detail_response :=
  DetailOk (mk_message_data id "" None None "").

Lemma getUnreadEmails_at_most_10_witness :
  exists es, getUnreadEmails (ListOk (Some twelve_ids)) bare_details = inr es /\ length es <= 10.
Proof.
  eexists. split; [reflexivity|].
  apply (getUnreadEmails_at_most_10 (ListOk (Some twelve_ids)) bare_details). reflexivity.
Defined.

End Gmail.
