(* ===== verification/Dedup.v ===== *)
(** * Dedup: the set of processed message ids (src/unnamed/part_001)

    [GmailNotifier.processedMessages] is a JavaScript [Set] of message ids.
    It is built from the stored array ([new Set(data[...] || [])], lines
    40-42), queried with [has] (line 115), extended with [add] (line 134),
    written back as [Array.from(this.processedMessages)] (line 136),
    emptied with [clear] (line 214) and counted with [size] (line 209).

    A JavaScript [Set] keeps its elements in insertion order, and
    [Array.from] lists them in that order, so the model is a list without
    duplicates, [JsSet.t].  Its abstract specification is a stdpp [gset]:
    [JsSet.elements_of] is the abstraction, and the theorems show that every
    operation refines the corresponding set operation, and that storing the
    set and loading it back gives the same set, in the same order. *)

From stdpp Require Import gmap strings list.
Local Set Warnings "-clear-no-such-hyp".

Module JsSet.

Definition t := list string.

Definition empty : t := [].

(** [set.has(x)]: [SameValueZero] on strings is equality. *)
Definition has (s : t) (x : string) : bool := bool_decide (x ∈ s).

(** [set.add(x)]: appended when new, no change otherwise. *)
Definition add (s : t) (x : string) : t := if has s x then s else s ++ [x].

(** [new Set(array)]: the elements added in order. *)
Definition of_array (l : list string) : t := foldl add [] l.

(** [Array.from(set)]: the elements in insertion order. *)
Definition to_array (s : t) : list string := s.

Definition size (s : t) : nat := length s.

(** The abstraction to a finite set. *)
Definition elements_of (s : t) : gset string := list_to_set s.

(** ** Refinement of [gset] *)

Lemma has_spec (s : t) (x : string) : has s x = true <-> x ∈ elements_of s.
Proof.
  unfold has, elements_of. rewrite bool_decide_eq_true, elem_of_list_to_set. done.
Qed.

Lemma add_spec (s : t) (x : string) : elements_of (add s x) = {[x]} ∪ elements_of s.
Proof.
  unfold add, elements_of. destruct (has s x) eqn:E.
  - apply has_spec in E. unfold elements_of in E. set_solver.
  - rewrite list_to_set_app_L. simpl. set_solver.
Qed.

Lemma add_nodup (s : t) (x : string) : NoDup s -> NoDup (add s x).
Proof.
  intros H. unfold add. destruct (has s x) eqn:E; [exact H|].
  apply NoDup_app. split; [exact H|]. split; [|apply NoDup_singleton].
  intros y Hy Hy'. apply list_elem_of_singleton in Hy'. subst y.
  unfold has in E. apply bool_decide_eq_false in E. contradiction.
Qed.

Lemma foldl_add_spec (l : list string) (s : t) :
  elements_of (foldl add s l) = elements_of s ∪ list_to_set l.
Proof.
  revert s. induction l as [|x l IH]; intros s; simpl.
  - set_solver.
  - rewrite IH, add_spec. set_solver.
Qed.

Lemma foldl_add_nodup (l : list string) (s : t) : NoDup s -> NoDup (foldl add s l).
Proof.
  revert s. induction l as [|x l IH]; intros s H; simpl; [exact H|].
  apply IH, add_nodup, H.
Qed.

(** Adding elements that are new, in order, appends them. *)
Lemma foldl_add_fresh (l : list string) (s : t) :
  NoDup (s ++ l) -> foldl add s l = s ++ l.
Proof.
  revert s. induction l as [|x l IH]; intros s H; simpl; [now rewrite app_nil_r|].
  assert (Hx : has s x = false).
  { unfold has. apply bool_decide_eq_false. intros Hin.
    apply NoDup_app in H as (_ & Hdisj & _). apply (Hdisj x Hin). left. }
  unfold add at 2. rewrite Hx, IH; [now rewrite <- app_assoc|].
  now rewrite <- app_assoc.
Qed.

(** [new Set(array)] followed by [has] decides membership in the
    array, and the set built has no duplicates: loading the stored array
    refines [list_to_set]. *)
Theorem of_array_spec (l : list string) :
  elements_of (of_array l) = list_to_set l /\ NoDup (of_array l).
Proof.
  unfold of_array. split.
  - rewrite foldl_add_spec. unfold elements_of. simpl. set_solver.
  - apply foldl_add_nodup. constructor.
Qed.

(** Persisting the set ([Array.from]) and loading it back
    ([new Set(...)]) gives the same set with the same order. *)
Theorem to_array_of_array (s : t) : NoDup s -> of_array (to_array s) = s.
Proof. intros H. unfold of_array, to_array. now rewrite foldl_add_fresh. Qed.

Lemma size_spec (s : t) : NoDup s -> size s = base.size (elements_of s).
Proof. intros H. unfold size, elements_of. now rewrite size_list_to_set. Qed.

(** ** The laws the worker relies on *)

(** The well-formed sets: no duplicates. *)
Definition wf (s : t) : Prop := NoDup s.

Lemma wf_empty : wf empty.
Proof. constructor. Qed.

Lemma wf_add (s : t) (x : string) : wf s -> wf (add s x).
Proof. apply add_nodup. Qed.

Lemma wf_of_array (l : list string) : wf (of_array l).
Proof. apply foldl_add_nodup. constructor. Qed.

Lemma has_iff (s : t) (x : string) : has s x = true <-> List.In x s.
Proof. unfold has. rewrite bool_decide_eq_true. apply list_elem_of_In. Qed.

Lemma has_add (s : t) (x y : string) : has (add s x) y = true <-> y = x \/ has s y = true.
Proof.
  rewrite !has_spec, add_spec. set_solver.
Qed.

Lemma has_of_array (l : list string) (y : string) : has (of_array l) y = true <-> List.In y l.
Proof.
  rewrite has_spec. unfold of_array. rewrite foldl_add_spec, <- list_elem_of_In. unfold elements_of.
  set_solver.
Qed.

Lemma has_empty (y : string) : has empty y = false.
Proof. reflexivity. Qed.

Lemma to_array_of_array_witness :
  NoDup ["inbox-1"; "inbox-2"] /\ of_array (to_array ["inbox-1"; "inbox-2"]) = ["inbox-1"; "inbox-2"].
Proof.
  assert (H : NoDup ["inbox-1"; "inbox-2"]) by (apply (bool_decide_unpack _); vm_compute; reflexivity).
  split; [exact H | apply to_array_of_array; exact H].
Defined.

End JsSet.
