(* ===== verification/Notifier.v ===== *)
(** * Notifier: the background service worker (src/unnamed/part_001)

    [GmailNotifier] keeps [isRunning], [authToken], the set
    [processedMessages] and [settings] (the polling interval).  Its
    handlers run on the extension's events: [initialize] on install and
    browser start-up, [checkForNewEmails] on the [gmail-poll] alarm, and
    the popup's messages [togglePolling], [getStatus] and
    [clearProcessed].  The popup's save button (src/popup.js, lines
    77-98) writes the API key into the same stored [settings] object.

    The model is a world: the worker's fields, the [AIProcessor] it calls
    (see [AIPath]), the extension's storage, the alarm, and the log of
    notifications created.  [handle] runs one event to completion and
    returns the new world and the reply; [step] and [reachable] are the
    induced transition system.  What the environment decides is an input
    of the event: the token [getAuthToken] yields, the Gmail API's answers
    (the list of unread ids and each message's details, which
    [Gmail.getUnreadEmails] turns into parsed e-mails or an error),
    whether reading the settings succeeds, and the model's reply for each
    message.

    Two things of the platform are modelled explicitly because the code's
    behaviour depends on them: a Manifest V3 worker can be stopped and
    started again at any time ([WorkerRestart]: the module is re-evaluated,
    so every object gets its constructor's fields back, while the storage
    and the alarm survive), and [startPolling] fires a first check that
    it does not await (it runs to completion within the same event). *)

From Stdlib Require Import Ascii String List Bool Arith Lia QArith.
From S2P Require Import Prelude Sanitizer Rules AIPath Base64 Extractor Gmail Dedup.
Import ListNotations.
Local Open Scope string_scope.

Module Notifier.
Import Sanitizer Rules AIPath Gmail.

(** ** Data *)

Record notification := mk_notification { nt_id : string; nt_title : string; nt_message : string }.

(** The stored [settings] object: [aiApiKey] (written by the popup) and
    [Number(settings.pollingInterval)] when it is a finite number. *)
Record stored_settings := mk_stored { ss_aiApiKey : option string; ss_pollingInterval : option Q }.

(** [chrome.storage.local]: the keys of [STORAGE_KEYS] (lines 7-11). *)
Record store := mk_store {
  st_processed : option (list string); st_settings : option stored_settings;
  st_last_check : option string }.

(** The fields of [GmailNotifier] (lines 17-26). *)
Record worker := mk_worker {
  isRunning : bool; authToken : option string; processedMessages : JsSet.t;
  pollingInterval : Q }.

Definition new_worker : worker := mk_worker false None JsSet.empty 60.

(** The alarm is [Some period] (in minutes) while [gmail-poll] exists. *)
Record world := mk_world {
  w_worker : worker; w_ai : ai_processor; w_store : store;
  w_alarm : option Q; w_shown : list notification }.

Definition with_worker (w : world) (k : worker) : world :=
  mk_world k (w_ai w) (w_store w) (w_alarm w) (w_shown w).

Definition with_store (w : world) (s : store) : world :=
  mk_world (w_worker w) (w_ai w) s (w_alarm w) (w_shown w).

(** ** What the environment decides *)

Inductive auth_result := AuthOk (token : string) | AuthFail (message : string).

Record check_env := mk_env {
  env_token : auth_result;        (** [getAuthToken] when no token is cached *)
  env_list : list_response;       (** the list request of [getUnreadEmails] *)
  env_details : string -> detail_response; (** each [getMessageDetails] request *)
  env_settings_read : bool;       (** [chrome.storage.local.get(['settings'])] resolves *)
  env_storage_error : string;     (** the message it rejects with otherwise *)
  env_reply : string -> ai_reply; (** the model's reply, per message id *)
  env_refresh : auth_result;      (** [getAuthToken] after a 401 *)
  env_now : string }.             (** [new Date().toISOString()] *)

(** ** [loadStoredData] (lines 34-56) *)

(** [if (!Number.isFinite(interval) || interval < 60) interval = 60] *)
Definition sanitize_interval (n : option Q) : Q :=
  match n with
  | Some q => if negb (Qle_bool 60 q) then 60 else q
  | None => 60
  end.

Definition stored_ids (s : store) : list string :=
  match st_processed s with Some l => l | None => [] end.

Definition loadStoredData (w : world) : world :=
  let k := w_worker w in
  let interval := sanitize_interval
    (match st_settings (w_store w) with Some ss => ss_pollingInterval ss | None => None end) in
  with_worker w (mk_worker (isRunning k) (authToken k)
                   (JsSet.of_array (stored_ids (w_store w))) interval).

(** ** [authenticate] (lines 59-77) *)

Definition authenticate (w : world) (forceRefresh : bool) (r : auth_result) :
    world * option string :=
  let k := w_worker w in
  let w1 := if forceRefresh && match authToken k with Some _ => true | None => false end
            then with_worker w (mk_worker (isRunning k) None (processedMessages k) (pollingInterval k))
            else w in
  let k1 := w_worker w1 in
  match r with
  | AuthOk t =>
      (with_worker w1 (mk_worker (isRunning k1) (Some t) (processedMessages k1) (pollingInterval k1)), None)
  | AuthFail m => (w1, Some m)
  end.

(** ** [processEmail] (lines 141-153) and [markAsProcessed] (lines 133-138) *)

(** The stored settings as [AIProcessor.loadSettings] reads them. *)
Definition ai_view (s : store) : option ai_settings :=
  match st_settings s with Some ss => Some (mk_settings (ss_aiApiKey ss)) | None => None end.

Definition or_else (a b : string) : string := (a || b)%js.

Definition notify_title (e : email) : string :=
  "New Email from " ++ or_else (em_from_name e) (or_else (em_from_email e) "Unknown").

(** [None] when the call throws: [loadSettings] reads the storage on the
    processor's first call, and that read may reject. *)
Definition processEmail_w (env : check_env) (w : world) (e : email) : option world :=
  if match cached_settings (w_ai w) with None => negb (env_settings_read env) | Some _ => false end
  then None
  else
    let (ai', r) := AIPath.processEmail (w_ai w) (ai_view (w_store w)) (or_else (em_subject e) "")
                      (or_else (em_body e) (or_else (em_snippet e) "")) (env_reply env (em_id e)) in
    Some (mk_world (w_worker w) ai' (w_store w) (w_alarm w)
            (w_shown w ++ [mk_notification ("gmail-" ++ em_id e) (notify_title e)
                             (summary r ++ String LF (tag r))])).

Definition markAsProcessed (w : world) (id : string) : world :=
  let k := w_worker w in
  let set := JsSet.add (processedMessages k) id in
  let w1 := with_worker w (mk_worker (isRunning k) (authToken k) set (pollingInterval k)) in
  with_store w1 (mk_store (Some (JsSet.to_array set)) (st_settings (w_store w1)) (st_last_check (w_store w1))).

(** The [for] loop of lines 114-119; [Some m] when a call throws [m]. *)
Fixpoint process_batch (env : check_env) (w : world) (es : list email) : world * option string :=
  match es with
  | [] => (w, None)
  | e :: es' =>
      if JsSet.has (processedMessages (w_worker w)) (em_id e) then process_batch env w es'
      else match processEmail_w env w e with
           | None => (w, Some (env_storage_error env))
           | Some w1 => process_batch env (markAsProcessed w1 (em_id e)) es'
           end
  end.

(** ** [checkForNewEmails] (lines 104-131) *)

(** Lines 108-110: a token is requested when none is cached. *)
Definition ensure_token (env : check_env) (w : world) : world * option string :=
  match authToken (w_worker w) with
  | None => authenticate w false (env_token env)
  | Some _ => (w, None)
  end.

(** Lines 112-123: fetch, run the loop, record the time of the check. *)
Definition fetch_and_process (env : check_env) (w : world) : world * option string :=
  match getUnreadEmails (env_list env) (env_details env) with
  | inl m => (w, Some m)
  | inr es =>
      let '(w', e) := process_batch env w es in
      match e with
      | None =>
          (with_store w' (mk_store (st_processed (w_store w')) (st_settings (w_store w'))
                           (Some (env_now env))), None)
      | Some m => (w', Some m)
      end
  end.

(** Lines 124-130: the [catch] refreshes the token on a 401. *)
Definition on_error (env : check_env) (w : world) (err : option string) : world :=
  match err with
  | Some m => if includes m "401" then fst (authenticate w true (env_refresh env)) else w
  | None => w
  end.

Definition checkForNewEmails (env : check_env) (w : world) : world :=
  if negb (isRunning (w_worker w)) then w
  else
    let '(w1, err1) := ensure_token env w in
    let '(w2, err) :=
      match err1 with
      | Some m => (w1, Some m)
      | None => fetch_and_process env w1
      end in
    on_error env w2 err.

(** ** Events and replies *)

Inductive event :=
| Installed                          (** [chrome.runtime.onInstalled] *)
| Startup                            (** [chrome.runtime.onStartup] *)
| WorkerRestart                      (** the worker is stopped and started again *)
| Alarm (name : string) (env : check_env)
| TogglePolling (auth : auth_result) (env : check_env)
                                     (** [env]: the check [startPolling] fires *)
| GetStatus
| ClearProcessed
| SaveKey (input : string).          (** the popup's save button *)

(** The reply of [getStatus]: the fields it sends, and [lastCheck], which
    the popup reads (src/popup.js, line 24). *)
Record status := mk_status { s_isRunning : bool; s_processedCount : nat; s_lastCheck : option string }.

Inductive reply := NoReply | StatusReply (s : status) | ToggleReply (running : bool) | ClearReply.

Definition initialize (w : world) : world := loadStoredData w.

Definition stopPolling (w : world) : world :=
  let k := w_worker w in
  mk_world (mk_worker false (authToken k) (processedMessages k) (pollingInterval k))
           (w_ai w) (w_store w) None (w_shown w).

(** Lines 80-95: the alarm is created and a first check is fired at once. *)
Definition startPolling (env : check_env) (w : world) : world :=
  let k := w_worker w in
  if isRunning k then w
  else checkForNewEmails env
         (mk_world (mk_worker true (authToken k) (processedMessages k) (pollingInterval k))
                   (w_ai w) (w_store w) (Some (pollingInterval k / 60)) (w_shown w)).

(** The popup's save button: [settings.aiApiKey = value.trim() || null]. *)
Definition saveKey (w : world) (input : string) : world :=
  let key := match trim input with EmptyString => None | k => Some k end in
  let interval := match st_settings (w_store w) with Some ss => ss_pollingInterval ss | None => None end in
  with_store w (mk_store (st_processed (w_store w)) (Some (mk_stored key interval))
                         (st_last_check (w_store w))).

Definition handle (w : world) (ev : event) : world * reply :=
  match ev with
  | Installed | Startup => (initialize w, NoReply)
  | WorkerRestart => (mk_world new_worker initial_processor (w_store w) (w_alarm w) (w_shown w), NoReply)
  | Alarm name env =>
      if String.eqb name "gmail-poll" && isRunning (w_worker w)
      then (checkForNewEmails env w, NoReply) else (w, NoReply)
  | TogglePolling auth env =>
      if isRunning (w_worker w) then (stopPolling w, ToggleReply false)
      else match authenticate w false auth with
           | (w1, None) => let w2 := startPolling env w1 in (w2, ToggleReply (isRunning (w_worker w2)))
           | (w1, Some _) => (w1, ToggleReply false)
           end
  | GetStatus =>
      (w, StatusReply (mk_status (isRunning (w_worker w))
                                 (JsSet.size (processedMessages (w_worker w))) None))
  | ClearProcessed =>
      let k := w_worker w in
      (mk_world (mk_worker (isRunning k) (authToken k) JsSet.empty (pollingInterval k))
                (w_ai w) (mk_store (Some []) (st_settings (w_store w)) (st_last_check (w_store w)))
                (w_alarm w) (w_shown w), ClearReply)
  | SaveKey input => (saveKey w input, NoReply)
  end.

Inductive step : world -> world -> Prop :=
| step_event (w : world) (ev : event) : step w (fst (handle w ev)).

Inductive reachable (w0 : world) : world -> Prop :=
| reach_init : reachable w0 w0
| reach_step (w w' : world) : reachable w0 w -> step w w' -> reachable w0 w'.

(** The world of a fresh installation: empty storage, no alarm. *)
Definition initial_world : world :=
  mk_world new_worker initial_processor (mk_store None None None) None [].

(** Running a list of events from a world. *)
Fixpoint run (w : world) (evs : list event) : world :=
  match evs with
  | [] => w
  | ev :: evs' => run (fst (handle w ev)) evs'
  end.

(** ** The invariant of the worker's state *)

(** The processed set has no duplicates, every id in it is also in the
    stored array (so the set survives a reload), and the polling interval
    is at least the 60 seconds Chrome allows. *)
Definition inv (w : world) : Prop :=
  JsSet.wf (processedMessages (w_worker w)) /\
  (forall id, JsSet.has (processedMessages (w_worker w)) id = true -> In id (stored_ids (w_store w))) /\
  Qle 60 (pollingInterval (w_worker w)).

(** Two worlds that agree on the set, the interval and the stored ids. *)
Definition same_dedup (w w' : world) : Prop :=
  processedMessages (w_worker w') = processedMessages (w_worker w) /\
  pollingInterval (w_worker w') = pollingInterval (w_worker w) /\
  stored_ids (w_store w') = stored_ids (w_store w).

Lemma inv_same_dedup (w w' : world) : same_dedup w w' -> inv w -> inv w'.
Proof. intros (H1 & H2 & H3) (I1 & I2 & I3). unfold inv. rewrite H1, H2, H3. auto. Qed.

Lemma same_dedup_refl (w : world) : same_dedup w w.
Proof. repeat split. Qed.

Lemma same_dedup_trans (w1 w2 w3 : world) :
  same_dedup w1 w2 -> same_dedup w2 w3 -> same_dedup w1 w3.
Proof. intros (A1 & A2 & A3) (B1 & B2 & B3). repeat split; congruence. Qed.

Lemma authenticate_same (w : world) (f : bool) (r : auth_result) :
  same_dedup w (fst (authenticate w f r)).
Proof.
  unfold authenticate. destruct (f && _); destruct r; repeat split.
Qed.

Lemma processEmail_w_same (env : check_env) (w w' : world) (e : email) :
  processEmail_w env w e = Some w' -> same_dedup w w'.
Proof.
  unfold processEmail_w. intros H.
  destruct (cached_settings (w_ai w)); [|destruct (env_settings_read env); [|discriminate H]];
    simpl in H; destruct (AIPath.processEmail _ _ _ _ _); injection H as <-; repeat split.
Qed.

Lemma sanitize_interval_ge (n : option Q) : Qle 60 (sanitize_interval n).
Proof.
  destruct n as [q|]; simpl; [|apply Qle_refl].
  destruct (Qle_bool 60 q) eqn:E; simpl; [apply Qle_bool_iff, E | apply Qle_refl].
Qed.

Lemma inv_loadStoredData (w : world) : inv (loadStoredData w).
Proof.
  split; [apply JsSet.wf_of_array|]. split; [|apply sanitize_interval_ge].
  intros id H. apply JsSet.has_of_array in H. exact H.
Qed.

Lemma inv_markAsProcessed (w : world) (id : string) : inv w -> inv (markAsProcessed w id).
Proof.
  intros (I1 & I2 & I3). split; [apply JsSet.wf_add, I1|]. split; [|exact I3].
  intros y Hy. unfold stored_ids. simpl. apply JsSet.has_iff, Hy.
Qed.

Lemma inv_process_batch (env : check_env) (es : list email) :
  forall w, inv w -> inv (fst (process_batch env w es)).
Proof.
  induction es as [|e es IH]; intros w H; simpl; [exact H|].
  destruct (JsSet.has _ _); [auto|].
  destruct (processEmail_w env w e) as [w1|] eqn:E; [|exact H].
  apply IH, inv_markAsProcessed. eapply inv_same_dedup; [eapply processEmail_w_same; eauto | exact H].
Qed.

Lemma inv_ensure_token (env : check_env) (w : world) : inv w -> inv (fst (ensure_token env w)).
Proof.
  intros H. unfold ensure_token. destruct (authToken _); [exact H|].
  eapply inv_same_dedup; [apply authenticate_same | exact H].
Qed.

Lemma inv_fetch_and_process (env : check_env) (w : world) :
  inv w -> inv (fst (fetch_and_process env w)).
Proof.
  intros H. unfold fetch_and_process.
  destruct (getUnreadEmails (env_list env) (env_details env)) as [m|es]; [exact H|].
  pose proof (inv_process_batch env es w H) as Hb.
  destruct (process_batch env w es) as [w' [m|]]; [exact Hb|].
  eapply inv_same_dedup; [|exact Hb]. repeat split.
Qed.

Lemma inv_on_error (env : check_env) (w : world) (err : option string) :
  inv w -> inv (on_error env w err).
Proof.
  intros H. destruct err as [m|]; simpl; [|exact H].
  destruct (includes m "401"); [|exact H].
  eapply inv_same_dedup; [apply authenticate_same | exact H].
Qed.

Lemma inv_checkForNewEmails (env : check_env) (w : world) : inv w -> inv (checkForNewEmails env w).
Proof.
  intros H. unfold checkForNewEmails. destruct (negb _); [exact H|].
  pose proof (inv_ensure_token env w H) as H1.
  destruct (ensure_token env w) as [w1 [m|]]; [apply inv_on_error, H1|].
  pose proof (inv_fetch_and_process env w1 H1) as H2.
  destruct (fetch_and_process env w1) as [w2 err]. apply inv_on_error, H2.
Qed.

Lemma inv_startPolling (env : check_env) (w : world) : inv w -> inv (startPolling env w).
Proof.
  intros H. unfold startPolling. destruct (isRunning (w_worker w)); [exact H|].
  apply inv_checkForNewEmails. eapply inv_same_dedup; [|exact H]. repeat split.
Qed.

Lemma inv_handle (w : world) (ev : event) : inv w -> inv (fst (handle w ev)).
Proof.
  intros H. destruct ev as [| | |name env|auth env| | |input]; simpl.
  - apply inv_loadStoredData.
  - apply inv_loadStoredData.
  - split; [apply JsSet.wf_empty|]. split; [intros id Hid; discriminate | apply Qle_refl].
  - destruct (_ && _); [apply inv_checkForNewEmails, H | exact H].
  - destruct (isRunning (w_worker w)).
    + eapply inv_same_dedup; [|exact H]. repeat split.
    + pose proof (authenticate_same w false auth) as A.
      destruct (authenticate w false auth) as [w1 [m|]]; simpl in *;
        [eapply inv_same_dedup; eauto|].
      apply inv_startPolling. eapply inv_same_dedup; eauto.
  - exact H.
  - split; [apply JsSet.wf_empty|]. split; [intros id Hid; discriminate | apply H].
  - eapply inv_same_dedup; [|exact H]. repeat split.
Qed.

(** C2: the invariant holds in every world reachable from one where it
    holds: the processed set never has duplicates, every processed id is
    stored, and the polling interval stays at or above 60 seconds. *)
Theorem reachable_inv (w0 w : world) : inv w0 -> reachable w0 w -> inv w.
Proof.
  intros H0 R. induction R as [|w w' R IH S]; [exact H0|].
  destruct S as [w ev]. now apply inv_handle.
Qed.

Lemma inv_initial : inv initial_world.
Proof. split; [apply JsSet.wf_empty|]. split; [intros id Hid; discriminate | apply Qle_refl]. Qed.

(** ** No message is notified twice, as long as the set is kept *)

(** Every notification is [gmail-<id>] for an id of the processed set, and
    no two notifications have the same id. *)
Definition notified_list (shown : list notification) (set : JsSet.t) : Prop :=
  NoDup (map nt_id shown) /\
  (forall n, In n shown -> exists id, nt_id n = ("gmail-" ++ id)%string /\ JsSet.has set id = true).

Definition notified_ok (w : world) : Prop := notified_list (w_shown w) (processedMessages (w_worker w)).

(** Worlds with the same set and the same notifications. *)
Definition same_shown (w w' : world) : Prop :=
  processedMessages (w_worker w') = processedMessages (w_worker w) /\ w_shown w' = w_shown w.

Lemma notified_same_shown (w w' : world) : same_shown w w' -> notified_ok w -> notified_ok w'.
Proof. intros [H1 H2] [N1 N2]. split; [now rewrite H2|]. rewrite H2, H1. exact N2. Qed.

Lemma authenticate_shown (w : world) (f : bool) (r : auth_result) :
  same_shown w (fst (authenticate w f r)).
Proof. unfold authenticate. destruct (f && _); destruct r; split; reflexivity. Qed.

Lemma processEmail_w_shape (env : check_env) (w w' : world) (e : email) :
  processEmail_w env w e = Some w' ->
  w_worker w' = w_worker w /\ w_store w' = w_store w /\
  exists n, w_shown w' = (w_shown w ++ [n])%list /\ nt_id n = ("gmail-" ++ em_id e)%string.
Proof.
  unfold processEmail_w. intros H.
  destruct (cached_settings (w_ai w)); [|destruct (env_settings_read env); [|discriminate H]];
    simpl in H; destruct (AIPath.processEmail _ _ _ _ _); injection H as <-;
    (split; [reflexivity | split; [reflexivity | eexists; split; reflexivity]]).
Qed.

Lemma gmail_id_inj (a b : string) : ("gmail-" ++ a)%string = ("gmail-" ++ b)%string -> a = b.
Proof. intros H. now injection H. Qed.

(** A larger set keeps the notifications accounted for. *)
Lemma notified_list_mono (shown : list notification) (set set' : JsSet.t) :
  (forall id, JsSet.has set id = true -> JsSet.has set' id = true) ->
  notified_list shown set -> notified_list shown set'.
Proof.
  intros Hs [N1 N2]. split; [exact N1|]. intros n' Hin.
  destruct (N2 n' Hin) as (id' & Hid & Hhas). exists id'. split; [exact Hid | apply Hs, Hhas].
Qed.

Lemma notified_list_add (shown : list notification) (set : JsSet.t) (id : string) :
  notified_list shown set -> notified_list shown (JsSet.add set id).
Proof. apply notified_list_mono. intros y Hy. apply JsSet.has_add. now right. Qed.

(** A notification [gmail-<id>] for an id not yet in the set, followed by
    the id's insertion into the set. *)
Lemma notified_list_snoc (shown : list notification) (set : JsSet.t) (id : string) (n : notification) :
  notified_list shown set -> JsSet.has set id = false -> nt_id n = ("gmail-" ++ id)%string ->
  notified_list (shown ++ [n]) (JsSet.add set id).
Proof.
  intros [N1 N2] Hnew Hn. split.
  - rewrite map_app. apply NoDup_app; [exact N1 | constructor; [intros []|constructor] |].
    intros x Hx [<-|[]]. apply in_map_iff in Hx as (n' & Hn' & Hin).
    destruct (N2 n' Hin) as (id' & Hid & Hhas). rewrite Hid, Hn in Hn'.
    apply gmail_id_inj in Hn'. subst id'. congruence.
  - intros n' Hin. apply in_app_or in Hin as [Hin|[<-|[]]].
    + apply (notified_list_add shown set id (conj N1 N2)), Hin.
    + exists id. split; [exact Hn|]. apply JsSet.has_add. now left.
Qed.

Lemma notified_process_mark (env : check_env) (w w1 : world) (e : email) :
  notified_ok w -> JsSet.has (processedMessages (w_worker w)) (em_id e) = false ->
  processEmail_w env w e = Some w1 -> notified_ok (markAsProcessed w1 (em_id e)).
Proof.
  intros H Hnew Hp. destruct (processEmail_w_shape env w w1 e Hp) as (Hk & _ & n & Hs & Hn).
  unfold notified_ok, markAsProcessed. simpl. rewrite Hs, Hk. now apply notified_list_snoc.
Qed.

Lemma notified_process_batch (env : check_env) (es : list email) :
  forall w, notified_ok w -> notified_ok (fst (process_batch env w es)).
Proof.
  induction es as [|e es IH]; intros w H; simpl; [exact H|].
  destruct (JsSet.has _ _) eqn:Hh; [auto|].
  destruct (processEmail_w env w e) as [w1|] eqn:E; [|exact H].
  apply IH. eapply notified_process_mark; eauto.
Qed.

Lemma notified_checkForNewEmails (env : check_env) (w : world) :
  notified_ok w -> notified_ok (checkForNewEmails env w).
Proof.
  intros H. unfold checkForNewEmails. destruct (negb _); [exact H|].
  assert (E1 : notified_ok (fst (ensure_token env w))).
  { unfold ensure_token. destruct (authToken _); [exact H|].
    eapply notified_same_shown; [apply authenticate_shown | exact H]. }
  assert (Eerr : forall w2 err, notified_ok w2 -> notified_ok (on_error env w2 err)).
  { intros w2 [m|] H2; simpl; [destruct (includes m "401")|]; try exact H2.
    eapply notified_same_shown; [apply authenticate_shown | exact H2]. }
  destruct (ensure_token env w) as [w1 [m|]]; [now apply Eerr|].
  unfold fetch_and_process.
  destruct (getUnreadEmails (env_list env) (env_details env)) as [m|es]; [now apply Eerr|].
  pose proof (notified_process_batch env es w1 E1) as Hb.
  destruct (process_batch env w1 es) as [w' [m|]]; apply Eerr; [exact Hb|].
  eapply notified_same_shown; [|exact Hb]. split; reflexivity.
Qed.

(** The events that keep the processed set: all but a restart of the
    worker and the popup's "clear history". *)
Definition keeps_set (ev : event) : bool :=
  match ev with WorkerRestart | ClearProcessed => false | _ => true end.

Lemma notified_startPolling (env : check_env) (w : world) :
  notified_ok w -> notified_ok (startPolling env w).
Proof.
  intros H. unfold startPolling. destruct (isRunning (w_worker w)); [exact H|].
  apply notified_checkForNewEmails. eapply notified_same_shown; [split; reflexivity | exact H].
Qed.

Lemma notified_handle (w : world) (ev : event) :
  inv w -> keeps_set ev = true -> notified_ok w -> notified_ok (fst (handle w ev)).
Proof.
  intros [_ [Hst _]] Hev H. destruct ev as [| | |name env|auth env| | |input]; simpl in *; try discriminate.
  1, 2: destruct H as [N1 N2]; split; [exact N1|]; intros n Hn;
        destruct (N2 n Hn) as (id & Hid & Hh); exists id; split; [exact Hid|];
        apply JsSet.has_of_array, Hst, Hh.
  - destruct (_ && _); [apply notified_checkForNewEmails, H | exact H].
  - destruct (isRunning (w_worker w)); [eapply notified_same_shown; [split; reflexivity | exact H]|].
    pose proof (authenticate_shown w false auth) as A.
    destruct (authenticate w false auth) as [w1 [m|]]; simpl in *; [eapply notified_same_shown; eauto|].
    apply notified_startPolling. eapply notified_same_shown; eauto.
  - exact H.
  - eapply notified_same_shown; [split; reflexivity | exact H].
Qed.

(** In the event model, where each check runs to completion before the
    next event, and as long as the worker is not restarted and the
    history is not cleared, no message is notified twice.  Checks that
    overlap do not satisfy this (see [Interleave]). *)
Theorem no_duplicate_notification (w : world) (evs : list event) :
  inv w -> notified_ok w -> forallb keeps_set evs = true ->
  NoDup (map nt_id (w_shown (run w evs))).
Proof.
  revert w. induction evs as [|ev evs IH]; intros w Hi Hn Hevs; simpl in *; [apply Hn|].
  apply andb_prop in Hevs as [Hev Hevs]. apply IH; [now apply inv_handle | |exact Hevs].
  now apply notified_handle.
Qed.

(** ** At most ten notifications per event *)

Lemma shown_authenticate (w : world) (f : bool) (r : auth_result) :
  w_shown (fst (authenticate w f r)) = w_shown w.
Proof. apply (authenticate_shown w f r). Qed.

Lemma shown_on_error (env : check_env) (w : world) (err : option string) :
  w_shown (on_error env w err) = w_shown w.
Proof. destruct err as [m|]; simpl; [destruct (includes m "401"); [apply shown_authenticate|]|]; reflexivity. Qed.

Lemma shown_ensure_token (env : check_env) (w : world) :
  w_shown (fst (ensure_token env w)) = w_shown w.
Proof. unfold ensure_token. destruct (authToken _); [reflexivity | apply shown_authenticate]. Qed.

Lemma shown_process_batch (env : check_env) (es : list email) :
  forall w, (length (w_shown (fst (process_batch env w es))) <= length (w_shown w) + length es)%nat.
Proof.
  induction es as [|e es IH]; intros w; simpl; [lia|].
  destruct (JsSet.has _ _); [specialize (IH w); lia|].
  destruct (processEmail_w env w e) as [w1|] eqn:E; simpl; [|lia].
  destruct (processEmail_w_shape env w w1 e E) as (_ & _ & n & Hs & _).
  specialize (IH (markAsProcessed w1 (em_id e))).
  assert (Hm : w_shown (markAsProcessed w1 (em_id e)) = w_shown w1) by reflexivity.
  rewrite Hm, Hs, length_app in IH. simpl in IH. lia.
Qed.

Lemma fetch_at_most_10 (env : check_env) (w : world) :
  (length (w_shown (fst (fetch_and_process env w))) <= length (w_shown w) + 10)%nat.
Proof.
  unfold fetch_and_process.
  destruct (getUnreadEmails (env_list env) (env_details env)) as [msg|es] eqn:G; [simpl; lia|].
  apply getUnreadEmails_at_most_10 in G. pose proof (shown_process_batch env es w) as B.
  destruct (process_batch env w es) as [w' [msg|]]; simpl in *; lia.
Qed.

Lemma checkForNewEmails_at_most_10 (env : check_env) (w : world) :
  (length (w_shown (checkForNewEmails env w)) <= length (w_shown w) + 10)%nat.
Proof.
  unfold checkForNewEmails. destruct (negb _); [lia|].
  pose proof (shown_ensure_token env w) as E1.
  destruct (ensure_token env w) as [w1 [msg|]]; simpl in E1; [rewrite shown_on_error, E1; lia|].
  pose proof (fetch_at_most_10 env w1) as F.
  destruct (fetch_and_process env w1) as [w2 err]. rewrite shown_on_error. simpl in F. rewrite E1 in F. lia.
Qed.

(** C21: no event creates more than ten notifications: a check processes at
    most the ten messages [getUnreadEmails] fetched, and every other
    handler creates none. *)
Theorem handle_at_most_10 (w : world) (ev : event) :
  (length (w_shown (fst (handle w ev))) <= length (w_shown w) + 10)%nat.
Proof.
  destruct ev as [| | |name env|auth env| | |input]; simpl; try lia.
  - destruct (_ && _); simpl; [apply checkForNewEmails_at_most_10 | lia].
  - destruct (isRunning (w_worker w)); simpl; [lia|].
    pose proof (shown_authenticate w false auth) as A.
    destruct (authenticate w false auth) as [w1 [m|]]; simpl in *; [rewrite A; lia|].
    unfold startPolling. destruct (isRunning (w_worker w1)); [rewrite A; lia|].
    rewrite <- A. exact (checkForNewEmails_at_most_10 env _).
Qed.

(** ** Scenarios *)

Definition m1_body : string := "Please confirm your availability for the interview on Monday.".

(** Message m1 as the API returns it: headers and a plain-text body in
    URL-safe base64. *)
Definition m1_data : message_data :=
  mk_message_data "m1" "t-m1"
    (Some (mk_payload
       (Some [mk_header "Subject" "Interview"; mk_header "From" "Ann <ann@example.org>";
              mk_header "Date" "Mon, 3 Nov 2025 09:00:00 +0000"])
       (Extractor.Part (Some "text/plain") (Some (Base64.encode false (Base64.bytes_of m1_body))) None)))
    (Some "Please confirm your availability") "1762160400000".

(** A check that finds m1 unread, with no AI key configured. *)
Definition env_m1 : check_env :=
  mk_env (AuthOk "tok") (ListOk (Some ["m1"])) (fun _ => DetailOk m1_data) true ""
         (fun _ => ReplyFailed) (AuthOk "tok") "t1".

Definition first_run : list event :=
  [Installed; TogglePolling (AuthOk "tok") env_m1; Alarm "gmail-poll" env_m1; Alarm "gmail-poll" env_m1].

(** The end-to-end example of spec.md, section 8: without an AI key,
    message m1 asking to confirm availability is notified once, tagged
    "Reply Required" (the code's label for Action Required), m1 is then
    in the processed set, and the later polls do not notify it again. *)
Theorem end_to_end_example :
  let w := run initial_world first_run in
  map nt_id (w_shown w) = ["gmail-m1"] /\
  map nt_title (w_shown w) = ["New Email from Ann"] /\
  map nt_message (w_shown w) =
    [("Interview-related email; reply to confirm next steps." ++ String LF "Reply Required")%string] /\
  JsSet.has (processedMessages (w_worker w)) "m1" = true /\
  stored_ids (w_store w) = ["m1"].
Proof. vm_compute. repeat split. Qed.

(** ** A restart forgets the processed set *)

Lemma processEmail_w_some (env : check_env) (w : world) (e : email) :
  env_settings_read env = true -> exists w1, processEmail_w env w e = Some w1.
Proof.
  intros S. unfold processEmail_w. rewrite S.
  destruct (cached_settings (w_ai w)); simpl; destruct (AIPath.processEmail _ _ _ _ _); eauto.
Qed.

(** The loop only appends notifications. *)
Lemma shown_prefix_process_batch (env : check_env) (es : list email) :
  forall w, exists rest, w_shown (fst (process_batch env w es)) = (w_shown w ++ rest)%list.
Proof.
  induction es as [|e es IH]; intros w; simpl; [exists []; now rewrite app_nil_r|].
  destruct (JsSet.has _ _); [apply IH|].
  destruct (processEmail_w env w e) as [w1|] eqn:E; [|exists []; simpl; now rewrite app_nil_r].
  destruct (processEmail_w_shape env w w1 e E) as (_ & _ & n & Hs & _).
  destruct (IH (markAsProcessed w1 (em_id e))) as [rest Hr]. exists (n :: rest).
  rewrite Hr. change (w_shown (markAsProcessed w1 (em_id e))) with (w_shown w1).
  rewrite Hs, <- app_assoc. reflexivity.
Qed.

(** The ids a world remembers, in its set or in storage, all lie in [B]. *)
Definition ids_within (B : list string) (w : world) : Prop :=
  forall id, In id (stored_ids (w_store w)) \/ JsSet.has (processedMessages (w_worker w)) id = true ->
             In id B.

Lemma ids_within_mark (B : list string) (w : world) (id : string) :
  In id B -> ids_within B w -> ids_within B (markAsProcessed w id).
Proof.
  intros Hid H x Hx. unfold markAsProcessed, stored_ids in Hx. simpl in Hx.
  assert (Hs : JsSet.has (JsSet.add (processedMessages (w_worker w)) id) x = true).
  { destruct Hx as [Hx|Hx]; [apply JsSet.has_iff, Hx | exact Hx]. }
  apply JsSet.has_add in Hs as [->|Hs]; [exact Hid | apply H; now right].
Qed.

Lemma ids_within_process_batch (B : list string) (env : check_env) (es : list email) :
  (forall e, In e es -> In (em_id e) B) ->
  forall w, ids_within B w -> ids_within B (fst (process_batch env w es)).
Proof.
  induction es as [|e es IH]; intros HB w H; simpl; [exact H|].
  assert (HB' : forall e', In e' es -> In (em_id e') B) by (intros; apply HB; now right).
  destruct (JsSet.has _ _); [now apply IH|].
  destruct (processEmail_w env w e) as [w1|] eqn:E; [|exact H].
  destruct (processEmail_w_shape env w w1 e E) as (Hk & Hst & _).
  apply IH; [exact HB'|]. apply ids_within_mark; [apply HB; now left|].
  intros x Hx. apply H. now rewrite <- Hk, <- Hst.
Qed.

Lemma ids_within_on_error (B : list string) (env : check_env) (w : world) (err : option string) :
  ids_within B w -> ids_within B (on_error env w err).
Proof.
  intros H x Hx. apply H. destruct err as [m|]; [|exact Hx]. simpl in Hx.
  destruct (includes m "401"); [|exact Hx]. unfold authenticate in Hx.
  destruct (true && _), (env_refresh env); exact Hx.
Qed.

(** A running check with a token and an empty processed set, whose
    fetch returns [e] first, notifies [e] first, and afterwards remembers
    no id beyond the batch, in its set or in storage. *)
Lemma check_first_email (env : check_env) (w : world) (t : string) (e : email) (es : list email) :
  isRunning (w_worker w) = true -> authToken (w_worker w) = Some t ->
  processedMessages (w_worker w) = JsSet.empty ->
  getUnreadEmails (env_list env) (env_details env) = inr (e :: es) -> env_settings_read env = true ->
  (exists n rest, w_shown (checkForNewEmails env w) = (w_shown w ++ n :: rest)%list /\
                  nt_id n = ("gmail-" ++ em_id e)%string) /\
  ids_within (map em_id (e :: es)) (checkForNewEmails env w).
Proof.
  intros R T P G S. unfold checkForNewEmails, ensure_token, fetch_and_process.
  rewrite R, T, G. cbn [negb process_batch]. rewrite P, JsSet.has_empty.
  destruct (processEmail_w_some env w e S) as [w1 E]. rewrite E.
  destruct (processEmail_w_shape env w w1 e E) as (Hk & _ & n & Hs & Hid).
  assert (Hm : ids_within (map em_id (e :: es)) (markAsProcessed w1 (em_id e))).
  { intros x Hx. unfold markAsProcessed, stored_ids in Hx. simpl in Hx. rewrite Hk, P in Hx.
    destruct Hx as [Hx|Hx]; [apply JsSet.has_iff in Hx|]; apply JsSet.has_add in Hx as [->|Hx];
      try discriminate Hx; now left. }
  destruct (shown_prefix_process_batch env es (markAsProcessed w1 (em_id e))) as [rest Hr].
  pose proof (ids_within_process_batch (map em_id (e :: es)) env es
                (fun e' H => in_map em_id (e :: es) e' (or_intror H)) _ Hm) as Hw.
  destruct (process_batch env (markAsProcessed w1 (em_id e)) es) as [w' [m|]]; cbn [fst] in Hr, Hw;
    (split; [exists n, rest; split; [|exact Hid] | apply ids_within_on_error]);
    rewrite ?shown_on_error; cbn [w_shown with_store]; try exact Hw;
    rewrite Hr; change (w_shown (markAsProcessed w1 (em_id e))) with (w_shown w1);
    rewrite Hs, <- app_assoc; reflexivity.
Qed.

(** C28: a restart of the worker forgets the processed set (the module is
    re-evaluated and [initialize] only runs on install and browser
    start-up): when the user starts polling again, a message processed
    before the restart is notified a second time, and the first
    [markAsProcessed] overwrites the stored array with the ids of this
    one check, so every id stored before and not in this batch is lost
    from storage as well (spec.md, section 3: the set persists across
    restarts). *)
Theorem restart_renotifies (w : world) (t : string) (env : check_env) (e : email) (es : list email) :
  JsSet.has (processedMessages (w_worker w)) (em_id e) = true ->
  getUnreadEmails (env_list env) (env_details env) = inr (e :: es) -> env_settings_read env = true ->
  let w' := run w [WorkerRestart; TogglePolling (AuthOk t) env] in
  (exists n rest, w_shown w' = (w_shown w ++ n :: rest)%list /\ nt_id n = ("gmail-" ++ em_id e)%string) /\
  (forall id, In id (stored_ids (w_store w')) -> In id (map em_id (e :: es))).
Proof.
  intros _ G S. cbv zeta.
  set (w2 := mk_world (mk_worker true (Some t) JsSet.empty (pollingInterval new_worker))
                      initial_processor (w_store w) (Some (pollingInterval new_worker / 60)) (w_shown w)).
  change (run w [WorkerRestart; TogglePolling (AuthOk t) env]) with (checkForNewEmails env w2).
  destruct (check_first_email env w2 t e es eq_refl eq_refl eq_refl G S) as [H1 H2].
  split; [exact H1|]. intros id Hid. apply H2. now left.
Qed.

Definition is_alarm (ev : event) : bool :=
  match ev with Alarm _ _ => true | _ => false end.

(** C29: after a restart of the worker, [isRunning] is false while the
    [gmail-poll] alarm survives: every alarm tick is ignored, so no
    message is ever checked again until the user toggles polling. *)
Theorem restart_stops_polling (w : world) (evs : list event) :
  forallb is_alarm evs = true ->
  let w' := fst (handle w WorkerRestart) in
  run w' evs = w' /\ w_alarm w' = w_alarm w.
Proof.
  intros H w'. split; [|reflexivity].
  assert (Hr : isRunning (w_worker w') = false) by reflexivity. clearbody w'.
  induction evs as [|ev evs IH]; [reflexivity|]. simpl in H |- *.
  apply andb_prop in H as [Hev H]. destruct ev; try discriminate. simpl.
  rewrite Hr, andb_false_r. simpl. apply IH, H.
Qed.

(** C30: on a 401 from the Gmail API the [catch] only replaces the token:
    the batch is not retried in the same cycle, nothing is notified and
    the time of the last check is not updated (spec.md, section 7, retries
    the batch once). *)
Theorem check_401_refreshes_token (w : world) (env : check_env) (t t' txt : string) :
  isRunning (w_worker w) = true -> authToken (w_worker w) = Some t ->
  env_list env = ListStatus 401 txt -> env_refresh env = AuthOk t' ->
  let w' := fst (handle w (Alarm "gmail-poll" env)) in
  authToken (w_worker w') = Some t' /\ w_shown w' = w_shown w /\ w_store w' = w_store w /\
  processedMessages (w_worker w') = processedMessages (w_worker w).
Proof.
  intros Hr Ht Hf Hre. simpl. rewrite Hr. simpl.
  unfold checkForNewEmails, ensure_token, fetch_and_process. rewrite Hr, Ht, Hf.
  destruct (getUnreadEmails_401 txt (env_details env)) as (m & Hm & Hi). rewrite Hm.
  cbn [negb on_error fst snd]. rewrite Hi. unfold authenticate. rewrite Ht, Hre. simpl. repeat split.
Qed.

(** ** Witnesses *)

Lemma reachable_inv_witness :
  inv initial_world /\ reachable initial_world (run initial_world first_run) /\
  inv (run initial_world first_run).
Proof.
  assert (R : reachable initial_world (run initial_world first_run)).
  { unfold first_run, run.
    repeat (eapply reach_step; [|apply step_event]). apply reach_init. }
  split; [exact inv_initial|]. split; [exact R|].
  exact (reachable_inv initial_world _ inv_initial R).
Defined.

Lemma no_duplicate_notification_witness :
  inv initial_world /\ notified_ok initial_world /\ forallb keeps_set first_run = true /\
  NoDup (map nt_id (w_shown (run initial_world first_run))).
Proof.
  assert (N : notified_ok initial_world) by (split; [constructor | intros n []]).
  split; [exact inv_initial|]. split; [exact N|]. split; [reflexivity|].
  exact (no_duplicate_notification initial_world first_run inv_initial N eq_refl).
Defined.

Lemma restart_stops_polling_witness :
  forallb is_alarm [Alarm "gmail-poll" env_m1; Alarm "gmail-poll" env_m1] = true /\
  run (fst (handle (run initial_world first_run) WorkerRestart))
      [Alarm "gmail-poll" env_m1; Alarm "gmail-poll" env_m1]
  = fst (handle (run initial_world first_run) WorkerRestart).
Proof.
  split; [reflexivity|].
  exact (proj1 (restart_stops_polling (run initial_world first_run)
                  [Alarm "gmail-poll" env_m1; Alarm "gmail-poll" env_m1] eq_refl)).
Defined.

Lemma restart_renotifies_witness :
  JsSet.has (processedMessages (w_worker (run initial_world first_run))) (em_id (parseMessage m1_data)) = true /\
  getUnreadEmails (env_list env_m1) (env_details env_m1) = inr [parseMessage m1_data] /\
  env_settings_read env_m1 = true /\
  let w' := run (run initial_world first_run) [WorkerRestart; TogglePolling (AuthOk "tok") env_m1] in
  (exists n rest, w_shown w' = (w_shown (run initial_world first_run) ++ n :: rest)%list /\
                  nt_id n = ("gmail-" ++ em_id (parseMessage m1_data))%string) /\
  (forall id, In id (stored_ids (w_store w')) -> In id (map em_id [parseMessage m1_data])).
Proof.
  assert (H1 : JsSet.has (processedMessages (w_worker (run initial_world first_run)))
                         (em_id (parseMessage m1_data)) = true) by (vm_compute; reflexivity).
  assert (H2 : getUnreadEmails (env_list env_m1) (env_details env_m1) = inr [parseMessage m1_data])
    by reflexivity.
  split; [exact H1|]. split; [exact H2|]. split; [reflexivity|].
  exact (restart_renotifies (run initial_world first_run) "tok" env_m1 _ [] H1 H2 eq_refl).
Defined.

Definition env_401 : check_env :=
  mk_env (AuthOk "tok") (ListStatus 401 "Unauthorized") (fun _ => DetailThrow) true ""
         (fun _ => ReplyFailed) (AuthOk "tok2") "t2".

Lemma check_401_refreshes_token_witness :
  let w := run initial_world first_run in
  isRunning (w_worker w) = true /\ authToken (w_worker w) = Some "tok" /\
  authToken (w_worker (fst (handle w (Alarm "gmail-poll" env_401)))) = Some "tok2".
Proof.
  split; [reflexivity|]. split; [reflexivity|].
  exact (proj1 (check_401_refreshes_token (run initial_world first_run) env_401 "tok" "tok2"
                  "Unauthorized" eq_refl eq_refl eq_refl eq_refl)).
Defined.

End Notifier.
