(* ===== verification/Worker002.v ===== *)
(** * Worker002: the earlier service worker (src/unnamed/part_002)

    An earlier [GmailNotifier] of the repository, with the same storage
    keys, the same [gmailAPI] and [aiProcessor], and four differences
    from part_001 that change what the user sees:
    - [startPolling] awaits its first check and registers the
      [onAlarm] listener only after it, so when that check rejects the
      worker stays "running" with an alarm that nobody listens to;
    - [processNewEmail] swallows every error, so a message whose
      processing failed is still marked processed and never retried;
    - the alarm listener calls [checkForNewEmails] without looking at
      [isRunning], and there is no [togglePolling] handler;
    - the alarm period is the constant [0.5] minutes.

    The world adds to part_001's the number of [gmail-poll] listeners
    registered by the running worker instance ([v_listeners]); the
    storage, the notification log, the AI processor and the environment's
    answers ([check_env]) are those of [Notifier]. *)

From Stdlib Require Import Ascii String List Bool Arith Lia QArith.
From S2P Require Import Prelude Sanitizer Rules AIPath Extractor Gmail Dedup Notifier.
Import ListNotations.
Local Open Scope string_scope.

Module Worker002.
Import Rules AIPath Gmail Notifier.

(** ** State *)

(** The fields of [GmailNotifier] (lines 11-15, and [settings], set by
    [loadStoredData]). *)
Record worker2 := mk_worker2 {
  isRunning2 : bool; authToken2 : option string; processed2 : JsSet.t;
  settings2 : option stored_settings }.

Definition new_worker2 : worker2 := mk_worker2 false None JsSet.empty None.

Record world2 := mk_world2 {
  v_worker : worker2; v_ai : ai_processor; v_store : store;
  v_alarm : option Q; v_shown : list notification; v_listeners : nat }.

Definition with_worker2 (w : world2) (k : worker2) : world2 :=
  mk_world2 k (v_ai w) (v_store w) (v_alarm w) (v_shown w) (v_listeners w).

Definition with_token2 (w : world2) (t : option string) : world2 :=
  let k := v_worker w in with_worker2 w (mk_worker2 (isRunning2 k) t (processed2 k) (settings2 k)).

Definition with_store2 (w : world2) (s : store) : world2 :=
  mk_world2 (v_worker w) (v_ai w) s (v_alarm w) (v_shown w) (v_listeners w).

(** ** Operations *)

(** [loadStoredData] (lines 28-41): the stored array as a [Set], and the
    stored settings or [{ pollingInterval: 30 }]. *)
Definition loadStoredData2 (w : world2) : world2 :=
  let k := v_worker w in
  let ss := match st_settings (v_store w) with
            | Some ss => ss
            | None => mk_stored None (Some 30%Q)
            end in
  with_worker2 w (mk_worker2 (isRunning2 k) (authToken2 k)
                    (JsSet.of_array (stored_ids (v_store w))) (Some ss)).

(** [authenticate(forceRefresh)] (lines 43-72): [Some m] when it rethrows. *)
Definition authenticate2 (w : world2) (forceRefresh : bool) (r : auth_result) :
    world2 * option string :=
  let w1 := if forceRefresh && match authToken2 (v_worker w) with Some _ => true | None => false end
            then with_token2 w None else w in
  match r with
  | AuthOk t => (with_token2 w1 (Some t), None)
  | AuthFail m => (w1, Some m)
  end.

(** [showNotification] (lines 147-164). *)
Definition showNotification2 (w : world2) (e : email) (r : classification) : world2 :=
  mk_world2 (v_worker w) (v_ai w) (v_store w) (v_alarm w)
    (v_shown w ++ [mk_notification ("gmail-" ++ em_id e)
                     ("New Email from " ++ or_else (em_from_name e) (or_else (em_from_email e) "Unknown"))
                     (summary r ++ String LF (tag r))])
    (v_listeners w).

(** [processNewEmail] (lines 134-145): the [catch] swallows the rejection
    of [aiProcessor.processEmail] (its first call reads the settings). *)
Definition processNewEmail2 (env : check_env) (w : world2) (e : email) : world2 :=
  if match cached_settings (v_ai w) with None => negb (env_settings_read env) | Some _ => false end
  then w
  else
    let (ai', r) := AIPath.processEmail (v_ai w) (ai_view (v_store w)) (or_else (em_subject e) "")
                      (or_else (em_body e) (or_else (em_snippet e) "")) (env_reply env (em_id e)) in
    showNotification2 (mk_world2 (v_worker w) ai' (v_store w) (v_alarm w) (v_shown w) (v_listeners w)) e r.

(** [markMessageAsProcessed] (lines 127-132). *)
Definition markMessageAsProcessed2 (w : world2) (id : string) : world2 :=
  let k := v_worker w in
  let set := JsSet.add (processed2 k) id in
  let w1 := with_worker2 w (mk_worker2 (isRunning2 k) (authToken2 k) set (settings2 k)) in
  with_store2 w1 (mk_store (Some (JsSet.to_array set)) (st_settings (v_store w1)) (st_last_check (v_store w1))).

(** [isMessageProcessed] (lines 123-125). *)
Definition isMessageProcessed2 (w : world2) (id : string) : bool := JsSet.has (processed2 (v_worker w)) id.

(** The loop of lines 102-107: nothing in it can throw. *)
Fixpoint process_loop2 (env : check_env) (w : world2) (es : list email) : world2 :=
  match es with
  | [] => w
  | e :: es' =>
      if isMessageProcessed2 w (em_id e) then process_loop2 env w es'
      else process_loop2 env (markMessageAsProcessed2 (processNewEmail2 env w e) (em_id e)) es'
  end.

(** [checkForNewEmails] (lines 94-121).  The [catch] refreshes the token
    on a 401; when that refresh throws, the check itself rejects, which is
    the [Some m] of the result. *)
Definition checkForNewEmails2 (env : check_env) (w : world2) : world2 * option string :=
  let '(w1, err1) :=
    match authToken2 (v_worker w) with
    | None => authenticate2 w false (env_token env)
    | Some _ => (w, None)
    end in
  let '(w2, err) :=
    match err1 with
    | Some m => (w1, Some m)
    | None =>
        match getUnreadEmails (env_list env) (env_details env) with
        | inl m => (w1, Some m)
        | inr es =>
            let w' := process_loop2 env w1 es in
            (with_store2 w' (mk_store (st_processed (v_store w')) (st_settings (v_store w'))
                               (Some (env_now env))), None)
        end
    end in
  match err with
  | Some m => if includes m "401" then authenticate2 w2 true (env_refresh env) else (w2, None)
  | None => (w2, None)
  end.

(** [startPolling] (lines 74-92): the listener is added only once the
    awaited first check has resolved. *)
Definition startPolling2 (env : check_env) (w : world2) : world2 * option string :=
  let k := v_worker w in
  if isRunning2 k then (w, None)
  else
    let w1 := mk_world2 (mk_worker2 true (authToken2 k) (processed2 k) (settings2 k))
                (v_ai w) (v_store w) (Some (1 # 2)%Q) (v_shown w) (v_listeners w) in
    match checkForNewEmails2 env w1 with
    | (w2, Some m) => (w2, Some m)
    | (w2, None) =>
        (mk_world2 (v_worker w2) (v_ai w2) (v_store w2) (v_alarm w2) (v_shown w2)
                   (S (v_listeners w2)), None)
    end.

(** [initialize] (lines 17-26): every rejection ends in its [catch]. *)
Definition initialize2 (env : check_env) (w : world2) : world2 :=
  match authenticate2 (loadStoredData2 w) false (env_token env) with
  | (w1, Some _) => w1
  | (w1, None) => fst (startPolling2 env w1)
  end.

(** Every registered listener runs [checkForNewEmails]; the rejection of
    a call that nobody awaits has no effect on the state. *)
Fixpoint fire_listeners (n : nat) (env : check_env) (w : world2) : world2 :=
  match n with
  | O => w
  | S n' => fire_listeners n' env (fst (checkForNewEmails2 env w))
  end.

(** ** Events (lines 173-200) *)

Inductive event2 :=
| Installed2 (env : check_env)
| Startup2 (env : check_env)
| Restart2                          (** the worker is stopped and started again *)
| Alarm2 (name : string) (env : check_env)
| Message2 (action : string).       (** [chrome.runtime.onMessage] *)

(** The [onMessage] listener (lines 185-200): two independent [if]s. *)
Definition onMessage2 (w : world2) (action : string) : world2 * reply :=
  let r1 := if String.eqb action "getStatus"
            then StatusReply (mk_status (isRunning2 (v_worker w)) (JsSet.size (processed2 (v_worker w))) None)
            else NoReply in
  if String.eqb action "clearProcessed"
  then let k := v_worker w in
       (mk_world2 (mk_worker2 (isRunning2 k) (authToken2 k) JsSet.empty (settings2 k)) (v_ai w)
                  (mk_store (Some []) (st_settings (v_store w)) (st_last_check (v_store w)))
                  (v_alarm w) (v_shown w) (v_listeners w), ClearReply)
  else (w, r1).

Definition handle2 (w : world2) (ev : event2) : world2 * reply :=
  match ev with
  | Installed2 env | Startup2 env => (initialize2 env w, NoReply)
  | Restart2 => (mk_world2 new_worker2 initial_processor (v_store w) (v_alarm w) (v_shown w) O, NoReply)
  | Alarm2 name env =>
      if String.eqb name "gmail-poll" then (fire_listeners (v_listeners w) env w, NoReply)
      else (w, NoReply)
  | Message2 action => onMessage2 w action
  end.

Inductive step2 : world2 -> world2 -> Prop :=
| step2_event (w : world2) (ev : event2) : step2 w (fst (handle2 w ev)).

Inductive reachable2 (w0 : world2) : world2 -> Prop :=
| reach2_init : reachable2 w0 w0
| reach2_step (w w' : world2) : reachable2 w0 w -> step2 w w' -> reachable2 w0 w'.

Fixpoint run2 (w : world2) (evs : list event2) : world2 :=
  match evs with
  | [] => w
  | ev :: evs' => run2 (fst (handle2 w ev)) evs'
  end.

Definition initial_world2 : world2 :=
  mk_world2 new_worker2 initial_processor (mk_store None None None) None [] O.

(** ** Invariant *)

(** The fields an operation of a check never touches. *)
Definition ctl (w : world2) : bool * nat * option Q :=
  (isRunning2 (v_worker w), v_listeners w, v_alarm w).

(** The processed set has no duplicates and is stored. *)
Definition dedup_ok (w : world2) : Prop :=
  JsSet.wf (processed2 (v_worker w)) /\
  (forall id, JsSet.has (processed2 (v_worker w)) id = true -> In id (stored_ids (v_store w))).

(** At most one listener is registered, only by a running worker, and a
    running worker has created the 30-second alarm. *)
Definition ctl_ok (w : world2) : Prop :=
  (v_listeners w <= 1)%nat /\ (v_listeners w = 1%nat -> isRunning2 (v_worker w) = true) /\
  (isRunning2 (v_worker w) = true -> v_alarm w = Some (1 # 2)%Q).

Definition inv2 (w : world2) : Prop := dedup_ok w /\ ctl_ok w.

Lemma ctl_ok_of (w w' : world2) : ctl w' = ctl w -> ctl_ok w -> ctl_ok w'.
Proof. unfold ctl, ctl_ok. intros H. injection H as -> -> ->. auto. Qed.

Lemma dedup_ok_of (w w' : world2) :
  processed2 (v_worker w') = processed2 (v_worker w) -> stored_ids (v_store w') = stored_ids (v_store w) ->
  dedup_ok w -> dedup_ok w'.
Proof. unfold dedup_ok. intros -> ->. auto. Qed.

Lemma authenticate2_fields (w : world2) (f : bool) (r : auth_result) :
  let w' := fst (authenticate2 w f r) in
  ctl w' = ctl w /\ processed2 (v_worker w') = processed2 (v_worker w) /\ v_store w' = v_store w /\
  v_shown w' = v_shown w.
Proof. unfold authenticate2. destruct (f && _), r; repeat split. Qed.

Lemma processNewEmail2_fields (env : check_env) (w : world2) (e : email) :
  let w' := processNewEmail2 env w e in
  v_worker w' = v_worker w /\ v_store w' = v_store w /\ ctl w' = ctl w.
Proof.
  cbv zeta. unfold processNewEmail2.
  destruct (cached_settings (v_ai w)); [|destruct (env_settings_read env)]; simpl;
    try destruct (AIPath.processEmail _ _ _ _ _); repeat split.
Qed.

Lemma dedup_mark (w : world2) (id : string) : dedup_ok w -> dedup_ok (markMessageAsProcessed2 w id).
Proof.
  intros [I1 I2]. split; [apply JsSet.wf_add, I1|].
  intros y Hy. unfold stored_ids. simpl. apply JsSet.has_iff, Hy.
Qed.

Lemma process_loop2_inv (env : check_env) (es : list email) :
  forall w, dedup_ok w -> dedup_ok (process_loop2 env w es) /\ ctl (process_loop2 env w es) = ctl w.
Proof.
  induction es as [|e es IH]; intros w H; simpl; [auto|].
  destruct (isMessageProcessed2 w (em_id e)); [auto|].
  destruct (processNewEmail2_fields env w e) as (K & S & C).
  destruct (IH (markMessageAsProcessed2 (processNewEmail2 env w e) (em_id e))) as [D' C'].
  - apply dedup_mark. revert H. apply (dedup_ok_of w); congruence.
  - split; [exact D'|]. rewrite C'. exact C.
Qed.

Lemma authenticate2_dedup (w : world2) (f : bool) (r : auth_result) :
  dedup_ok w -> dedup_ok (fst (authenticate2 w f r)) /\ ctl (fst (authenticate2 w f r)) = ctl w.
Proof.
  intros H. destruct (authenticate2_fields w f r) as (C & P & S & _). split; [|exact C].
  revert H. apply (dedup_ok_of w); [exact P | now rewrite S].
Qed.

Lemma checkForNewEmails2_inv (env : check_env) (w : world2) :
  dedup_ok w -> dedup_ok (fst (checkForNewEmails2 env w)) /\ ctl (fst (checkForNewEmails2 env w)) = ctl w.
Proof.
  intros H. unfold checkForNewEmails2.
  set (p := match authToken2 (v_worker w) with
            | None => authenticate2 w false (env_token env) | Some _ => (w, None) end).
  assert (H1 : dedup_ok (fst p) /\ ctl (fst p) = ctl w)
    by (subst p; destruct (authToken2 _); [auto | apply authenticate2_dedup, H]).
  destruct p as [w1 [m|]]; destruct H1 as [D1 C1]; cbn [fst] in D1, C1.
  - destruct (includes m "401"); cbv beta iota; [|auto].
    destruct (authenticate2_dedup w1 true (env_refresh env) D1). split; congruence.
  - destruct (getUnreadEmails _ _) as [m|es].
    + destruct (includes m "401"); simpl; [|auto].
      destruct (authenticate2_dedup w1 true (env_refresh env) D1). split; congruence.
    + destruct (process_loop2_inv env es w1 D1) as [D2 C2]. simpl. split; [|now rewrite <- C1, <- C2].
      revert D2. apply (dedup_ok_of (process_loop2 env w1 es)); reflexivity.
Qed.

Lemma inv2_startPolling2 (env : check_env) (w : world2) : inv2 w -> inv2 (fst (startPolling2 env w)).
Proof.
  intros [D [L1 [L2 L3]]]. unfold startPolling2.
  destruct (isRunning2 (v_worker w)) eqn:R; [split; [exact D | repeat split; auto]|].
  assert (L0 : v_listeners w = 0%nat) by (destruct (v_listeners w) as [|[|n]]; [reflexivity | discriminate L2; reflexivity | lia]).
  match goal with |- context [checkForNewEmails2 env ?w1] =>
    destruct (checkForNewEmails2_inv env w1) as [D2 C2]; [revert D; apply (dedup_ok_of w); reflexivity|];
    destruct (checkForNewEmails2 env w1) as [w2 [m|]] end;
  cbn [fst] in D2, C2 |- *; unfold ctl in C2; cbn in C2; injection C2 as E1 E2 E3;
  (split; [exact D2|]); unfold ctl_ok; cbn; rewrite ?E1, ?E2, ?E3, L0; repeat split; auto; discriminate.
Qed.

Lemma inv2_initialize2 (env : check_env) (w : world2) : inv2 w -> inv2 (initialize2 env w).
Proof.
  intros [D C]. unfold initialize2.
  assert (Hl : inv2 (loadStoredData2 w)).
  { split; [split; [apply JsSet.wf_of_array | intros id Hid; apply JsSet.has_of_array, Hid]|].
    revert C. apply ctl_ok_of. reflexivity. }
  destruct Hl as [Dl Cl]. destruct (authenticate2_dedup (loadStoredData2 w) false (env_token env) Dl) as [Da Ca].
  assert (Ha : inv2 (fst (authenticate2 (loadStoredData2 w) false (env_token env))))
    by (split; [exact Da | revert Cl; apply ctl_ok_of, Ca]).
  destruct (authenticate2 (loadStoredData2 w) false (env_token env)) as [w1 [m|]]; [exact Ha|].
  apply inv2_startPolling2, Ha.
Qed.

Lemma inv2_fire_listeners (n : nat) (env : check_env) :
  forall w, inv2 w -> inv2 (fire_listeners n env w).
Proof.
  induction n as [|n IH]; intros w [D C]; [split; assumption|]. simpl. apply IH.
  destruct (checkForNewEmails2_inv env w D) as [D' C']. split; [exact D'|]. revert C. apply ctl_ok_of, C'.
Qed.

Lemma inv2_handle2 (w : world2) (ev : event2) : inv2 w -> inv2 (fst (handle2 w ev)).
Proof.
  intros H. destruct ev as [env|env| |name env|action]; simpl.
  1, 2: apply inv2_initialize2, H.
  - split; [split; [apply JsSet.wf_empty | intros id Hid; discriminate]|].
    unfold ctl_ok. simpl. repeat split; [lia | discriminate | discriminate].
  - destruct (String.eqb name "gmail-poll"); [apply inv2_fire_listeners, H | exact H].
  - destruct H as [D C]. unfold onMessage2. destruct (String.eqb action "clearProcessed"); [|split; assumption].
    split; [split; [apply JsSet.wf_empty | intros id Hid; discriminate]|]. revert C. apply ctl_ok_of. reflexivity.
Qed.

(** C10: in every world reachable from one where it holds, the processed
    set of part_002's worker has no duplicates and is stored, at most one
    [gmail-poll] listener is registered and only by a running worker,
    and a running worker has created the 30-second alarm. *)
Theorem reachable2_inv (w0 w : world2) : inv2 w0 -> reachable2 w0 w -> inv2 w.
Proof.
  intros H0 R. induction R as [|w w' R IH S]; [exact H0|]. destruct S. now apply inv2_handle2.
Qed.

(** ** A failed message is marked processed *)

Lemma has_mark2 (w : world2) (id y : string) :
  JsSet.has (processed2 (v_worker (markMessageAsProcessed2 w id))) y = true <->
  y = id \/ JsSet.has (processed2 (v_worker w)) y = true.
Proof. apply JsSet.has_add. Qed.

Lemma process_loop2_mono (env : check_env) (es : list email) :
  forall w y, JsSet.has (processed2 (v_worker w)) y = true ->
  JsSet.has (processed2 (v_worker (process_loop2 env w es))) y = true.
Proof.
  induction es as [|e es IH]; intros w y H; simpl; [exact H|].
  destruct (isMessageProcessed2 w (em_id e)); apply IH; [exact H|].
  apply has_mark2. right. destruct (processNewEmail2_fields env w e) as (K & _). now rewrite K.
Qed.

Lemma process_loop2_marks (env : check_env) (es : list email) :
  forall w e, In e es -> JsSet.has (processed2 (v_worker (process_loop2 env w es))) (em_id e) = true.
Proof.
  induction es as [|e es IH]; intros w e' Hin; [destruct Hin|]. simpl.
  destruct Hin as [<-|Hin]; [|destruct (isMessageProcessed2 w (em_id e)); apply IH, Hin].
  destruct (isMessageProcessed2 w (em_id e)) eqn:Hh; apply process_loop2_mono; [exact Hh|].
  apply has_mark2. now left.
Qed.

(** When the settings cannot be read, [processNewEmail] changes nothing. *)
Lemma processNewEmail2_read_fails (env : check_env) (w : world2) (e : email) :
  cached_settings (v_ai w) = None -> env_settings_read env = false -> processNewEmail2 env w e = w.
Proof. intros H1 H2. unfold processNewEmail2. now rewrite H1, H2. Qed.

Lemma process_loop2_read_fails (env : check_env) (es : list email) :
  env_settings_read env = false ->
  forall w, cached_settings (v_ai w) = None ->
  v_shown (process_loop2 env w es) = v_shown w /\ v_ai (process_loop2 env w es) = v_ai w.
Proof.
  intros Hr. induction es as [|e es IH]; intros w Hc; simpl; [auto|].
  destruct (isMessageProcessed2 w (em_id e)); [auto|]. rewrite processNewEmail2_read_fails by assumption.
  destruct (IH (markMessageAsProcessed2 w (em_id e)) Hc) as [A B]. split; [exact A | exact B].
Qed.

(** C15: a check whose processing of the messages fails (the settings
    read of the AI processor's first call rejects) still resolves, shows
    no notification, and marks every fetched message as processed, so no
    later check looks at them again (spec.md, section 5, marks a message
    only after a notification dispatch was attempted). *)
Theorem failed_processing_marked (env : check_env) (w : world2) (t : string) (es : list email) :
  authToken2 (v_worker w) = Some t -> getUnreadEmails (env_list env) (env_details env) = inr es ->
  cached_settings (v_ai w) = None -> env_settings_read env = false ->
  snd (checkForNewEmails2 env w) = None /\
  v_shown (fst (checkForNewEmails2 env w)) = v_shown w /\
  (forall e, In e es -> JsSet.has (processed2 (v_worker (fst (checkForNewEmails2 env w)))) (em_id e) = true).
Proof.
  intros Ht Hg Hc Hr. unfold checkForNewEmails2. rewrite Ht, Hg. cbn.
  split; [reflexivity|]. split; [apply (process_loop2_read_fails env es Hr w Hc)|].
  intros e Hin. apply process_loop2_marks, Hin.
Qed.

(** ** Polling is dead after a rejected first check *)

Definition not_restart (ev : event2) : bool :=
  match ev with Restart2 => false | _ => true end.

Lemma initialize2_running (env : check_env) (w : world2) :
  isRunning2 (v_worker w) = true ->
  let w' := initialize2 env w in ctl w' = ctl w /\ v_shown w' = v_shown w.
Proof.
  intros R. unfold initialize2.
  destruct (authenticate2_fields (loadStoredData2 w) false (env_token env)) as (C & _ & _ & S).
  destruct (authenticate2 (loadStoredData2 w) false (env_token env)) as [w1 [m|]];
    cbn [fst] in C, S |- *; [auto|].
  unfold startPolling2. replace (isRunning2 (v_worker w1)) with true; [auto|].
  unfold ctl in C. cbn in C. injection C as -> _ _. symmetry. exact R.
Qed.

Lemma handle2_dead (w : world2) (ev : event2) :
  isRunning2 (v_worker w) = true -> v_listeners w = 0%nat -> not_restart ev = true ->
  ctl (fst (handle2 w ev)) = ctl w /\ v_shown (fst (handle2 w ev)) = v_shown w.
Proof.
  intros R L Hev. destruct ev as [env|env| |name env|action]; try discriminate Hev; simpl.
  1, 2: apply initialize2_running, R.
  - rewrite L. destruct (String.eqb name "gmail-poll"); auto.
  - unfold onMessage2. destruct (String.eqb action "clearProcessed"); auto.
Qed.

(** C16: once [startPolling] has set [isRunning] but its awaited first
    check rejected (a 401 whose token refresh fails), no listener is ever
    registered: whatever events follow, short of a restart of the worker,
    no notification is shown and the worker still reports itself running,
    since [initialize] finds [isRunning] set and returns early. *)
Theorem polling_dead_after_failed_start (w : world2) (evs : list event2) :
  isRunning2 (v_worker w) = true -> v_listeners w = 0%nat -> forallb not_restart evs = true ->
  v_shown (run2 w evs) = v_shown w /\ isRunning2 (v_worker (run2 w evs)) = true /\
  v_listeners (run2 w evs) = 0%nat.
Proof.
  revert w. induction evs as [|ev evs IH]; intros w R L H; simpl in *; [auto|].
  apply andb_prop in H as [Hev H].
  destruct (handle2_dead w ev R L Hev) as [C S]. unfold ctl in C. injection C as R' L' _.
  destruct (IH (fst (handle2 w ev))) as (A & B & D); [congruence | congruence | exact H|].
  split; [congruence | auto].
Qed.

(** ** No message is notified twice while the set is kept *)

Definition notified2 (w : world2) : Prop := notified_list (v_shown w) (processed2 (v_worker w)).

Lemma notified2_of (w w' : world2) :
  v_shown w' = v_shown w -> processed2 (v_worker w') = processed2 (v_worker w) ->
  notified2 w -> notified2 w'.
Proof. unfold notified2. intros -> ->. auto. Qed.

Lemma processNewEmail2_shown (env : check_env) (w : world2) (e : email) :
  v_shown (processNewEmail2 env w e) = v_shown w \/
  exists n, v_shown (processNewEmail2 env w e) = (v_shown w ++ [n])%list /\ nt_id n = ("gmail-" ++ em_id e)%string.
Proof.
  unfold processNewEmail2.
  destruct (cached_settings (v_ai w)); [|destruct (env_settings_read env)]; simpl; auto;
    destruct (AIPath.processEmail _ _ _ _ _); right; eexists; split; reflexivity.
Qed.

Lemma notified2_loop (env : check_env) (es : list email) :
  forall w, notified2 w -> notified2 (process_loop2 env w es).
Proof.
  induction es as [|e es IH]; intros w H; simpl; [exact H|].
  destruct (isMessageProcessed2 w (em_id e)) eqn:Hh; [auto|]. apply IH.
  destruct (processNewEmail2_fields env w e) as (K & _).
  unfold notified2, markMessageAsProcessed2. simpl. rewrite K.
  destruct (processNewEmail2_shown env w e) as [E|(n & E & Hn)]; rewrite E;
    [apply notified_list_add, H | now apply notified_list_snoc].
Qed.

Lemma notified2_authenticate2 (w : world2) (f : bool) (r : auth_result) :
  notified2 w -> notified2 (fst (authenticate2 w f r)).
Proof. destruct (authenticate2_fields w f r) as (_ & P & _ & S). apply notified2_of; assumption. Qed.

Lemma notified2_check (env : check_env) (w : world2) :
  notified2 w -> notified2 (fst (checkForNewEmails2 env w)).
Proof.
  intros H. unfold checkForNewEmails2.
  set (p := match authToken2 (v_worker w) with
            | None => authenticate2 w false (env_token env) | Some _ => (w, None) end).
  assert (H1 : notified2 (fst p)) by (subst p; destruct (authToken2 _); [exact H | apply notified2_authenticate2, H]).
  assert (Herr : forall w2 m, notified2 w2 ->
            notified2 (fst (if includes m "401" then authenticate2 w2 true (env_refresh env) else (w2, None))))
    by (intros w2 m H2; destruct (includes m "401"); [apply notified2_authenticate2, H2 | exact H2]).
  destruct p as [w1 [m|]]; cbn [fst] in H1; [apply Herr, H1|].
  destruct (getUnreadEmails _ _) as [m|es]; [apply Herr, H1|].
  apply (notified2_of (process_loop2 env w1 es)); [reflexivity | reflexivity | apply notified2_loop, H1].
Qed.

Lemma notified2_fire (n : nat) (env : check_env) :
  forall w, notified2 w -> notified2 (fire_listeners n env w).
Proof. induction n as [|n IH]; intros w H; simpl; [exact H | apply IH, notified2_check, H]. Qed.

(** The events that keep the processed set. *)
Definition keeps_set2 (ev : event2) : bool :=
  match ev with
  | Restart2 => false
  | Message2 action => negb (String.eqb action "clearProcessed")
  | _ => true
  end.

Lemma notified2_initialize2 (env : check_env) (w : world2) :
  dedup_ok w -> notified2 w -> notified2 (initialize2 env w).
Proof.
  intros [_ Hst] H. unfold initialize2.
  assert (Hl : notified2 (loadStoredData2 w)).
  { revert H. apply notified_list_mono. intros id Hid. apply JsSet.has_of_array, Hst, Hid. }
  pose proof (notified2_authenticate2 _ false (env_token env) Hl) as Ha.
  destruct (authenticate2 (loadStoredData2 w) false (env_token env)) as [w1 [m|]]; [exact Ha|].
  unfold startPolling2. destruct (isRunning2 (v_worker w1)); [exact Ha|].
  match goal with |- context [checkForNewEmails2 env ?w2] =>
    pose proof (notified2_check env w2 Ha) as Hc; destruct (checkForNewEmails2 env w2) as [w3 [m|]] end;
  exact Hc.
Qed.

Lemma notified2_handle2 (w : world2) (ev : event2) :
  inv2 w -> keeps_set2 ev = true -> notified2 w -> notified2 (fst (handle2 w ev)).
Proof.
  intros [D _] Hev H. destruct ev as [env|env| |name env|action]; simpl in *; try discriminate.
  1, 2: now apply notified2_initialize2.
  - destruct (String.eqb name "gmail-poll"); [apply notified2_fire, H | exact H].
  - unfold onMessage2. apply negb_true_iff in Hev. rewrite Hev. exact H.
Qed.

(** In the event model, where each alarm's check runs to completion
    before the next event, and as long as the worker is not restarted
    and the history is not cleared, part_002's worker never notifies a
    message id twice; its alarm listener (line 87) does not await the
    check either, so overlapping checks are not covered. *)
Theorem no_duplicate_notification2 (w : world2) (evs : list event2) :
  inv2 w -> notified2 w -> forallb keeps_set2 evs = true ->
  NoDup (map nt_id (v_shown (run2 w evs))).
Proof.
  revert w. induction evs as [|ev evs IH]; intros w Hi Hn Hevs; simpl in *; [apply Hn|].
  apply andb_prop in Hevs as [Hev Hevs]. apply IH; [now apply inv2_handle2 | now apply notified2_handle2 | exact Hevs].
Qed.

(** ** Scenarios *)

(** The check of [env_m1], but the AI processor's settings read rejects. *)
Definition env_fail : check_env :=
  mk_env (env_token env_m1) (env_list env_m1) (env_details env_m1) false "storage unavailable"
         (env_reply env_m1) (env_refresh env_m1) (env_now env_m1).

(** The first check gets a 401 and the token refresh is refused. *)
Definition env_dead : check_env :=
  mk_env (AuthOk "tok") (ListStatus 401 "Unauthorized") (fun _ => DetailThrow) true ""
         (fun _ => ReplyFailed) (AuthFail "The user did not approve access.") "t0".

(** On install, a check whose AI settings read fails swallows the
    error and marks m1 processed; the next polls, with the storage
    readable again, never notify m1. *)
Theorem failed_message_never_notified :
  let w := run2 initial_world2 [Installed2 env_fail; Alarm2 "gmail-poll" env_m1; Alarm2 "gmail-poll" env_m1] in
  v_shown w = [] /\ JsSet.has (processed2 (v_worker w)) "m1" = true /\ stored_ids (v_store w) = ["m1"] /\
  v_listeners w = 1%nat.
Proof. vm_compute. repeat split. Qed.

(** Without the failure, the same events notify m1 once. *)
Theorem install_notifies_once :
  let w := run2 initial_world2 [Installed2 env_m1; Alarm2 "gmail-poll" env_m1; Alarm2 "gmail-poll" env_m1] in
  map nt_id (v_shown w) = ["gmail-m1"] /\ v_listeners w = 1%nat /\ v_alarm w = Some (1 # 2)%Q.
Proof. vm_compute. repeat split. Qed.

Lemma inv2_initial : inv2 initial_world2.
Proof.
  split; [split; [apply JsSet.wf_empty | intros id Hid; discriminate]|].
  unfold ctl_ok. simpl. repeat split; [lia | discriminate | discriminate].
Qed.

Definition first_run2 : list event2 :=
  [Installed2 env_m1; Alarm2 "gmail-poll" env_m1; Message2 "getStatus"; Startup2 env_fail;
   Alarm2 "gmail-poll" env_401].

(** ** Witnesses *)

Lemma reachable2_inv_witness :
  inv2 initial_world2 /\ reachable2 initial_world2 (run2 initial_world2 first_run2) /\
  inv2 (run2 initial_world2 first_run2).
Proof.
  assert (R : reachable2 initial_world2 (run2 initial_world2 first_run2)).
  { unfold first_run2, run2. repeat (eapply reach2_step; [|apply step2_event]). apply reach2_init. }
  split; [exact inv2_initial|]. split; [exact R|].
  exact (reachable2_inv initial_world2 _ inv2_initial R).
Defined.

Lemma no_duplicate_notification2_witness :
  inv2 initial_world2 /\ notified2 initial_world2 /\ forallb keeps_set2 first_run2 = true /\
  NoDup (map nt_id (v_shown (run2 initial_world2 first_run2))).
Proof.
  assert (N : notified2 initial_world2) by (split; [constructor | intros n []]).
  split; [exact inv2_initial|]. split; [exact N|]. split; [reflexivity|].
  exact (no_duplicate_notification2 initial_world2 first_run2 inv2_initial N eq_refl).
Defined.

Definition dead_world : world2 := run2 initial_world2 [Installed2 env_dead].

Lemma polling_dead_after_failed_start_witness :
  isRunning2 (v_worker dead_world) = true /\ v_listeners dead_world = 0%nat /\
  v_alarm dead_world = Some (1 # 2)%Q /\
  v_shown (run2 dead_world [Alarm2 "gmail-poll" env_m1; Installed2 env_m1; Message2 "getStatus"]) = [].
Proof.
  assert (R : isRunning2 (v_worker dead_world) = true) by (vm_compute; reflexivity).
  assert (L : v_listeners dead_world = 0%nat) by (vm_compute; reflexivity).
  split; [exact R|]. split; [exact L|]. split; [vm_compute; reflexivity|].
  destruct (polling_dead_after_failed_start dead_world
              [Alarm2 "gmail-poll" env_m1; Installed2 env_m1; Message2 "getStatus"] R L eq_refl) as [S _].
  rewrite S. vm_compute. reflexivity.
Defined.

Definition token_world : world2 := with_token2 initial_world2 (Some "tok").

Definition m1_batch : list email :=
  match getUnreadEmails (env_list env_m1) (env_details env_m1) with inr es => es | inl _ => [] end.

Lemma failed_processing_marked_witness :
  getUnreadEmails (env_list env_fail) (env_details env_fail) = inr m1_batch /\
  v_shown (fst (checkForNewEmails2 env_fail token_world)) = [] /\
  JsSet.has (processed2 (v_worker (fst (checkForNewEmails2 env_fail token_world)))) "m1" = true.
Proof.
  assert (G : getUnreadEmails (env_list env_fail) (env_details env_fail) = inr m1_batch) by (vm_compute; reflexivity).
  destruct (failed_processing_marked env_fail token_world "tok" m1_batch eq_refl G eq_refl eq_refl) as (_ & S & M).
  split; [exact G|]. split; [exact S|]. apply (M (hd (parseMessage m1_data) m1_batch)). vm_compute. left. reflexivity.
Defined.

End Worker002.
