(* ===== verification/Interleave.v ===== *)
(** * Interleave: overlapping checks of part_001's worker

    [Notifier.handle] runs a check to completion.  In the extension a
    check of [checkForNewEmails] (src/unnamed/part_001, lines 104-131) is
    an [async] function that yields at every [await]: the token request
    (line 109), the Gmail fetch (line 112), the AI call inside
    [processEmail] (line 142), the resolution of [processEmail] itself
    (line 116), the storage write of [markAsProcessed] (line 135), the
    write of the last-check time (line 121) and the token refresh of the
    [catch] (line 128).  An alarm tick starts a new check whether or not
    one is still running (lines 163-168; there is no in-flight guard).

    Here a running check is a thread: its environment answers and its
    program counter [pc], the await point it is suspended at.  [resume]
    runs the code from that await point to the next one, with the
    synchronous parts ([has], [add], issuing the storage writes) done at
    once.  [tstep] resumes any one suspended thread, so every order in
    which the awaited promises settle is a path of [tstep]; [cstep] also
    lets an alarm start a check.  The token refresh of the [catch]
    ([removeCachedAuthToken] then [getAuthToken]) is one step.

    The theorems: a check run alone refines [Notifier.checkForNewEmails];
    every interleaving of running checks terminates, within 33 steps per
    check; the invariant of [Notifier] holds along every interleaving;
    and two overlapping checks can notify the same message twice. *)

From Stdlib Require Import String List Bool Arith Lia Wellfounded.
From S2P Require Import Prelude AIPath Gmail Dedup Notifier.
Import ListNotations.
Local Open Scope string_scope.

Module Interleave.
Import AIPath Gmail Notifier.

(** ** Threads *)

Inductive pc :=
| PAuth                            (** [await this.authenticate()], line 109 *)
| PList                            (** [await gmailAPI.getUnreadEmails], line 112 *)
| PProcess (e : email) (es : list email) (** [await aiProcessor.processEmail], line 142 *)
| PNotified (e : email) (es : list email) (** [await this.processEmail(email)], line 116 *)
| PMark (es : list email)          (** [await chrome.storage.local.set], line 135 *)
| PLastCheck                       (** [await chrome.storage.local.set], line 121 *)
| PRefresh                         (** [await this.authenticate(true)], line 128 *)
| PDone.

Definition thread : Type := check_env * pc.

Definition config : Type := world * list thread.

Definition is_done (p : pc) : bool := match p with PDone => true | _ => false end.

(** ** The synchronous segments *)

(** The [catch] (lines 124-130): a 401 starts the token refresh. *)
Definition enter_catch (w : world) (m : string) : world * pc :=
  (w, if includes m "401" then PRefresh else PDone).

Definition set_last_check (env : check_env) (w : world) : world :=
  with_store w (mk_store (st_processed (w_store w)) (st_settings (w_store w)) (Some (env_now env))).

(** The loop (lines 114-119) from the next e-mail on: processed ids are
    skipped synchronously; the first new one calls [processEmail]; after
    the last one the last-check time is written (line 121). *)
Fixpoint loop_from (env : check_env) (w : world) (es : list email) : world * pc :=
  match es with
  | [] => (set_last_check env w, PLastCheck)
  | e :: es' =>
      if JsSet.has (processedMessages (w_worker w)) (em_id e) then loop_from env w es'
      else (w, PProcess e es')
  end.

(** The call of [checkForNewEmails] (lines 104-112) up to its first await. *)
Definition start (env : check_env) (w : world) : world * pc :=
  if negb (isRunning (w_worker w)) then (w, PDone)
  else match authToken (w_worker w) with
       | None => (w, PAuth)
       | Some _ => (w, PList)
       end.

(** From an await point to the next one. *)
Definition resume (env : check_env) (w : world) (p : pc) : world * pc :=
  match p with
  | PAuth =>
      match authenticate w false (env_token env) with
      | (w1, None) => (w1, PList)
      | (w1, Some m) => enter_catch w1 m
      end
  | PList =>
      match getUnreadEmails (env_list env) (env_details env) with
      | inl m => enter_catch w m
      | inr es => loop_from env w es
      end
  | PProcess e es =>
      match processEmail_w env w e with
      | None => enter_catch w (env_storage_error env)
      | Some w1 => (w1, PNotified e es)
      end
  | PNotified e es => (markAsProcessed w (em_id e), PMark es)
  | PMark es => loop_from env w es
  | PLastCheck => (w, PDone)
  | PRefresh => (fst (authenticate w true (env_refresh env)), PDone)
  | PDone => (w, PDone)
  end.

(** ** Interleavings *)

Inductive tstep : config -> config -> Prop :=
| tstep_resume (w : world) (ts1 ts2 : list thread) (env : check_env) (p : pc) :
    is_done p = false ->
    tstep (w, (ts1 ++ (env, p) :: ts2)%list)
          (fst (resume env w p), (ts1 ++ (env, snd (resume env w p)) :: ts2)%list).

(** The events whose handler runs between two awaits of a check without
    awaiting anything the state depends on: the popup's [getStatus],
    [clearProcessed] and save button, and [togglePolling] when it stops
    polling ([isRunning] is cleared before [await chrome.alarms.clear]). *)
Definition interleaved (w : world) (ev : event) : bool :=
  match ev with
  | GetStatus | ClearProcessed | SaveKey _ => true
  | TogglePolling _ _ => isRunning (w_worker w)
  | _ => false
  end.

(** An alarm tick (lines 163-168) starts one more check; a message of
    the popup runs between two awaits; a restart of the worker ends every
    running check with it. *)
Inductive cstep : config -> config -> Prop :=
| cstep_thread (c c' : config) : tstep c c' -> cstep c c'
| cstep_alarm (w : world) (ts : list thread) (env : check_env) :
    cstep (w, ts) (fst (start env w), (ts ++ [(env, snd (start env w))])%list)
| cstep_event (w : world) (ts : list thread) (ev : event) :
    interleaved w ev = true -> cstep (w, ts) (fst (handle w ev), ts)
| cstep_restart (w : world) (ts : list thread) :
    cstep (w, ts) (fst (handle w WorkerRestart), []).

Inductive star {A : Type} (R : A -> A -> Prop) : A -> A -> Prop :=
| star_refl (a : A) : star R a a
| star_step (a b c : A) : R a b -> star R b c -> star R a c.

Inductive nsteps {A : Type} (R : A -> A -> Prop) : nat -> A -> A -> Prop :=
| nsteps_refl (a : A) : nsteps R 0 a a
| nsteps_step (n : nat) (a b c : A) : R a b -> nsteps R n b c -> nsteps R (S n) a c.

(** An executable scheduler: resume thread [i], or start a check. *)
Definition resume_at (c : config) (i : nat) : option config :=
  match nth_error (snd c) i with
  | Some (env, p) =>
      if is_done p then None
      else Some (fst (resume env (fst c) p),
                 (firstn i (snd c) ++ (env, snd (resume env (fst c) p)) :: skipn (S i) (snd c))%list)
  | None => None
  end.

Fixpoint schedule (c : config) (order : list nat) : option config :=
  match order with
  | [] => Some c
  | i :: order' => match resume_at c i with Some c1 => schedule c1 order' | None => None end
  end.

Definition spawn (c : config) (env : check_env) : config :=
  (fst (start env (fst c)), (snd c ++ [(env, snd (start env (fst c)))])%list).

(** ** Termination *)

(** The e-mails a check's fetch returns. *)
Definition batch (env : check_env) : list email :=
  match getUnreadEmails (env_list env) (env_details env) with inr es => es | inl _ => [] end.

(** An upper bound on the steps a thread still takes. *)
Definition measure_pc (env : check_env) (p : pc) : nat :=
  match p with
  | PAuth => 3 * length (batch env) + 3
  | PList => 3 * length (batch env) + 2
  | PProcess _ es => 3 * length es + 4
  | PNotified _ es => 3 * length es + 3
  | PMark es => 3 * length es + 2
  | PLastCheck | PRefresh => 1
  | PDone => 0
  end.

Definition measure_threads (ts : list thread) : nat :=
  fold_right (fun t acc => measure_pc (fst t) (snd t) + acc) 0 ts.

Definition measure (c : config) : nat := measure_threads (snd c).

Lemma measure_threads_app (ts1 ts2 : list thread) :
  measure_threads (ts1 ++ ts2) = measure_threads ts1 + measure_threads ts2.
Proof. induction ts1 as [|t ts1 IH]; simpl; [reflexivity | rewrite IH; lia]. Qed.

Lemma enter_catch_measure (env : check_env) (w : world) (m : string) :
  measure_pc env (snd (enter_catch w m)) <= 1.
Proof. unfold enter_catch. simpl. destruct (includes m "401"); simpl; lia. Qed.

Lemma loop_from_measure (env : check_env) (es : list email) :
  forall w, measure_pc env (snd (loop_from env w es)) <= 3 * length es + 1.
Proof.
  induction es as [|e es IH]; intros w; simpl; [lia|].
  destruct (JsSet.has _ _); simpl; [specialize (IH w); lia | lia].
Qed.

(** Resuming a suspended thread lowers its measure. *)
Lemma resume_measure (env : check_env) (w : world) (p : pc) :
  is_done p = false -> measure_pc env (snd (resume env w p)) < measure_pc env p.
Proof.
  intros H. destruct p as [| |e es|e es|es| | |]; simpl; try discriminate H; try lia.
  - destruct (authenticate w false (env_token env)) as [w1 [m|]]; [pose proof (enter_catch_measure env w1 m); lia | simpl; lia].
  - unfold batch. destruct (getUnreadEmails _ _) as [m|es]; [pose proof (enter_catch_measure env w m); lia|].
    pose proof (loop_from_measure env es w). lia.
  - destruct (processEmail_w env w e); [simpl; lia | pose proof (enter_catch_measure env w (env_storage_error env)); lia].
  - pose proof (loop_from_measure env es w). lia.
Qed.

Lemma tstep_measure (c c' : config) : tstep c c' -> measure c' < measure c.
Proof.
  intros [w ts1 ts2 env p Hp]. unfold measure. simpl. rewrite !measure_threads_app. simpl.
  pose proof (resume_measure env w p Hp). lia.
Qed.

(** Every interleaving of the running checks terminates: the
    relation "[c'] is reached from [c] by resuming one check" is
    well-founded, whatever order the awaited promises settle in. *)
Theorem checks_terminate : well_founded (fun c' c => tstep c c').
Proof.
  apply (wf_incl _ _ (ltof config measure)); [intros c' c H; apply tstep_measure, H|].
  apply well_founded_ltof.
Qed.

(** ** The executable scheduler follows the interleaving semantics *)

Lemma star_trans {A : Type} (R : A -> A -> Prop) (a b c : A) : star R a b -> star R b c -> star R a c.
Proof. induction 1 as [|a b' c' H _ IH]; intros H'; [exact H' | eapply star_step; [exact H | apply IH, H']]. Qed.

Lemma star_tstep_cstep (c c' : config) : star tstep c c' -> star cstep c c'.
Proof. induction 1; [apply star_refl | eapply star_step; [apply cstep_thread; eassumption | assumption]]. Qed.

Lemma resume_at_tstep (c c' : config) (i : nat) : resume_at c i = Some c' -> tstep c c'.
Proof.
  destruct c as [w ts]. unfold resume_at. simpl.
  destruct (nth_error ts i) as [[env p]|] eqn:E; [|discriminate].
  destruct (is_done p) eqn:D; [discriminate|]. intros H. injection H as <-.
  destruct (nth_error_split ts i E) as (l1 & l2 & -> & <-).
  rewrite firstn_app, Nat.sub_diag, firstn_all, skipn_app. simpl.
  replace (skipn (S (length l1)) l1) with (@nil thread) by (symmetry; apply skipn_all2; lia).
  rewrite Nat.sub_succ_l, Nat.sub_diag by lia. simpl. rewrite app_nil_r.
  apply tstep_resume, D.
Qed.

Lemma schedule_star (order : list nat) : forall c c', schedule c order = Some c' -> star tstep c c'.
Proof.
  induction order as [|i order IH]; intros c c' H; simpl in H; [injection H as <-; apply star_refl|].
  destruct (resume_at c i) as [c1|] eqn:E; [|discriminate].
  eapply star_step; [apply (resume_at_tstep c c1 i E) | apply IH, H].
Qed.

Lemma schedule_nsteps (order : list nat) :
  forall c c', schedule c order = Some c' -> nsteps tstep (length order) c c'.
Proof.
  induction order as [|i order IH]; intros c c' H; simpl in H; [injection H as <-; apply nsteps_refl|].
  destruct (resume_at c i) as [c1|] eqn:E; [|discriminate].
  eapply nsteps_step; [apply (resume_at_tstep c c1 i E) | apply IH, H].
Qed.

Lemma spawn_cstep (c : config) (env : check_env) : cstep c (spawn c env).
Proof. destruct c as [w ts]. apply cstep_alarm. Qed.

(** ** Bounds *)

Lemma nsteps_measure (n : nat) (c c' : config) : nsteps tstep n c c' -> n + measure c' <= measure c.
Proof. induction 1 as [|n a b c H _ IH]; [lia|]. pose proof (tstep_measure a b H). lia. Qed.

Lemma start_measure (env : check_env) (w : world) : measure_pc env (snd (start env w)) <= 33.
Proof.
  assert (B : length (batch env) <= 10).
  { unfold batch. destruct (getUnreadEmails _ _) eqn:G; [simpl; lia | eapply getUnreadEmails_at_most_10, G]. }
  unfold start. destruct (negb _); [simpl; lia|]. destruct (authToken _); simpl; lia.
Qed.

Lemma measure_started (w : world) (envs : list check_env) :
  measure_threads (map (fun env => (env, snd (start env w))) envs) <= 33 * length envs.
Proof.
  induction envs as [|env envs IH]; simpl; [lia|]. pose proof (start_measure env w). lia.
Qed.

(** C17: checks started on the same world (what [k] alarm ticks do, since
    starting a check changes nothing before its first await) finish after
    at most [33 * k] resumptions in total, in whatever order they run:
    each fetch returns at most ten e-mails and each e-mail costs three
    awaits. *)
Theorem checks_bounded (w : world) (envs : list check_env) (n : nat) (c' : config) :
  nsteps tstep n (w, map (fun env => (env, snd (start env w))) envs) c' -> n <= 33 * length envs.
Proof.
  intros H. apply nsteps_measure in H. unfold measure in H. simpl in H.
  pose proof (measure_started w envs). lia.
Qed.

(** ** A check run alone is [Notifier.checkForNewEmails] *)

(** What the check ends with after the loop: the last-check time, or the
    [catch]. *)
Definition finish (env : check_env) (r : world * option string) : world :=
  match snd r with
  | None => set_last_check env (fst r)
  | Some m => on_error env (fst r) (Some m)
  end.

Lemma star_resume (env : check_env) (w : world) (p : pc) (c : config) :
  is_done p = false -> star tstep (fst (resume env w p), [(env, snd (resume env w p))]) c ->
  star tstep (w, [(env, p)]) c.
Proof. intros D H. eapply star_step; [apply (tstep_resume w [] [] env p D) | exact H]. Qed.

Lemma enter_catch_finish (env : check_env) (w : world) (m : string) :
  star tstep (fst (enter_catch w m), [(env, snd (enter_catch w m))]) (on_error env w (Some m), [(env, PDone)]).
Proof.
  unfold enter_catch, on_error. simpl. destruct (includes m "401"); [|apply star_refl].
  apply star_resume; [reflexivity | apply star_refl].
Qed.

Lemma loop_finish (env : check_env) (es : list email) :
  forall w, star tstep (fst (loop_from env w es), [(env, snd (loop_from env w es))])
                       (finish env (process_batch env w es), [(env, PDone)]).
Proof.
  induction es as [|e es IH]; intros w; simpl.
  - apply star_resume; [reflexivity | apply star_refl].
  - destruct (JsSet.has _ _); [apply IH|]. apply star_resume; [reflexivity|]. simpl.
    destruct (processEmail_w env w e) as [w1|]; [|apply enter_catch_finish].
    apply star_resume; [reflexivity|]. apply star_resume; [reflexivity | apply IH].
Qed.

Lemma tstep_single (env : check_env) (w : world) (p : pc) (c' : config) :
  tstep (w, [(env, p)]) c' -> is_done p = false /\ c' = (fst (resume env w p), [(env, snd (resume env w p))]).
Proof.
  intros H. remember (w, [(env, p)]) as c eqn:Ec. destruct H as [w0 ts1 ts2 env0 p0 D].
  injection Ec as -> E. destruct ts1 as [|t [|]]; simpl in E; [|discriminate|discriminate].
  injection E as -> -> ->. split; [exact D | reflexivity].
Qed.

Lemma done_stuck (w : world) (env : check_env) (c' : config) : ~ tstep (w, [(env, PDone)]) c'.
Proof. intros H. apply tstep_single in H as [D _]. discriminate D. Qed.

(** A single thread is deterministic: it reaches at most one finished
    configuration. *)
Lemma single_deterministic (env : check_env) (w : world) (p : pc) (w1 w2 : world) :
  star tstep (w, [(env, p)]) (w1, [(env, PDone)]) -> star tstep (w, [(env, p)]) (w2, [(env, PDone)]) ->
  w1 = w2.
Proof.
  intros H1. remember (w1, [(env, PDone)]) as d eqn:Ed. remember (w, [(env, p)]) as c eqn:Ec.
  revert w p Ec. induction H1 as [c0|c0 c1 c2 S _ IH]; intros w p Ec H2; subst c0.
  - inversion H2 as [|? c1 ? S' _]; [reflexivity|]. now apply done_stuck in S'.
  - apply tstep_single in S as [D ->]. inversion H2 as [|? c1' ? S' R']; [subst; discriminate D|].
    apply tstep_single in S' as [_ ->]. eapply IH; [exact Ed | reflexivity | exact R'].
Qed.

(** Run alone, the small-step check is the big-step one the event
    model uses: from its start it reaches the world
    [Notifier.checkForNewEmails env w] with the check finished, and no
    other finished configuration. *)
Theorem check_refines (env : check_env) (w : world) :
  star tstep (fst (start env w), [(env, snd (start env w))]) (checkForNewEmails env w, [(env, PDone)]) /\
  (forall w', star tstep (fst (start env w), [(env, snd (start env w))]) (w', [(env, PDone)]) ->
              w' = checkForNewEmails env w).
Proof.
  assert (H : star tstep (fst (start env w), [(env, snd (start env w))]) (checkForNewEmails env w, [(env, PDone)])).
  { unfold start, checkForNewEmails. destruct (negb (isRunning (w_worker w))); [apply star_refl|].
    unfold ensure_token.
    assert (Hl : forall w1, star tstep (w1, [(env, PList)])
                   (let '(w2, err) := fetch_and_process env w1 in on_error env w2 err, [(env, PDone)])).
    { intros w1. apply star_resume; [reflexivity|]. unfold fetch_and_process. simpl.
      destruct (getUnreadEmails _ _) as [m|es]; [apply enter_catch_finish|].
      eapply star_trans; [apply loop_finish|]. unfold finish.
      destruct (process_batch env w1 es) as [w' [m|]]; apply star_refl. }
    destruct (authToken (w_worker w)); [apply Hl|].
    apply star_resume; [reflexivity|]. simpl.
    destruct (authenticate w false (env_token env)) as [w1 [m|]]; [apply enter_catch_finish | apply Hl]. }
  split; [exact H|]. intros w' H'. symmetry. eapply single_deterministic; eassumption.
Qed.

(** ** The invariant along every interleaving *)

Lemma set_last_check_same (env : check_env) (w : world) : same_dedup w (set_last_check env w).
Proof. repeat split. Qed.

Lemma loop_from_inv (env : check_env) (es : list email) :
  forall w, inv w -> inv (fst (loop_from env w es)).
Proof.
  induction es as [|e es IH]; intros w H; simpl; [eapply inv_same_dedup; [apply set_last_check_same | exact H]|].
  destruct (JsSet.has _ _); [apply IH, H | exact H].
Qed.

Lemma resume_inv (env : check_env) (w : world) (p : pc) : inv w -> inv (fst (resume env w p)).
Proof.
  intros H. destruct p as [| |e es|e es|es| | |]; simpl.
  - pose proof (inv_same_dedup _ _ (authenticate_same w false (env_token env)) H) as A.
    destruct (authenticate w false (env_token env)) as [w1 [m|]]; exact A.
  - destruct (getUnreadEmails _ _) as [m|es]; [exact H | apply loop_from_inv, H].
  - destruct (processEmail_w env w e) as [w1|] eqn:E; [|exact H].
    eapply inv_same_dedup; [eapply processEmail_w_same, E | exact H].
  - apply inv_markAsProcessed, H.
  - apply loop_from_inv, H.
  - exact H.
  - eapply inv_same_dedup; [apply authenticate_same | exact H].
  - exact H.
Qed.

Lemma start_world (env : check_env) (w : world) : fst (start env w) = w.
Proof. unfold start. destruct (negb _); [|destruct (authToken _)]; reflexivity. Qed.

Lemma cstep_inv (c c' : config) : cstep c c' -> inv (fst c) -> inv (fst c').
Proof.
  intros [c0 c1 [w ts1 ts2 env p _]|w ts env|w ts ev _|w ts]; cbn [fst];
    [apply resume_inv | now rewrite start_world | apply inv_handle | apply (inv_handle w WorkerRestart)].
Qed.

(** C13: whatever order the awaited promises of overlapping checks settle
    in, however many alarm ticks start new checks, and whatever popup
    messages or worker restarts come between two awaits, the worker's
    invariant holds: the processed set has no duplicates, every
    processed id is stored, and the interval stays at least 60 s. *)
Theorem interleaved_inv (c c' : config) : star cstep c c' -> inv (fst c) -> inv (fst c').
Proof. induction 1 as [|a b c S _ IH]; [auto|]. intros H. apply IH, (cstep_inv a b S H). Qed.

(** ** Two overlapping checks notify the same message twice *)

(** A check that finds no unread message. *)
Definition env_quiet : check_env :=
  mk_env (AuthOk "tok") (ListOk (Some [])) (fun _ => DetailThrow) true "" (fun _ => ReplyFailed)
         (AuthOk "tok") "t0".

(** The worker after installation and the user's toggle. *)
Definition running_world : world := run initial_world [Installed; TogglePolling (AuthOk "tok") env_quiet].

(** Two alarm ticks start two checks that both find m1 unread. *)
Definition two_checks : config := spawn (spawn (running_world, []) env_m1) env_m1.

(** Both fetches settle, then both AI calls, then both [processEmail]s. *)
Definition overlap_order : list nat := [0; 1; 0; 1; 0; 1].

Definition overlap_end : config :=
  match schedule two_checks overlap_order with Some c => c | None => two_checks end.

Lemma overlap_schedule : schedule two_checks overlap_order = Some overlap_end.
Proof. vm_compute. reflexivity. Qed.

Lemma overlap_star : star cstep (running_world, []) overlap_end.
Proof.
  eapply star_step; [apply spawn_cstep|]. eapply star_step; [apply spawn_cstep|].
  apply star_tstep_cstep, (schedule_star overlap_order two_checks overlap_end overlap_schedule).
Qed.

(** ** Checks that do not overlap notify each message once *)

(** The message a check has notified and not yet marked. *)
Definition pending (p : pc) : option string :=
  match p with PNotified e _ => Some (em_id e) | _ => None end.

(** The message a check is working on. *)
Definition fresh (p : pc) : option string :=
  match p with PProcess e _ | PNotified e _ => Some (em_id e) | _ => None end.

(** What a world and the pc of its one running check promise: distinct
    notification ids, each of a processed message or of the message the
    check has notified and not yet marked; the message the check works
    on is not processed. *)
Definition ok_at (w : world) (p : pc) : Prop :=
  NoDup (map nt_id (w_shown w)) /\
  (forall n, In n (w_shown w) -> exists id, nt_id n = ("gmail-" ++ id)%string /\
       (JsSet.has (processedMessages (w_worker w)) id = true \/ pending p = Some id)) /\
  (forall id, fresh p = Some id -> JsSet.has (processedMessages (w_worker w)) id = false).

Lemma ok_at_same (w w' : world) (p : pc) : same_shown w w' -> ok_at w p -> ok_at w' p.
Proof. intros [Hk Hs] (N1 & N2 & N3). split; [now rewrite Hs|]. rewrite Hs, Hk. now split. Qed.

(** A step between two pcs with nothing pending or fresh. *)
Lemma ok_at_quiet (w w' : world) (p p' : pc) :
  same_shown w w' -> pending p = None -> pending p' = None -> fresh p' = None ->
  ok_at w p -> ok_at w' p'.
Proof.
  intros S Hp Hp' Hf' H. apply (ok_at_same w w' p S) in H as (N1 & N2 & _).
  split; [exact N1|]. split; [|intros id Hid; congruence].
  intros n Hn. destruct (N2 n Hn) as (id & Hid & [Hh|Hh]); [exists id; now split; [|left] | congruence].
Qed.

Lemma same_shown_refl (w : world) : same_shown w w.
Proof. now split. Qed.

Lemma enter_catch_ok (w : world) (m : string) (p : pc) :
  pending p = None -> ok_at w p -> ok_at (fst (enter_catch w m)) (snd (enter_catch w m)).
Proof.
  intros Hp. unfold enter_catch. cbn [fst snd].
  apply ok_at_quiet; [apply same_shown_refl | exact Hp | |]; now destruct (includes m "401").
Qed.

Lemma loop_from_ok (env : check_env) (es : list email) :
  forall w p, pending p = None -> ok_at w p -> ok_at (fst (loop_from env w es)) (snd (loop_from env w es)).
Proof.
  induction es as [|e es IH]; intros w p Hp H; simpl.
  - apply (ok_at_quiet w _ p); [now split | exact Hp | reflexivity | reflexivity | exact H].
  - destruct (JsSet.has _ (em_id e)) eqn:Hh; [now apply (IH w p)|].
    destruct H as (N1 & N2 & _). split; [exact N1|]. split.
    + intros n Hn. destruct (N2 n Hn) as (id & Hid & [Hi|Hi]); [exists id; now split; [|left] | congruence].
    + intros id Hid. injection Hid as <-. exact Hh.
Qed.

(** The notification of [e], which is not processed, keeps the ids
    distinct and leaves [e] pending. *)
Lemma process_ok (env : check_env) (w w1 : world) (e : email) (es : list email) :
  ok_at w (PProcess e es) -> processEmail_w env w e = Some w1 -> ok_at w1 (PNotified e es).
Proof.
  intros (N1 & N2 & N3) E. destruct (processEmail_w_shape env w w1 e E) as (Hk & _ & n & Hs & Hn).
  assert (Hf : JsSet.has (processedMessages (w_worker w)) (em_id e) = false) by (apply N3; reflexivity).
  split; [|split].
  - rewrite Hs, map_app. apply NoDup_app; [exact N1 | constructor; [intros []|constructor] |].
    intros x Hx [<-|[]]. apply in_map_iff in Hx as (n' & Hn' & Hin).
    destruct (N2 n' Hin) as (id' & Hid' & [Hh|Hh]); [|discriminate Hh].
    rewrite Hid', Hn in Hn'. apply gmail_id_inj in Hn'. subst id'. congruence.
  - intros n' Hin. rewrite Hs in Hin. apply in_app_or in Hin as [Hin|[<-|[]]].
    + destruct (N2 n' Hin) as (id & Hid & [Hh|Hh]); [|discriminate Hh].
      exists id. split; [exact Hid|]. left. now rewrite Hk.
    + exists (em_id e). split; [exact Hn | now right].
  - intros id Hid. injection Hid as <-. now rewrite Hk.
Qed.

Lemma mark_ok (w : world) (e : email) (es : list email) :
  ok_at w (PNotified e es) -> ok_at (markAsProcessed w (em_id e)) (PMark es).
Proof.
  intros (N1 & N2 & _). split; [exact N1|]. split; [|intros id Hid; discriminate Hid].
  intros n Hn. destruct (N2 n Hn) as (id & Hid & Hh). exists id. split; [exact Hid|]. left.
  cbn [markAsProcessed w_worker with_store with_worker processedMessages]. apply JsSet.has_add.
  destruct Hh as [Hh|Hh]; [now right | injection Hh as <-; now left].
Qed.

Lemma resume_ok (env : check_env) (w : world) (p : pc) :
  ok_at w p -> ok_at (fst (resume env w p)) (snd (resume env w p)).
Proof.
  intros H. destruct p as [| |e es|e es|es| | |]; simpl.
  - pose proof (authenticate_shown w false (env_token env)) as A.
    destruct (authenticate w false (env_token env)) as [w1 [m|]]; simpl in A.
    + apply (enter_catch_ok w1 m PAuth); [reflexivity | exact (ok_at_same w w1 PAuth A H)].
    + exact (ok_at_quiet w w1 PAuth PList A eq_refl eq_refl eq_refl H).
  - destruct (getUnreadEmails _ _) as [m|es]; [apply (enter_catch_ok w m PList) | apply (loop_from_ok env es w PList)];
      easy.
  - destruct (processEmail_w env w e) as [w1|] eqn:E; [exact (process_ok env w w1 e es H E)|].
    apply (enter_catch_ok w _ (PProcess e es)); [reflexivity | exact H].
  - apply mark_ok, H.
  - apply (loop_from_ok env es w (PMark es)); [reflexivity | exact H].
  - exact (ok_at_quiet w w PLastCheck PDone (same_shown_refl w) eq_refl eq_refl eq_refl H).
  - exact (ok_at_quiet w _ PRefresh PDone (authenticate_shown _ _ _) eq_refl eq_refl eq_refl H).
  - exact H.
Qed.

(** The checks not finished yet, and the pc of the running one. *)
Definition active (ts : list thread) : list thread := filter (fun t => negb (is_done (snd t))) ts.

Definition running_pc (ts : list thread) : pc :=
  match active ts with (_, p) :: _ => p | [] => PDone end.

Definition serial_ok (c : config) : Prop :=
  length (active (snd c)) <= 1 /\ ok_at (fst c) (running_pc (snd c)).

(** The executions where an alarm tick starts a check only when every
    earlier check has finished (the in-flight guard of spec.md, section
    5), the history is not cleared and the worker not restarted. *)
Inductive sstep : config -> config -> Prop :=
| sstep_thread (c c' : config) : tstep c c' -> sstep c c'
| sstep_alarm (w : world) (ts : list thread) (env : check_env) :
    active ts = [] -> sstep (w, ts) (fst (start env w), (ts ++ [(env, snd (start env w))])%list)
| sstep_event (w : world) (ts : list thread) (ev : event) :
    interleaved w ev = true -> keeps_set ev = true -> sstep (w, ts) (fst (handle w ev), ts).

Lemma sstep_cstep (c c' : config) : sstep c c' -> cstep c c'.
Proof.
  intros [c0 c1 H|w ts env _|w ts ev H _]; [now apply cstep_thread | apply cstep_alarm | now apply cstep_event].
Qed.

Lemma active_app (l1 l2 : list thread) : active (l1 ++ l2) = (active l1 ++ active l2)%list.
Proof. apply filter_app. Qed.

Lemma active_mid (ts1 ts2 : list thread) (env : check_env) (p : pc) :
  active (ts1 ++ (env, p) :: ts2) =
  (active ts1 ++ (if is_done p then [] else [(env, p)]) ++ active ts2)%list.
Proof. rewrite active_app. unfold active at 2. simpl. now destruct (is_done p). Qed.

Lemma running_pc_mid (ts1 ts2 : list thread) (env : check_env) (p : pc) :
  active ts1 = [] -> active ts2 = [] -> running_pc (ts1 ++ (env, p) :: ts2) = p.
Proof.
  intros H1 H2. unfold running_pc. rewrite active_mid, H1, H2.
  destruct p; reflexivity.
Qed.

Lemma tstep_serial (c c' : config) : tstep c c' -> serial_ok c -> serial_ok c'.
Proof.
  intros [w ts1 ts2 env p D] [L H]. cbn [fst snd] in *. rewrite active_mid, D in L.
  rewrite !length_app in L. simpl in L.
  assert (A1 : active ts1 = []) by (destruct (active ts1); [reflexivity | simpl in L; lia]).
  assert (A2 : active ts2 = []) by (destruct (active ts2); [reflexivity | simpl in L; lia]).
  rewrite running_pc_mid in H by assumption. split; cbn [fst snd].
  - rewrite active_mid, A1, A2. rewrite !length_app. destruct (is_done (snd (resume env w p))); simpl; lia.
  - rewrite running_pc_mid by assumption. apply resume_ok, H.
Qed.

Lemma handle_interleaved_same (w : world) (ev : event) :
  interleaved w ev = true -> keeps_set ev = true -> same_shown w (fst (handle w ev)).
Proof.
  destruct ev; simpl; intros H K; try discriminate; try (now split).
  rewrite H. now split.
Qed.

Lemma start_quiet (env : check_env) (w : world) :
  pending (snd (start env w)) = None /\ fresh (snd (start env w)) = None.
Proof. unfold start. destruct (negb _); [|destruct (authToken _)]; now split. Qed.

Lemma sstep_serial (c c' : config) : sstep c c' -> serial_ok c -> serial_ok c'.
Proof.
  intros [c0 c1 S|w ts env A|w ts ev I K] H; [exact (tstep_serial c0 c1 S H)| |].
  - destruct H as [_ H]. cbn [fst snd] in H. unfold running_pc in H. rewrite A in H.
    destruct (start_quiet env w) as [P F].
    unfold serial_ok, running_pc. cbn [fst snd]. rewrite start_world, active_app, A. cbn [app].
    unfold active. cbn [filter snd]. destruct (is_done (snd (start env w))); cbn; (split; [lia|]);
      [exact H | exact (ok_at_quiet w w PDone _ (same_shown_refl w) eq_refl P F H)].
  - destruct H as [L H]. split; [exact L|]. exact (ok_at_same w _ _ (handle_interleaved_same w ev I K) H).
Qed.

Lemma star_sstep_cstep (c c' : config) : star sstep c c' -> star cstep c c'.
Proof. induction 1; [apply star_refl | eapply star_step; [apply sstep_cstep; eassumption | assumption]]. Qed.

Lemma star_tstep_sstep (c c' : config) : star tstep c c' -> star sstep c c'.
Proof. induction 1; [apply star_refl | eapply star_step; [apply sstep_thread; eassumption | assumption]]. Qed.

(** C1: in the executions where no check starts while another is still
    running (with popup messages other than "clear history" between any
    two awaits, and no restart), no message is notified twice: every
    double notification of the worker comes from overlapping checks. *)
Theorem serial_checks_notify_once (c c' : config) :
  star sstep c c' -> serial_ok c -> star cstep c c' /\ NoDup (map nt_id (w_shown (fst c'))).
Proof.
  intros S H. split; [now apply star_sstep_cstep|].
  induction S as [|a b c' Sab _ IH]; [apply H | apply IH, (sstep_serial a b Sab H)].
Qed.

(** ** Steps of a check from a given world *)

Lemma alarm_start (w : world) (ts : list thread) (env : check_env) (p : pc) :
  start env w = (w, p) -> cstep (w, ts) (w, (ts ++ [(env, p)])%list).
Proof. intros E. pose proof (cstep_alarm w ts env) as S. rewrite E in S. exact S. Qed.

Lemma tstep_at (w w' : world) (ts1 ts2 : list thread) (env : check_env) (p p' : pc) :
  is_done p = false -> resume env w p = (w', p') ->
  tstep (w, (ts1 ++ (env, p) :: ts2)%list) (w', (ts1 ++ (env, p') :: ts2)%list).
Proof. intros D E. pose proof (tstep_resume w ts1 ts2 env p D) as S. rewrite E in S. exact S. Qed.

Lemma start_list (env : check_env) (w : world) (t : string) :
  isRunning (w_worker w) = true -> authToken (w_worker w) = Some t -> start env w = (w, PList).
Proof. intros R T. unfold start. now rewrite R, T. Qed.

Lemma resume_list_new (env : check_env) (w : world) (e : email) (es : list email) :
  getUnreadEmails (env_list env) (env_details env) = inr (e :: es) ->
  JsSet.has (processedMessages (w_worker w)) (em_id e) = false ->
  resume env w PList = (w, PProcess e es).
Proof. intros G H. simpl. rewrite G. cbn [loop_from]. now rewrite H. Qed.

Lemma resume_process (env : check_env) (w w1 : world) (e : email) (es : list email) :
  processEmail_w env w e = Some w1 -> resume env w (PProcess e es) = (w1, PNotified e es).
Proof. intros E. simpl. now rewrite E. Qed.

Lemma processEmail_w_alarm (env : check_env) (w w1 : world) (e : email) :
  processEmail_w env w e = Some w1 -> w_alarm w1 = w_alarm w.
Proof.
  unfold processEmail_w. intros H.
  destruct (cached_settings (w_ai w)); [|destruct (env_settings_read env); [|discriminate H]];
    simpl in H; destruct (AIPath.processEmail _ _ _ _ _); now injection H as <-.
Qed.

(** The hypotheses of the two scenarios below: a running worker with a
    token, whose next fetch returns [e] first, [e] not yet processed,
    and the settings read succeeds. *)
Definition fetches_new (env : check_env) (w : world) (e : email) (es : list email) : Prop :=
  isRunning (w_worker w) = true /\ (exists t, authToken (w_worker w) = Some t) /\
  getUnreadEmails (env_list env) (env_details env) = inr (e :: es) /\
  JsSet.has (processedMessages (w_worker w)) (em_id e) = false /\ env_settings_read env = true.

(** ** Two overlapping checks notify the same message twice *)

(** C14: the worker has no in-flight guard (spec.md, section 5, requires
    one per poll cycle): from any running world whose next fetch returns
    an unprocessed message, two alarm ticks whose checks both fetch
    before either has processed it notify it twice. *)
Theorem overlapping_checks_notify_twice (w : world) (env : check_env) (e : email) (es : list email) :
  fetches_new env w e es ->
  exists c', star cstep (w, []) c' /\
    exists n1 n2, w_shown (fst c') = (w_shown w ++ [n1; n2])%list /\
                  nt_id n1 = ("gmail-" ++ em_id e)%string /\ nt_id n2 = nt_id n1.
Proof.
  intros (R & [t T] & G & H & S).
  destruct (processEmail_w_some env w e S) as [w1 E1].
  destruct (processEmail_w_shape env w w1 e E1) as (_ & _ & n1 & S1 & I1).
  destruct (processEmail_w_some env w1 e S) as [w2 E2].
  destruct (processEmail_w_shape env w1 w2 e E2) as (_ & _ & n2 & S2 & I2).
  exists (w2, [(env, PNotified e es); (env, PNotified e es)]). split.
  - eapply star_step; [apply (alarm_start w [] env PList), (start_list env w t R T)|].
    eapply star_step; [apply (alarm_start w _ env PList), (start_list env w t R T)|].
    eapply star_step; [apply cstep_thread, (tstep_at w w [] [(env, PList)] env PList (PProcess e es));
                       [reflexivity | apply resume_list_new; assumption]|].
    eapply star_step; [apply cstep_thread, (tstep_at w w [(env, PProcess e es)] [] env PList (PProcess e es));
                       [reflexivity | apply resume_list_new; assumption]|].
    eapply star_step; [apply cstep_thread, (tstep_at w w1 [] [(env, PProcess e es)] env (PProcess e es) (PNotified e es));
                       [reflexivity | apply resume_process, E1]|].
    eapply star_step; [apply cstep_thread, (tstep_at w1 w2 [(env, PNotified e es)] [] env (PProcess e es) (PNotified e es));
                       [reflexivity | apply resume_process, E2]|].
    apply star_refl.
  - exists n1, n2. cbn [fst]. rewrite S2, S1, <- app_assoc. split; [reflexivity|]. split; [exact I1|]. congruence.
Qed.

(** ** Stopping polling does not stop a running check *)

Lemma handle_stop (w : world) (auth : auth_result) (env : check_env) :
  isRunning (w_worker w) = true -> fst (handle w (TogglePolling auth env)) = stopPolling w.
Proof. intros R. simpl. now rewrite R. Qed.

(** C24: [stopPolling] only clears [isRunning] and the alarm: from any
    running world whose next fetch returns an unprocessed message, the
    user can stop polling while the check awaits the AI call; the check
    then goes on, and its notification appears although polling is
    stopped and the alarm cleared. *)
Theorem stop_during_check_notifies (w : world) (env : check_env) (e : email) (es : list email)
    (auth : auth_result) (env' : check_env) :
  fetches_new env w e es ->
  exists c1 c2, star cstep (w, []) c1 /\
    isRunning (w_worker (fst c1)) = false /\ w_alarm (fst c1) = None /\ w_shown (fst c1) = w_shown w /\
    star tstep c1 c2 /\
    isRunning (w_worker (fst c2)) = false /\ w_alarm (fst c2) = None /\
    exists n, w_shown (fst c2) = (w_shown w ++ [n])%list /\ nt_id n = ("gmail-" ++ em_id e)%string.
Proof.
  intros (R & [t T] & G & H & S).
  destruct (processEmail_w_some env (stopPolling w) e S) as [w1 E1].
  destruct (processEmail_w_shape env (stopPolling w) w1 e E1) as (K1 & _ & n & S1 & I1).
  exists (stopPolling w, [(env, PProcess e es)]), (w1, [(env, PNotified e es)]).
  split; [|split; [reflexivity|]; split; [reflexivity|]; split; [reflexivity|]; split].
  - eapply star_step; [apply (alarm_start w [] env PList), (start_list env w t R T)|].
    eapply star_step; [apply cstep_thread, (tstep_at w w [] [] env PList (PProcess e es));
                       [reflexivity | apply resume_list_new; assumption]|].
    eapply star_step; [|apply star_refl].
    rewrite <- (handle_stop w auth env' R). apply cstep_event. simpl. exact R.
  - eapply star_step; [apply (tstep_at (stopPolling w) w1 [] [] env (PProcess e es) (PNotified e es));
                       [reflexivity | apply resume_process, E1]|].
    apply star_refl.
  - split; [cbn [fst]; now rewrite K1|]. split; [cbn [fst]; now rewrite (processEmail_w_alarm _ _ _ _ E1)|].
    exists n. split; [exact S1 | exact I1].
Qed.

(** ** Witnesses *)

Lemma inv_running_world : inv running_world.
Proof. unfold running_world, run. apply inv_handle, inv_handle, inv_initial. Qed.

Lemma interleaved_inv_witness :
  star cstep (running_world, []) overlap_end /\ inv running_world /\ inv (fst overlap_end).
Proof.
  split; [exact overlap_star|]. split; [exact inv_running_world|].
  exact (interleaved_inv (running_world, []) overlap_end overlap_star inv_running_world).
Defined.

Lemma fetches_new_m1 : fetches_new env_m1 running_world (parseMessage m1_data) [].
Proof.
  split; [vm_compute; reflexivity|]. split; [exists "tok"; vm_compute; reflexivity|].
  split; [reflexivity|]. split; [vm_compute; reflexivity | reflexivity].
Defined.

Lemma overlapping_checks_notify_twice_witness :
  fetches_new env_m1 running_world (parseMessage m1_data) [] /\
  exists c', star cstep (running_world, []) c' /\
    exists n1 n2, w_shown (fst c') = (w_shown running_world ++ [n1; n2])%list /\
                  nt_id n1 = ("gmail-" ++ em_id (parseMessage m1_data))%string /\ nt_id n2 = nt_id n1.
Proof.
  split; [exact fetches_new_m1|].
  exact (overlapping_checks_notify_twice running_world env_m1 (parseMessage m1_data) [] fetches_new_m1).
Defined.

Lemma stop_during_check_notifies_witness :
  fetches_new env_m1 running_world (parseMessage m1_data) [] /\
  exists c1 c2, star cstep (running_world, []) c1 /\
    isRunning (w_worker (fst c1)) = false /\ w_alarm (fst c1) = None /\
    w_shown (fst c1) = w_shown running_world /\
    star tstep c1 c2 /\
    isRunning (w_worker (fst c2)) = false /\ w_alarm (fst c2) = None /\
    exists n, w_shown (fst c2) = (w_shown running_world ++ [n])%list /\
              nt_id n = ("gmail-" ++ em_id (parseMessage m1_data))%string.
Proof.
  split; [exact fetches_new_m1|].
  exact (stop_during_check_notifies running_world env_m1 (parseMessage m1_data) []
           (AuthOk "tok") env_quiet fetches_new_m1).
Defined.

(** One check started on the idle worker and run to its end. *)
Definition serial_end : config :=
  match schedule (spawn (running_world, []) env_m1) [0; 0; 0; 0; 0] with
  | Some c => c
  | None => (running_world, [])
  end.

Lemma serial_checks_notify_once_witness :
  star sstep (running_world, []) serial_end /\ serial_ok (running_world, []) /\
  star cstep (running_world, []) serial_end /\ NoDup (map nt_id (w_shown (fst serial_end))).
Proof.
  assert (S : star sstep (running_world, []) serial_end).
  { eapply star_step; [apply (sstep_alarm running_world [] env_m1); reflexivity|].
    apply star_tstep_sstep, (schedule_star [0; 0; 0; 0; 0] (spawn (running_world, []) env_m1)).
    vm_compute. reflexivity. }
  assert (H : serial_ok (running_world, [])).
  { assert (E : w_shown running_world = []) by (vm_compute; reflexivity).
    split; [simpl; lia|]. unfold ok_at. cbn [fst]. rewrite E.
    split; [constructor|]. split; [intros n [] | intros id Hid; discriminate Hid]. }
  split; [exact S|]. split; [exact H|]. exact (serial_checks_notify_once _ _ S H).
Defined.

Lemma two_checks_started :
  two_checks = (running_world, map (fun env => (env, snd (start env running_world))) [env_m1; env_m1]).
Proof. vm_compute. reflexivity. Qed.

Lemma checks_bounded_witness :
  nsteps tstep 6 (running_world, map (fun env => (env, snd (start env running_world))) [env_m1; env_m1])
         overlap_end /\ 6 <= 33 * 2.
Proof.
  assert (N : nsteps tstep 6 (running_world, map (fun env => (env, snd (start env running_world))) [env_m1; env_m1])
                     overlap_end)
    by (rewrite <- two_checks_started; exact (schedule_nsteps overlap_order two_checks overlap_end overlap_schedule)).
  split; [exact N|]. exact (checks_bounded running_world [env_m1; env_m1] 6 overlap_end N).
Defined.

Lemma check_refines_witness :
  star tstep (fst (start env_m1 running_world), [(env_m1, snd (start env_m1 running_world))])
       (checkForNewEmails env_m1 running_world, [(env_m1, PDone)]) /\
  map nt_id (w_shown (checkForNewEmails env_m1 running_world)) = ["gmail-m1"].
Proof. split; [exact (proj1 (check_refines env_m1 running_world)) | vm_compute; reflexivity]. Defined.

End Interleave.
