(* ===== verification/Popup.v ===== *)
(** * Popup: the settings and status page (src/popup.js)

    The popup shows the worker's status and lets the user start or stop
    polling, clear the history and save an API key.  Its state is the
    text of its elements ([view]) and the restore callbacks of the save
    button that [setTimeout] has scheduled.  Each handler is a function
    on the view; the messages it sends are answered by the worker's
    [Notifier.handle], and [ui_handle] runs a popup event together with
    the worker event it causes.  What [sendMessage] resolves with is the
    worker's [reply]: [NoReply] is [undefined], on which reading a field
    throws.  [toLocaleString] is a parameter ([fmt]). *)

From Stdlib Require Import String List Bool Arith Lia.
From S2P Require Import Prelude Sanitizer Gmail Dedup Notifier Worker002.
Import ListNotations.
Local Open Scope string_scope.

Module Popup.
Import Gmail Notifier.

(** ** State *)

Record view := mk_view {
  status_text : string; status_class : string; toggle_label : string;
  last_check_text : string; count_text : string; key_value : string;
  save_label : string;
  pending_restores : list string   (** the [originalText] of each pending timer *)
}.

(** The fields of a response object the popup reads. *)
Record response := mk_response {
  r_isRunning : bool; r_lastCheck : option string; r_processedCount : option nat }.

Definition response_of (r : reply) : option response :=
  match r with
  | NoReply => None
  | StatusReply st => Some (mk_response (s_isRunning st) (s_lastCheck st) (Some (s_processedCount st)))
  | ToggleReply b => Some (mk_response b None None)
  | ClearReply => Some (mk_response false None None)
  end.

(** ** Handlers *)

(** Lines 14-22 and 52-60. *)
Definition set_running (b : bool) (v : view) : view :=
  let '(t, c, l) := if b then ("Active", "status-value status-active", "Stop")
                    else ("Inactive", "status-value status-inactive", "Start") in
  mk_view t c l (last_check_text v) (count_text v) (key_value v) (save_label v) (pending_restores v).

(** [loadStatus] (lines 10-36). *)
Definition loadStatus (fmt : string -> string) (r : option response) (v : view) : view :=
  match r with
  | None =>
      mk_view "Error" (status_class v) (toggle_label v) (last_check_text v) (count_text v)
              (key_value v) (save_label v) (pending_restores v)
  | Some resp =>
      let v1 := set_running (r_isRunning resp) v in
      let last := match r_lastCheck resp with
                  | Some d => if String.eqb d "" then "Never" else fmt d
                  | None => "Never"
                  end in
      let count := match r_processedCount resp with Some n => n | None => 0 end in
      mk_view (status_text v1) (status_class v1) (toggle_label v1) last (digits count)
              (key_value v1) (save_label v1) (pending_restores v1)
  end.

(** [loadSettings] (lines 38-46); [read_ok] is whether the read resolves. *)
Definition loadSettings (s : store) (read_ok : bool) (v : view) : view :=
  if negb read_ok then v
  else
    let key := match st_settings s with
               | Some ss => match ss_aiApiKey ss with Some k => k | None => "" end
               | None => ""
               end in
    mk_view (status_text v) (status_class v) (toggle_label v) (last_check_text v) (count_text v)
            key (save_label v) (pending_restores v).

(** The toggle button (lines 48-64): the [catch] leaves the view as it is. *)
Definition toggle_click (r : option response) (v : view) : view :=
  match r with None => v | Some resp => set_running (r_isRunning resp) v end.

(** The clear button after [confirm] (lines 69-70). *)
Definition clear_click (v : view) : view :=
  mk_view (status_text v) (status_class v) (toggle_label v) (last_check_text v) "0"
          (key_value v) (save_label v) (pending_restores v).

(** The save button (lines 86-94): the label becomes "Saved!" and a timer
    will put back the label read at the click. *)
Definition save_click (v : view) : view :=
  mk_view (status_text v) (status_class v) (toggle_label v) (last_check_text v) (count_text v)
          (key_value v) "Saved!" (pending_restores v ++ [save_label v]).

(** The timers all wait 1500 ms, so they fire in the order they were set. *)
Definition save_timeout (v : view) : view :=
  match pending_restores v with
  | [] => v
  | t :: rest =>
      mk_view (status_text v) (status_class v) (toggle_label v) (last_check_text v) (count_text v)
              (key_value v) t rest
  end.

(** ** The popup with the worker *)

Record ui := mk_ui { u_world : world; u_view : view }.

Inductive ui_event :=
| OpenPopup (fmt : string -> string) (read_ok : bool)  (** lines 100-102 *)
| ClickToggle (auth : auth_result) (env : check_env)
| ClickClear (confirmed : bool)
| ClickSave (input : string)
| SaveTimerFires
| WorkerEvent (ev : event).

(** [loadStatus] and [loadSettings] write disjoint elements, so the
    order in which they complete does not matter. *)
Definition ui_handle (u : ui) (ev : ui_event) : ui :=
  let w := u_world u in
  let v := u_view u in
  match ev with
  | OpenPopup fmt ok =>
      let (w', r) := handle w GetStatus in
      mk_ui w' (loadSettings (w_store w) ok (loadStatus fmt (response_of r) v))
  | ClickToggle auth env =>
      let (w', r) := handle w (TogglePolling auth env) in mk_ui w' (toggle_click (response_of r) v)
  | ClickClear c =>
      if c then mk_ui (fst (handle w ClearProcessed)) (clear_click v) else u
  | ClickSave input => mk_ui (fst (handle w (SaveKey input))) (save_click v)
  | SaveTimerFires => mk_ui w (save_timeout v)
  | WorkerEvent e => mk_ui (fst (handle w e)) v
  end.

Fixpoint ui_run (u : ui) (evs : list ui_event) : ui :=
  match evs with
  | [] => u
  | ev :: evs' => ui_run (ui_handle u ev) evs'
  end.

(** The toggle button against part_002's worker, which has no
    [togglePolling] branch. *)
Definition toggle_click2 (w : Worker002.world2) (v : view) : Worker002.world2 * view :=
  let (w', r) := Worker002.handle2 w (Worker002.Message2 "togglePolling") in (w', toggle_click (response_of r) v).

(** ** Theorems *)

Lemma authenticate_running (w : world) (f : bool) (r : auth_result) :
  isRunning (w_worker (fst (authenticate w f r))) = isRunning (w_worker w).
Proof. unfold authenticate. destruct (f && _), r; reflexivity. Qed.

(** The worker's reply to [togglePolling] is its [isRunning] afterwards. *)
Lemma toggle_reply (w : world) (auth : auth_result) (env : check_env) :
  snd (handle w (TogglePolling auth env)) = ToggleReply (isRunning (w_worker (fst (handle w (TogglePolling auth env))))).
Proof.
  simpl. destruct (isRunning (w_worker w)) eqn:R; [reflexivity|].
  pose proof (authenticate_running w false auth) as A.
  destruct (authenticate w false auth) as [w1 [m|]]; simpl in *; [congruence | reflexivity].
Qed.

(** C18: after a click on the toggle button the popup shows the state the
    worker is in: "Active" and "Stop" when it is polling, "Inactive" and
    "Start" otherwise, whether the toggle started, stopped or failed. *)
Theorem popup_toggle_consistent (u : ui) (auth : auth_result) (env : check_env) :
  let u' := ui_handle u (ClickToggle auth env) in
  status_text (u_view u') = (if isRunning (w_worker (u_world u')) then "Active" else "Inactive") /\
  toggle_label (u_view u') = (if isRunning (w_worker (u_world u')) then "Stop" else "Start").
Proof.
  cbv zeta. unfold ui_handle.
  pose proof (toggle_reply (u_world u) auth env) as T.
  destruct (handle (u_world u) (TogglePolling auth env)) as [w' r]. simpl in T |- *. subst r.
  unfold set_running. destruct (isRunning (w_worker w')); split; reflexivity.
Qed.

(** C19: opening the popup shows whether the worker polls and the size of
    its processed set, leaves the worker as it is, and shows "Never" as
    the last check whatever the storage holds, since [getStatus] sends no
    [lastCheck]. *)
Theorem popup_status_reflects_worker (u : ui) (fmt : string -> string) (ok : bool) :
  let u' := ui_handle u (OpenPopup fmt ok) in
  u_world u' = u_world u /\
  status_text (u_view u') = (if isRunning (w_worker (u_world u)) then "Active" else "Inactive") /\
  count_text (u_view u') = digits (JsSet.size (processedMessages (w_worker (u_world u)))) /\
  last_check_text (u_view u') = "Never".
Proof.
  cbv zeta. unfold ui_handle, loadSettings. simpl.
  destruct (isRunning (w_worker (u_world u))), ok; simpl; repeat split.
Qed.

(** C20: two clicks on the save button within 1.5 s leave the button
    reading "Saved!" for good: the second click's timer puts back the
    label it read, which the first click had already changed; after a
    single click the label comes back. *)
Theorem save_label_stuck (u : ui) (a b : string) :
  pending_restores (u_view u) = [] ->
  save_label (u_view (ui_run u [ClickSave a; ClickSave b; SaveTimerFires; SaveTimerFires])) = "Saved!" /\
  pending_restores (u_view (ui_run u [ClickSave a; ClickSave b; SaveTimerFires; SaveTimerFires])) = [] /\
  save_label (u_view (ui_run u [ClickSave a; SaveTimerFires])) = save_label (u_view u).
Proof.
  destruct u as [w [st sc tl lc cc kv sl pr]]. simpl. intros ->. repeat split.
Qed.

(** Against part_002's worker the toggle button does nothing: the worker
    never answers [togglePolling], so the popup's handler throws on the
    missing response and the [catch] leaves everything as it was. *)
Lemma popup002_toggle_noop (w : Worker002.world2) (v : view) : toggle_click2 w v = (w, v).
Proof.
  unfold toggle_click2. simpl. unfold Worker002.onMessage2. simpl. reflexivity.
Qed.

(** ** Witnesses *)

Definition blank_view : view := mk_view "" "" "" "" "" "" "Save" [].

Lemma save_label_stuck_witness :
  pending_restores blank_view = [] /\
  save_label (u_view (ui_run (mk_ui initial_world blank_view)
                       [ClickSave "k1"; ClickSave "k2"; SaveTimerFires; SaveTimerFires])) = "Saved!".
Proof.
  split; [reflexivity|].
  exact (proj1 (save_label_stuck (mk_ui initial_world blank_view) "k1" "k2" eq_refl)).
Defined.

End Popup.
